(** * Blotato spam filter: risk-scoring pipeline, edge-case classifier and
      result cache, embedded from the TypeScript sources.

    Conventions of the embedding.
    - A JavaScript string is the list of its UTF-16 code units ([jsstring]).
    - A JavaScript number is a rational ([Q]), or an integer ([Z]) where
      the code counts or reads the millisecond clock. The engine's
      aggregation and the cache's eviction score round the result of
      every operation to the nearest double ([fl], ties to even), as the
      code does; the ratios, rates and percentiles of the rules, the
      edge-case classifier and the monitor are exact rationals.
    - [Date.now()] and [performance.now()] are inputs of the operation that
      reads them.
    - A call that may throw returns an [Outcome]; [try]/[catch] is a match
      on it.
    - An object with mutable fields is a record threaded through the calls
      that change it.
    - Names are those of the sources. Where two fields of one scope share a
      name the second is qualified: [resultConfidence] is [confidence] of
      [DetectionResult], [cacheHits] is [hits] of [MemoryCache],
      [indicatorType] is [type] of [SpamIndicator], and the thresholds are
      prefixed [th_]. *)

From Stdlib Require Import String Ascii ZArith QArith Qminmax Qpower Qround.
From Stdlib Require Import List Bool Lia Lqa.
From Stdlib Require Import DecimalString.
Import ListNotations.

(* ------------------------------------------------------------------ *)
(** ** JavaScript strings *)

Module JsString.

Definition jsstring := list Z.

Definition code (a : ascii) : Z := Z.of_N (N_of_ascii a).

(** A string literal of the source (ASCII only). *)
Fixpoint js (s : string) : jsstring :=
  match s with
  | EmptyString => []
  | String a r => code a :: js r
  end.

Definition eqb (a b : jsstring) : bool :=
  if list_eq_dec Z.eq_dec a b then true else false.

Definition inRange (lo hi c : Z) : bool := (lo <=? c)%Z && (c <=? hi)%Z.

Definition oneOf (cs : list Z) (c : Z) : bool := existsb (Z.eqb c) cs.

(** ECMAScript WhiteSpace and LineTerminator: what [trim] strips and what
    [\s] matches. *)
Definition isWhiteSpace (c : Z) : bool :=
  oneOf [9; 10; 11; 12; 13; 32; 160; 5760; 8232; 8233; 8239; 8287; 12288; 65279]%Z c
  || inRange 8192 8202 c.

Definition isLineTerminator (c : Z) : bool := oneOf [10; 13; 8232; 8233]%Z c.

Definition isDigit (c : Z) : bool := inRange 48 57 c.
Definition isUpper (c : Z) : bool := inRange 65 90 c.
Definition isLower (c : Z) : bool := inRange 97 122 c.
Definition isLetter (c : Z) : bool := isUpper c || isLower c.

(** [\w] is [[A-Za-z0-9_]]. *)
Definition isWordChar (c : Z) : bool := isLetter c || isDigit c || (c =? 95)%Z.

Fixpoint trimStart (s : jsstring) : jsstring :=
  match s with
  | [] => []
  | c :: r => if isWhiteSpace c then trimStart r else s
  end.

Definition trimEnd (s : jsstring) : jsstring := rev (trimStart (rev s)).

Definition trim (s : jsstring) : jsstring := trimEnd (trimStart s).

(** [toLowerCase] restricted to strings of ASCII letters. *)
Definition asciiLower (s : jsstring) : jsstring :=
  map (fun c => if isUpper c then (c + 32)%Z else c) s.

(** Template-literal rendering of an integer. *)
Definition decimal (z : Z) : jsstring :=
  js (NilZero.string_of_int (Z.to_int z)).

(** Code points of a UTF-16 string; an unpaired surrogate stands alone. *)
Fixpoint codePoints (s : jsstring) : list Z :=
  match s with
  | [] => []
  | c :: r =>
      if inRange 0xD800 0xDBFF c then
        match r with
        | d :: r' =>
            if inRange 0xDC00 0xDFFF d
            then (0x10000 + (c - 0xD800) * 1024 + (d - 0xDC00))%Z :: codePoints r'
            else c :: codePoints r
        | [] => [c]
        end
      else c :: codePoints r
  end.

(** [!content || content.trim().length === 0] on a string. *)
Definition isBlank (content : jsstring) : bool :=
  match content with
  | [] => true
  | _ => (Z.of_nat (length (trim content)) =? 0)%Z
  end.

End JsString.
Import JsString.

(* ------------------------------------------------------------------ *)
(** ** Numbers *)

Definition Qltb (x y : Q) : bool := negb (Qle_bool y x).

(** IEEE 754 binary64 with rounding to nearest, ties to even: what every
    arithmetic operation of a JavaScript number does to its exact result.
    The exponent range is taken unbounded (no overflow to [Infinity], no
    gradual underflow); the numbers of the program stay far inside it. *)

(** The integer nearest to [x]; half-way, the even one. *)
Definition roundTiesToEven (x : Q) : Z :=
  let f := Qfloor x in
  match Qcompare (x - inject_Z f) (1 # 2) with
  | Lt => f
  | Gt => (f + 1)%Z
  | Eq => if Z.even f then f else (f + 1)%Z
  end.

(** The exponent [e] of a positive [x]: [2^e <= x < 2^(e+1)]. *)
Definition binade (x : Q) : Z :=
  let k := (Z.log2 (Qnum x) - Z.log2 (Zpos (Qden x)))%Z in
  if Qle_bool (2 ^ k)%Q x then k else (k - 1)%Z.

(** A positive [x] rounded to 53 significant bits. *)
Definition roundPositive (x : Q) : Q :=
  let s := (52 - binade x)%Z in
  (inject_Z (roundTiesToEven (x * 2 ^ s)) * 2 ^ (- s))%Q.

(** The double nearest to [x]. A literal of the source such as [0.2], and
    a number read from a field, is [fl] of its decimal value. *)
Definition fl (x : Q) : Q :=
  match Qcompare x 0 with
  | Eq => 0%Q
  | Gt => roundPositive x
  | Lt => (- roundPositive (- x))%Q
  end.

(** [x + y], [x * y] and [x / y] of two doubles. *)
Definition fadd (x y : Q) : Q := fl (x + y).
Definition fmul (x y : Q) : Q := fl (x * y).
Definition fdiv (x y : Q) : Q := fl (x / y).

(** What a call produces: a value, or a thrown error with its message. *)
Inductive Outcome (A : Type) : Type :=
| Returned (a : A)
| Threw (message : jsstring).
Arguments Returned {A} a.
Arguments Threw {A} message.

Definition bindOutcome {A B} (m : Outcome A) (f : A -> Outcome B) : Outcome B :=
  match m with
  | Returned a => f a
  | Threw e => Threw e
  end.

(** [try { body } catch (error) { handler }] *)
Definition tryCatch {A} (body : Outcome A) (handler : jsstring -> A) : A :=
  match body with
  | Returned a => a
  | Threw e => handler e
  end.

(* ------------------------------------------------------------------ *)
(** ** types/detection.ts *)

Inductive SpamIndicatorType :=
| profanity | repetitive_content | promotional | suspicious_links
| caps_abuse | fake_engagement | character_patterns | word_patterns
| sentence_structure.

Inductive SeverityLevel := low | medium | high.

Inductive DetectionDecision := allow | flag | reject | under_review.

Record SpamIndicator := {
  indicatorType : SpamIndicatorType;
  severity : SeverityLevel;
  confidence : Q;
  evidence : list jsstring;
  weight : Q
}.

Record DetectionResult := {
  decision : DetectionDecision;
  overallScore : Q;
  resultConfidence : Q;
  indicators : list SpamIndicator;
  processingTime : Q;
  contentHash : jsstring
}.

(** [{...result, processingTime}] *)
Definition withProcessingTime (r : DetectionResult) (t : Q) : DetectionResult :=
  {| decision := decision r;
     overallScore := overallScore r;
     resultConfidence := resultConfidence r;
     indicators := indicators r;
     processingTime := t;
     contentHash := contentHash r |}.

Record DetectionRule := {
  name : jsstring;
  ruleType : SpamIndicatorType;
  ruleWeight : Q;
  enabled : bool;
  execute : jsstring -> Outcome (option SpamIndicator)
}.

(* ------------------------------------------------------------------ *)
(** ** config/detection.ts *)

Record Thresholds := {
  th_allow : Q;
  th_flag : Q;
  th_underReview : Q;
  th_reject : Q
}.

Definition DETECTION_THRESHOLDS : Thresholds :=
  {| th_allow := fl (2 # 10);
     th_flag := fl (5 # 10);
     th_underReview := fl (7 # 10);
     th_reject := fl (7 # 10) |}.

(* ------------------------------------------------------------------ *)
(** ** Node's [createHash('sha256').update(s).digest('hex')]

    The digest is library code; it is written out (FIPS 180-4) so that
    fingerprints evaluate. *)

Module Sha256.

(** UTF-8 bytes of one code point; an unpaired surrogate is written as
    U+FFFD. *)
Definition utf8OfCodePoint (cp : Z) : list Z :=
  if (cp <? 0x80)%Z then [cp]
  else if (cp <? 0x800)%Z then
    [Z.lor 0xC0 (Z.shiftr cp 6); Z.lor 0x80 (Z.land cp 0x3F)]
  else if inRange 0xD800 0xDFFF cp then [0xEF; 0xBF; 0xBD]%Z
  else if (cp <? 0x10000)%Z then
    [Z.lor 0xE0 (Z.shiftr cp 12);
     Z.lor 0x80 (Z.land (Z.shiftr cp 6) 0x3F);
     Z.lor 0x80 (Z.land cp 0x3F)]
  else
    [Z.lor 0xF0 (Z.shiftr cp 18);
     Z.lor 0x80 (Z.land (Z.shiftr cp 12) 0x3F);
     Z.lor 0x80 (Z.land (Z.shiftr cp 6) 0x3F);
     Z.lor 0x80 (Z.land cp 0x3F)].

Definition utf8 (s : jsstring) : list Z := flat_map utf8OfCodePoint (codePoints s).

Definition w32 (x : Z) : Z := (x mod 0x100000000)%Z.
Definition add32 (x y : Z) : Z := w32 (x + y).
Definition rotr (n x : Z) : Z := Z.lor (Z.shiftr x n) (w32 (Z.shiftl x (32 - n))).
Definition xor3 (x y z : Z) : Z := Z.lxor (Z.lxor x y) z.

Definition Ch (x y z : Z) : Z := Z.lxor (Z.land x y) (Z.land (Z.lxor x 0xFFFFFFFF) z).
Definition Maj (x y z : Z) : Z := xor3 (Z.land x y) (Z.land x z) (Z.land y z).
Definition bigSigma0 (x : Z) : Z := xor3 (rotr 2 x) (rotr 13 x) (rotr 22 x).
Definition bigSigma1 (x : Z) : Z := xor3 (rotr 6 x) (rotr 11 x) (rotr 25 x).
Definition smallSigma0 (x : Z) : Z := xor3 (rotr 7 x) (rotr 18 x) (Z.shiftr x 3).
Definition smallSigma1 (x : Z) : Z := xor3 (rotr 17 x) (rotr 19 x) (Z.shiftr x 10).

(** The round constants are the first 32 bits of the fractional parts of
    the cube roots of the first 64 primes, the initial hash value those of
    the square roots of the first 8 primes. *)
Definition isPrime (n : Z) : bool :=
  forallb (fun d => negb (n mod d =? 0)%Z) (map Z.of_nat (seq 2 (Z.to_nat n - 2))).

Definition primes (count : nat) : list Z :=
  firstn count (filter isPrime (map Z.of_nat (seq 2 310))).

(** The largest [x] below [2^bits] with [x^3 <= n], bit by bit. *)
Fixpoint cubeRoot (bits : nat) (n x : Z) : Z :=
  match bits with
  | O => x
  | S b =>
      let y := (x + 2 ^ Z.of_nat b)%Z in
      cubeRoot b n (if (y * y * y <=? n)%Z then y else x)
  end.

Definition K : list Z :=
  map (fun p => w32 (cubeRoot 35 (p * 2 ^ 96) 0)) (primes 64).

Definition H0 : list Z :=
  map (fun p => w32 (Z.sqrt (p * 2 ^ 64))) (primes 8).

(** Big-endian bytes of [x], [n] of them. *)
Fixpoint bigEndian (n : nat) (x : Z) : list Z :=
  match n with
  | O => []
  | S m => Z.land (Z.shiftr x (8 * Z.of_nat m)) 0xFF :: bigEndian m x
  end.

Definition pad (msg : list Z) : list Z :=
  let len := Z.of_nat (length msg) in
  let zeros := Z.to_nat ((55 - len) mod 64) in
  msg ++ [0x80%Z] ++ repeat 0%Z zeros ++ bigEndian 8 (8 * len).

Fixpoint wordsOf (fuel : nat) (bytes : list Z) : list Z :=
  match fuel, bytes with
  | S f, a :: b :: c :: d :: r =>
      (((a * 256 + b) * 256 + c) * 256 + d)%Z :: wordsOf f r
  | _, _ => []
  end.

Fixpoint blocksOf (fuel : nat) (ws : list Z) : list (list Z) :=
  match fuel, ws with
  | O, _ => []
  | _, [] => []
  | S f, _ => firstn 16 ws :: blocksOf f (skipn 16 ws)
  end.

(** W_0..W_63 of one block. *)
Fixpoint schedule (n : nat) (w : list Z) : list Z :=
  match n with
  | O => w
  | S m =>
      let t := length w in
      let at_ (k : nat) := nth (t - k) w 0%Z in
      schedule m
        (w ++ [add32 (add32 (smallSigma1 (at_ 2%nat)) (at_ 7%nat))
                     (add32 (smallSigma0 (at_ 15%nat)) (at_ 16%nat))])
  end.

Definition round (st : list Z) (kw : Z * Z) : list Z :=
  match st with
  | [a; b; c; d; e; f; g; h] =>
      let t1 := add32 (add32 (add32 h (bigSigma1 e)) (add32 (Ch e f g) (fst kw))) (snd kw) in
      let t2 := add32 (bigSigma0 a) (Maj a b c) in
      [add32 t1 t2; a; b; c; add32 d t1; e; f; g]
  | _ => st
  end.

Definition compress (h : list Z) (block : list Z) : list Z :=
  let w := schedule 48 block in
  map (fun p => add32 (fst p) (snd p)) (combine h (fold_left round (combine K w) h)).

Definition digest (msg : list Z) : list Z :=
  let ws := wordsOf (length (pad msg)) (pad msg) in
  fold_left compress (blocksOf (length ws) ws) H0.

Definition hexDigit (n : Z) : Z := if (n <? 10)%Z then (48 + n)%Z else (87 + n)%Z.

Definition hexOfWord (x : Z) : jsstring :=
  flat_map (fun b => [hexDigit (Z.shiftr b 4); hexDigit (Z.land b 0xF)]) (bigEndian 4 x).

(** [createHash('sha256').update(s).digest('hex')] *)
Definition sha256Hex (s : jsstring) : jsstring := flat_map hexOfWord (digest (utf8 s)).

End Sha256.

(* ------------------------------------------------------------------ *)
(** ** utils/hash.ts *)

Section Hash.

(** [String.prototype.toLowerCase], the full Unicode case mapping of the
    JavaScript engine. *)
Variable toLowerCase : jsstring -> jsstring.

(** [substring(0, 16)] of the hex digest of the trimmed, lower-cased text. *)
Definition createContentHash (content : jsstring) : jsstring :=
  firstn 16 (Sha256.sha256Hex (toLowerCase (trim content))).

End Hash.

(* ------------------------------------------------------------------ *)
(** ** services/detection-engine.ts *)

Module SpamDetectionEngine.

Section Engine.

Variable toLowerCase : jsstring -> jsstring.

(** The engine's state: the rule list; [config] is the constant
    [DEFAULT_DETECTION_CONFIG], of which only the thresholds are read. *)
Definition thresholds : Thresholds := DETECTION_THRESHOLDS.

Definition getEnabledRules (rules : list DetectionRule) : list DetectionRule :=
  filter (fun rule => enabled rule) rules.

(** [try { return await rule.execute(content) } catch { return null }] *)
Definition executeRuleSafely (rule : DetectionRule) (content : jsstring)
  : option SpamIndicator :=
  tryCatch (execute rule content) (fun _ => None).

(** [indicators.reduce((sum, ind) => sum + ind.confidence, 0)] *)
Definition sumOfConfidences (indicators : list SpamIndicator) : Q :=
  fold_left (fun sum ind => fadd sum (fl (confidence ind))) indicators 0.

Definition calculateConfidence (indicators : list SpamIndicator) (overallScore : Q) : Q :=
  match indicators with
  | [] => 1
  | _ =>
      let count := inject_Z (Z.of_nat (length indicators)) in
      let indicatorFactor := Qmin (fdiv count 3) 1 in
      let scoreFactor :=
        if Qltb overallScore (fl (2 # 10)) || Qltb (fl (8 # 10)) overallScore
        then 1 else fl (7 # 10) in
      let avgIndicatorConfidence := fdiv (sumOfConfidences indicators) count in
      Qmin (fmul (fmul indicatorFactor scoreFactor) avgIndicatorConfidence) 1
  end.

Definition getDecisionFromScore (score : Q) : DetectionDecision :=
  if Qle_bool score (th_allow thresholds) then allow
  else if Qle_bool score (th_flag thresholds) then flag
  else if Qle_bool score (th_underReview thresholds) then under_review
  else reject.

(** The [for] loop of [calculateFinalDecision]: the pair
    [(totalScore, totalWeight)] after all indicators. The two fields of an
    indicator hold doubles: [fl] takes a field given in decimal to the
    double it stands for and leaves a double as it is. *)
Definition accumulate (indicators : list SpamIndicator) : Q * Q :=
  fold_left
    (fun acc indicator =>
       (fadd (fst acc) (fmul (fl (confidence indicator)) (fl (weight indicator))),
        fadd (snd acc) (fl (weight indicator))))
    indicators (0, 0).

Definition calculateFinalDecision (indicators : list SpamIndicator)
    (contentHash : jsstring) (processingTime : Q) : DetectionResult :=
  let totalScore := fst (accumulate indicators) in
  let totalWeight := snd (accumulate indicators) in
  let overallScore := if Qltb 0 totalWeight then fdiv totalScore totalWeight else 0 in
  let confidence := calculateConfidence indicators overallScore in
  let decision := getDecisionFromScore overallScore in
  {| decision := decision;
     overallScore := overallScore;
     resultConfidence := confidence;
     indicators := indicators;
     processingTime := processingTime;
     contentHash := contentHash |}.

Definition createEmptyResult (contentHash : jsstring) (processingTime : Q) : DetectionResult :=
  {| decision := allow;
     overallScore := 0;
     resultConfidence := 1;
     indicators := [];
     processingTime := processingTime;
     contentHash := contentHash |}.

Definition createErrorResult (contentHash : jsstring) (processingTime : Q) : DetectionResult :=
  {| decision := under_review;
     overallScore := 5 # 10;
     resultConfidence := 1 # 10;
     indicators := [];
     processingTime := processingTime;
     contentHash := contentHash |}.

(** [ruleResults.filter(result => result !== null)] *)
Fixpoint collectIndicators (ruleResults : list (option SpamIndicator)) : list SpamIndicator :=
  match ruleResults with
  | [] => []
  | Some indicator :: rest => indicator :: collectIndicators rest
  | None :: rest => collectIndicators rest
  end.

(** [analyzeContent]; [elapsed] is the reading of [timer.elapsed()] on the
    path taken. *)
Definition analyzeContent (rules : list DetectionRule) (content : jsstring) (elapsed : Q)
  : DetectionResult :=
  let contentHash := createContentHash toLowerCase content in
  if isBlank content then createEmptyResult contentHash elapsed
  else
    tryCatch
      (let enabledRules := getEnabledRules rules in
       let ruleResults := map (fun rule => executeRuleSafely rule content) enabledRules in
       let indicators := collectIndicators ruleResults in
       Returned (calculateFinalDecision indicators contentHash elapsed))
      (fun _ => createErrorResult contentHash elapsed).

End Engine.

End SpamDetectionEngine.

(* ------------------------------------------------------------------ *)
(** ** types/cache.ts and cache/memory-cache.ts *)

Module MemoryCache.

Local Open Scope Z_scope.

(** A time-to-live: a whole number of milliseconds, or [Infinity], the
    one number that is neither zero nor ever passed by the clock. (Of the
    other numbers, [NaN] is falsy like 0 and [-Infinity] is passed at
    once like a negative number.) *)
Inductive Duration :=
| Millis (ms : Z)
| Infinity.

Record CacheEntry := {
  value : DetectionResult;
  timestamp : Z;
  hits : Z;
  ttl : option Duration
}.

(** The JavaScript [Map]: keys are unique and keep their insertion order. *)
Definition EntryMap := list (jsstring * CacheEntry).

Fixpoint mapGet (key : jsstring) (m : EntryMap) : option CacheEntry :=
  match m with
  | [] => None
  | (k, e) :: rest => if eqb k key then Some e else mapGet key rest
  end.

(** [Map.prototype.set]: a present key keeps its place. *)
Fixpoint mapSet (key : jsstring) (entry : CacheEntry) (m : EntryMap) : EntryMap :=
  match m with
  | [] => [(key, entry)]
  | (k, e) :: rest =>
      if eqb k key then (k, entry) :: rest else (k, e) :: mapSet key entry rest
  end.

Fixpoint mapDelete (key : jsstring) (m : EntryMap) : EntryMap :=
  match m with
  | [] => []
  | (k, e) :: rest => if eqb k key then rest else (k, e) :: mapDelete key rest
  end.

Definition mapSize (m : EntryMap) : Z := Z.of_nat (length m).

(** The fields of the class. An operation takes each reading of
    [Date.now()] that it makes as an argument: one for [get], [has] and
    [cleanup], two for [set]. *)
Record t := {
  cache : EntryMap;
  cacheHits : Z;
  misses : Z;
  maxEntries : Z;
  defaultTtl : Duration
}.

(** [new MemoryCache(maxEntries = 10000, defaultTtlMs = 60 * 60 * 1000)] *)
Definition create (maxEntries : option Z) (defaultTtlMs : option Duration) : t :=
  {| cache := [];
     cacheHits := 0;
     misses := 0;
     maxEntries := match maxEntries with Some n => n | None => 10000 end;
     defaultTtl :=
       match defaultTtlMs with Some d => d | None => Millis (60 * 60 * 1000) end |}.

Definition withCache (c : t) (m : EntryMap) : t :=
  {| cache := m; cacheHits := cacheHits c; misses := misses c;
     maxEntries := maxEntries c; defaultTtl := defaultTtl c |}.

(** [entry.ttl && Date.now() > entry.timestamp + entry.ttl] *)
Definition isExpired (now : Z) (entry : CacheEntry) : bool :=
  match ttl entry with
  | None => false
  | Some Infinity => false
  | Some (Millis ttl) => negb (ttl =? 0)%Z && (timestamp entry + ttl <? now)%Z
  end.

Definition withHits (entry : CacheEntry) (n : Z) : CacheEntry :=
  {| value := value entry; timestamp := timestamp entry; hits := n; ttl := ttl entry |}.

Definition get (now : Z) (contentHash : jsstring) (c : t) : option DetectionResult * t :=
  match mapGet contentHash (cache c) with
  | None =>
      (None,
       {| cache := cache c; cacheHits := cacheHits c; misses := misses c + 1;
          maxEntries := maxEntries c; defaultTtl := defaultTtl c |})
  | Some entry =>
      if isExpired now entry then
        (None,
         {| cache := mapDelete contentHash (cache c);
            cacheHits := cacheHits c; misses := misses c + 1;
            maxEntries := maxEntries c; defaultTtl := defaultTtl c |})
      else
        (Some (value entry),
         {| cache := mapSet contentHash (withHits entry (hits entry + 1)) (cache c);
            cacheHits := cacheHits c + 1; misses := misses c;
            maxEntries := maxEntries c; defaultTtl := defaultTtl c |})
  end.

(** [ageHours = (now - entry.timestamp) / (1000 * 60 * 60)] and
    [entry.hits / Math.max(ageHours, 0.1)], as doubles; the subtraction of
    two clock readings is exact. *)
Definition score (now : Z) (entry : CacheEntry) : Q :=
  let ageHours := fdiv (inject_Z (now - timestamp entry)) (inject_Z (1000 * 60 * 60)) in
  fdiv (inject_Z (hits entry)) (Qmax ageHours (fl (1 # 10))).

(** One turn of the loop of [evictLeastRecentlyUsed] on the pair
    [(lruKey, lowestScore)]; [None] is [null], respectively [Infinity]. *)
Definition evictStep (now : Z) (acc : option jsstring * option Q)
    (ke : jsstring * CacheEntry) : option jsstring * option Q :=
  let score := score now (snd ke) in
  let lower :=
    match snd acc with
    | None => true
    | Some lowestScore => Qltb score lowestScore
    end in
  if lower then (Some (fst ke), Some score) else acc.

Definition evictLeastRecentlyUsed (now : Z) (m : EntryMap) : EntryMap :=
  if (mapSize m =? 0)%Z then m
  else
    match fst (fold_left (evictStep now) m (None, None)) with
    | Some (c :: lruKey) => mapDelete (c :: lruKey) m
    | _ => m
    end.

(** [ttl || this.defaultTtl]; an omitted argument is [None]. Of the
    numbers only [0] is falsy here; [Infinity] is kept. *)
Definition ttlOrDefault (ttl : option Duration) (defaultTtl : Duration) : Duration :=
  match ttl with
  | Some (Millis n) => if (n =? 0)%Z then defaultTtl else Millis n
  | Some Infinity => Infinity
  | None => defaultTtl
  end.

(** [set] reads the clock twice: [evictNow] inside
    [evictLeastRecentlyUsed], when the cache is at capacity, and then [now]
    for the timestamp of the new entry. *)
Definition set (evictNow now : Z) (contentHash : jsstring) (result : DetectionResult)
    (ttl : option Duration) (c : t) : t :=
  let m :=
    if (maxEntries c <=? mapSize (cache c))%Z
    then evictLeastRecentlyUsed evictNow (cache c)
    else cache c in
  let entry :=
    {| value := result;
       timestamp := now;
       hits := 0;
       ttl := Some (ttlOrDefault ttl (defaultTtl c)) |} in
  withCache c (mapSet contentHash entry m).

Definition has (now : Z) (contentHash : jsstring) (c : t) : bool * t :=
  match mapGet contentHash (cache c) with
  | None => (false, c)
  | Some entry =>
      if isExpired now entry
      then (false, withCache c (mapDelete contentHash (cache c)))
      else (true, c)
  end.

Definition delete (contentHash : jsstring) (c : t) : bool * t :=
  (match mapGet contentHash (cache c) with Some _ => true | None => false end,
   withCache c (mapDelete contentHash (cache c))).

Definition clear (c : t) : t :=
  {| cache := []; cacheHits := 0; misses := 0;
     maxEntries := maxEntries c; defaultTtl := defaultTtl c |}.

(** The loop of [cleanup]: entries are visited in map order and an expired
    one is deleted on the spot. *)
Fixpoint cleanupLoop (now : Z) (m : EntryMap) : Z * EntryMap :=
  match m with
  | [] => (0, [])
  | (key, entry) :: rest =>
      let r := cleanupLoop now rest in
      if isExpired now entry then (fst r + 1, snd r) else (fst r, (key, entry) :: snd r)
  end.

Definition cleanup (now : Z) (c : t) : Z * t :=
  let r := cleanupLoop now (cache c) in
  (fst r, withCache c (snd r)).

Definition getSize (c : t) : Z := mapSize (cache c).

End MemoryCache.

(* ------------------------------------------------------------------ *)
(** ** Regular expressions of the sources

    A backtracking matcher with the priorities of ECMAScript: alternatives
    left to right, greedy repetition, and an iteration of [*] that consumes
    nothing is rejected. Matching is per code unit (no [u] flag). *)

Module RegExp.

Inductive regex :=
| Eps
| Chr (p : Z -> bool)
| Seq (a b : regex)
| Alt (a b : regex)
| Star (a : regex)
| WordBoundary
| EndOfInput.

Definition Plus (a : regex) : regex := Seq a (Star a).
Definition Opt (a : regex) : regex := Alt a Eps.

(** [a{n,}] *)
Fixpoint AtLeast (n : nat) (a : regex) : regex :=
  match n with
  | O => Star a
  | S m => Seq a (AtLeast m a)
  end.

Fixpoint seq (rs : list regex) : regex :=
  match rs with
  | [] => Eps
  | [r] => r
  | r :: rest => Seq r (seq rest)
  end.

Fixpoint alt (rs : list regex) : regex :=
  match rs with
  | [] => Chr (fun _ => false)
  | [r] => r
  | r :: rest => Alt r (alt rest)
  end.

Definition ch (s : string) : regex := Chr (oneOf (js s)).
Definition lit (s : string) : regex := seq (map (fun c => Chr (Z.eqb c)) (js s)).

(** A literal under the [i] flag: an ASCII letter matches in both cases. *)
Definition sameLetter (c d : Z) : bool :=
  (c =? d)%Z || (isLetter c && isLetter d && (Z.lor c 32 =? Z.lor d 32)%Z).
Definition litI (s : string) : regex := seq (map (fun c => Chr (sameLetter c)) (js s)).

Definition digit : regex := Chr isDigit.
Definition word : regex := Chr isWordChar.
Definition space : regex := Chr isWhiteSpace.
Definition notSpace : regex := Chr (fun c => negb (isWhiteSpace c)).
Definition dot : regex := Chr (fun c => negb (isLineTerminator c)).

Definition isWordAt (c : option Z) : bool :=
  match c with
  | Some c => isWordChar c
  | None => false
  end.

(** [run r prev s k]: match [r] at the head of [s], [prev] being the code
    unit before it, then continue with [k]; the result is the input left
    after the whole match. An iteration of [Star] must consume input, so
    the length of [s] bounds their number. *)
Fixpoint run (r : regex) (prev : option Z) (s : jsstring)
    (k : option Z -> jsstring -> option jsstring) {struct r} : option jsstring :=
  match r with
  | Eps => k prev s
  | Chr p =>
      match s with
      | c :: s' => if p c then k (Some c) s' else None
      | [] => None
      end
  | Seq a b => run a prev s (fun prev' s' => run b prev' s' k)
  | Alt a b =>
      match run a prev s k with
      | Some rest => Some rest
      | None => run b prev s k
      end
  | Star a =>
      (fix loop (fuel : nat) (prev : option Z) (s : jsstring) {struct fuel}
         : option jsstring :=
         match fuel with
         | O => k prev s
         | S fuel' =>
             match run a prev s
                     (fun prev' s' =>
                        if (length s' <? length s)%nat then loop fuel' prev' s' else None)
             with
             | Some rest => Some rest
             | None => k prev s
             end
         end) (length s) prev s
  | WordBoundary =>
      if xorb (isWordAt prev) (isWordAt (hd_error s)) then k prev s else None
  | EndOfInput =>
      match s with
      | [] => k prev s
      | _ => None
      end
  end.

Definition matchAt (r : regex) (prev : option Z) (s : jsstring) : option jsstring :=
  run r prev s (fun _ rest => Some rest).

Definition matched (s rest : jsstring) : jsstring := firstn (length s - length rest) s.

(** [regex.test(s)] *)
Fixpoint testFrom (r : regex) (prev : option Z) (s : jsstring) : bool :=
  match matchAt r prev s with
  | Some _ => true
  | None =>
      match s with
      | [] => false
      | c :: s' => testFrom r (Some c) s'
      end
  end.

Definition test (r : regex) (s : jsstring) : bool := testFrom r None s.

(** [s.match(regex) || []] with the [g] flag: the matches from left to
    right; after an empty match the search moves on by one. *)
Fixpoint matchAllFrom (r : regex) (skip : nat) (prev : option Z) (s : jsstring)
  : list jsstring :=
  match skip with
  | S n =>
      match s with
      | [] => []
      | c :: s' => matchAllFrom r n (Some c) s'
      end
  | O =>
      match matchAt r prev s with
      | Some rest =>
          let m := matched s rest in
          m :: match s with
               | [] => []
               | c :: s' => matchAllFrom r (length m - 1) (Some c) s'
               end
      | None =>
          match s with
          | [] => []
          | c :: s' => matchAllFrom r 0 (Some c) s'
          end
      end
  end.

Definition matchAll (r : regex) (s : jsstring) : list jsstring := matchAllFrom r 0 None s.

Definition countMatches (r : regex) (s : jsstring) : Z := Z.of_nat (length (matchAll r s)).

(** [s.replace(regex, f)] with the [g] flag, [f] receiving the match. *)
Fixpoint replaceFrom (r : regex) (f : jsstring -> jsstring) (skip : nat)
    (prev : option Z) (s : jsstring) : jsstring :=
  match skip with
  | S n =>
      match s with
      | [] => []
      | c :: s' => replaceFrom r f n (Some c) s'
      end
  | O =>
      match matchAt r prev s with
      | Some rest =>
          let m := matched s rest in
          f m ++ match s with
                 | [] => []
                 | c :: s' =>
                     (match m with [] => [c] | _ => [] end)
                     ++ replaceFrom r f (length m - 1) (Some c) s'
                 end
      | None =>
          match s with
          | [] => []
          | c :: s' => c :: replaceFrom r f 0 (Some c) s'
          end
      end
  end.

Definition replaceWith (r : regex) (f : jsstring -> jsstring) (s : jsstring) : jsstring :=
  replaceFrom r f 0 None s.

(** [s.replace(regex, replacement)] with the [g] flag, for a replacement
    text without [$]. *)
Definition replaceAll (r : regex) (replacement : string) (s : jsstring) : jsstring :=
  replaceWith r (fun _ => js replacement) s.

(** [s.split(regex)]; [cur] is the piece being read, reversed. *)
Fixpoint splitFrom (r : regex) (skip : nat) (prev : option Z) (cur : jsstring)
    (s : jsstring) : list jsstring :=
  match s with
  | [] => [rev cur]
  | c :: s' =>
      match skip with
      | S n => splitFrom r n (Some c) cur s'
      | O =>
          match matchAt r prev s with
          | Some rest =>
              match matched s rest, cur with
              | [], [] => splitFrom r 0 (Some c) [c] s'
              | [], _ => rev cur :: splitFrom r 0 (Some c) [c] s'
              | m, _ => rev cur :: splitFrom r (length m - 1) (Some c) [] s'
              end
          | None => splitFrom r 0 (Some c) (c :: cur) s'
          end
      end
  end.

Definition split (r : regex) (s : jsstring) : list jsstring :=
  match s with
  | [] =>
      match matchAt r None [] with
      | Some _ => []
      | None => [[]]
      end
  | _ => splitFrom r 0 None [] s
  end.

Fixpoint isPrefix (p s : jsstring) : bool :=
  match p, s with
  | [], _ => true
  | a :: p', b :: s' => (a =? b)%Z && isPrefix p' s'
  | _ :: _, [] => false
  end.

(** [GetSubstitution] for a string pattern (no captures): [$$], [$&],
    [$`] and [$'] are expanded, any other [$] stays. *)
Fixpoint getSubstitution (matched before after template : jsstring) : jsstring :=
  match template with
  | [] => []
  | c :: r =>
      if (c =? 36)%Z then
        match r with
        | d :: r' =>
            if (d =? 36)%Z then 36%Z :: getSubstitution matched before after r'
            else if (d =? 38)%Z then matched ++ getSubstitution matched before after r'
            else if (d =? 96)%Z then before ++ getSubstitution matched before after r'
            else if (d =? 39)%Z then after ++ getSubstitution matched before after r'
            else c :: getSubstitution matched before after r
        | [] => [c]
        end
      else c :: getSubstitution matched before after r
  end.

(** [s.replace(pattern, replacement)] for a string pattern: the first
    occurrence only; [before] is the text already passed, reversed. *)
Fixpoint replaceStringFrom (pattern replacement : jsstring) (before : jsstring)
    (s : jsstring) : jsstring :=
  if isPrefix pattern s then
    rev before
    ++ getSubstitution pattern (rev before) (skipn (length pattern) s) replacement
    ++ skipn (length pattern) s
  else
    match s with
    | [] => rev before
    | c :: s' => replaceStringFrom pattern replacement (c :: before) s'
    end.

Definition replaceString (pattern replacement s : jsstring) : jsstring :=
  replaceStringFrom pattern replacement [] s.

End RegExp.

(* ------------------------------------------------------------------ *)
(** ** services/optimizations/content-preprocessor.ts *)

Module ContentPreprocessor.

Import RegExp.

Record Metadata := {
  hasEmojis : bool;
  hasUrls : bool;
  hasHashtags : bool;
  hasMentions : bool;
  wordCount : Z;
  characterCount : Z;
  language : jsstring;
  encoding : jsstring
}.

Record PreprocessedContent := {
  original : jsstring;
  normalized : jsstring;
  metadata : Metadata
}.

Definition uni (c : Z) : regex := Chr (Z.eqb c).

Definition fixEncoding (content : jsstring) : jsstring :=
  let s := replaceAll (lit "&lt;") "<" content in
  let s := replaceAll (lit "&gt;") ">" s in
  let s := replaceAll (lit "&amp;") "&" s in
  let s := replaceWith (lit "&quot;") (fun _ => [34%Z]) s in
  let s := replaceAll (lit "&#39;") "'" s in
  let s := replaceAll (uni 0x00A0) " " s in
  let s := replaceAll (uni 0x2019) "'" s in
  let s := replaceWith (uni 0x201C) (fun _ => [34%Z]) s in
  let s := replaceWith (uni 0x201D) (fun _ => [34%Z]) s in
  let s := replaceAll (uni 0x2013) "-" s in
  let s := replaceAll (uni 0x2014) "--" s in
  replaceAll (uni 0x2026) "..." s.

(** [/[\u200B\u200C\u200D\u2060\uFEFF]/] *)
Definition zeroWidthChars : regex := Chr (oneOf [0x200B; 0x200C; 0x200D; 0x2060; 0xFEFF]%Z).

(** [/\b(f|F)r[3e]{2,}/], [/\b(m|M)[0o]n[3e]y/], [/\b(w|W)[1i]n/], [/\$\d+/],
    [/\b\d{3,}-?\d{3,}-?\d{4,}\b/], [/[A-Z]{3,}.*[!]{2,}/] *)
Definition suspiciousPatterns : list regex :=
  [ seq [WordBoundary; Alt (ch "f") (ch "F"); ch "r"; AtLeast 2 (ch "3e")];
    seq [WordBoundary; Alt (ch "m") (ch "M"); ch "0o"; ch "n"; ch "3e"; ch "y"];
    seq [WordBoundary; Alt (ch "w") (ch "W"); ch "1i"; ch "n"];
    seq [ch "$"; Plus digit];
    seq [WordBoundary; AtLeast 3 digit; Opt (ch "-"); AtLeast 3 digit; Opt (ch "-");
         AtLeast 4 digit; WordBoundary];
    seq [AtLeast 3 (Chr isUpper); Star dot; AtLeast 2 (ch "!")] ].

Definition hasSuspiciousPatterns (content : jsstring) : bool :=
  existsb (fun pattern => test pattern content) suspiciousPatterns.

(** [Object.entries(substitutions)], each key compiled by
    [new RegExp(key, 'gi')]: the integer-like keys come first in
    ascending order, then the others as written; the key [$] compiles to the
    end-of-input assertion. *)
Definition substitutions : list (regex * string) :=
  [ (ch "0", "o"); (ch "1", "i"); (ch "3", "e"); (ch "4", "a"); (ch "5", "s");
    (ch "7", "t"); (ch "8", "b"); (ch "@", "a"); (EndOfInput, "s"); (ch "!", "i") ]%string.

(** [/\b[A-Za-z]*[A-Z][a-z]+[A-Z][A-Za-z]*\b/] *)
Definition mixedCaseWord : regex :=
  seq [WordBoundary; Star (Chr isLetter); Chr isUpper; Plus (Chr isLower);
       Chr isUpper; Star (Chr isLetter); WordBoundary].

Definition handleObfuscation (content : jsstring) : jsstring :=
  let result := content in
  let result :=
    if hasSuspiciousPatterns content
    then fold_left (fun result sub => replaceAll (fst sub) (snd sub) result)
           substitutions result
    else result in
  let result := replaceAll (AtLeast 3 space) " " result in
  if hasSuspiciousPatterns result
  then replaceWith mixedCaseWord asciiLower result
  else result.

(** [/https?:\/\/[^\s]+/i] *)
Definition urlRegex : regex := seq [litI "http"; Opt (litI "s"); lit "://"; Plus notSpace].

(** [`__URL_${index}__`] *)
Definition placeholder (index : nat) : jsstring :=
  js "__URL_" ++ decimal (Z.of_nat index) ++ js "__".

(** [/([.!?])\1{2,}/]: the back-reference is the captured character, so
    the pattern is the union over the three characters. *)
Definition repeatedPunctuation : regex :=
  alt (map (fun c => Seq (ch c) (AtLeast 2 (ch c))) ["."; "!"; "?"]%string).

(** [urls.forEach((url, index) => ...)] *)
Fixpoint forEachIndexed {A} (f : jsstring -> nat -> A -> A) (urls : list jsstring)
    (index : nat) (acc : A) : A :=
  match urls with
  | [] => acc
  | url :: rest => forEachIndexed f rest (S index) (f url index acc)
  end.

Definition smartNormalization (content : jsstring) : jsstring :=
  let urls := matchAll urlRegex content in
  let result :=
    forEachIndexed (fun url index result => replaceString url (placeholder index) result)
      urls 0%nat content in
  let result := trim result in
  let result := replaceAll (Plus space) " " result in
  let result :=
    replaceWith repeatedPunctuation
      (fun m => match m with c :: _ => [c; c; c] | [] => [] end) result in
  forEachIndexed (fun url index result => replaceString (placeholder index) url result)
    urls 0%nat result.

Definition emojiRanges : list (Z * Z) :=
  [ (0x1F600, 0x1F64F); (0x1F300, 0x1F5FF); (0x1F680, 0x1F6FF); (0x1F700, 0x1F77F);
    (0x1F780, 0x1F7FF); (0x1F800, 0x1F8FF); (0x2600, 0x26FF); (0x2700, 0x27BF) ]%Z.

(** The emoji test carries the [u] flag: it reads code points. *)
Definition testEmoji (s : jsstring) : bool :=
  existsb (fun cp => existsb (fun r => inRange (fst r) (snd r) cp) emojiRanges)
    (codePoints s).

(** [/\b(the|and|is|in|to|of|a|that|it|with|for|as|was|on|are|you)\b/gi] *)
Definition englishWords : regex :=
  seq [ WordBoundary;
        alt (map litI ["the"; "and"; "is"; "in"; "to"; "of"; "a"; "that"; "it"; "with";
                       "for"; "as"; "was"; "on"; "are"; "you"]%string);
        WordBoundary ].

Definition detectBasicLanguage (content : jsstring) : jsstring :=
  let englishMatches := countMatches englishWords content in
  if (2 <? englishMatches)%Z then js "en" else js "unknown".

Definition generateMetadata (original normalized : jsstring) : Metadata :=
  let words :=
    filter (fun word => (0 <? length word)%nat) (split (Plus space) (trim normalized)) in
  {| hasEmojis := testEmoji original;
     hasUrls := test urlRegex original;
     hasHashtags := test (Seq (ch "#") (Plus word)) original;
     hasMentions := test (Seq (ch "@") (Plus word)) original;
     wordCount := Z.of_nat (length words);
     characterCount := Z.of_nat (length normalized);
     language := detectBasicLanguage normalized;
     encoding := js "utf-8" |}.

Section Preprocess.

(** [String.prototype.normalize('NFC')] of the JavaScript engine. *)
Variable normalizeNFC : jsstring -> jsstring.

Definition normalizeUnicode (content : jsstring) : jsstring :=
  let normalized := normalizeNFC content in
  replaceAll (uni 0x00AD) "" (replaceAll zeroWidthChars "" normalized).

Definition preprocess (content : jsstring) : Outcome PreprocessedContent :=
  match content with
  | [] => Threw (js "Content must be a non-empty string")
  | _ =>
      let original := content in
      let normalized := fixEncoding content in
      let normalized := normalizeUnicode normalized in
      let normalized := handleObfuscation normalized in
      let normalized := smartNormalization normalized in
      let metadata := generateMetadata original normalized in
      Returned {| original := original; normalized := normalized; metadata := metadata |}
  end.

End Preprocess.

End ContentPreprocessor.

(* ------------------------------------------------------------------ *)
(** ** services/optimizations/edge-case-handler.ts *)

Module EdgeCaseHandler.

Import RegExp ContentPreprocessor.

Inductive RecommendedAction := act_allow | act_flag | act_reject | manual_review.

Record EdgeCaseResult := {
  handled : bool;
  reason : jsstring;
  result : option DetectionResult;
  recommendedAction : RecommendedAction
}.

Definition notHandled : EdgeCaseResult :=
  {| handled := false; reason := js ""; result := None; recommendedAction := act_allow |}.

Section Handler.

(** The reading of [Date.now()] when the verdict is built. *)
Variable now : Z.

Definition createSpecialResult (content : jsstring) (decision : DetectionDecision)
    (reason : jsstring) (indicators : list SpamIndicator) : DetectionResult :=
  {| decision := decision;
     overallScore :=
       match decision with
       | reject => 9 # 10
       | flag => 5 # 10
       | _ => 3 # 10
       end;
     resultConfidence := 8 # 10;
     indicators := indicators;
     processingTime := 1;
     contentHash := js "edge_case_" ++ decimal now |}.

Definition createEmptyContentResult (content : jsstring) : DetectionResult :=
  createSpecialResult content reject (js "Empty or meaningless content") [].

Definition createShortContentResult (content : jsstring) : DetectionResult :=
  createSpecialResult content flag (js "Extremely short content") [].

Definition createLongContentResult (content : jsstring) : DetectionResult :=
  createSpecialResult content flag (js "Content exceeds length limits") [].

Definition createEncodingResult (content : jsstring) : DetectionResult :=
  createSpecialResult content under_review (js "Encoding issues detected") [].

Definition createObfuscationResult (content : jsstring) (type : jsstring) : DetectionResult :=
  let indicator :=
    {| indicatorType := character_patterns;
       severity := high;
       confidence := 9 # 10;
       evidence := [js "Obfuscation detected: " ++ type];
       weight := 8 # 10 |} in
  createSpecialResult content reject (js "Obfuscation attempt") [indicator].

Definition createLanguageResult (content : jsstring) : DetectionResult :=
  createSpecialResult content flag (js "Language detection issues") [].

Definition createSpecialCharResult (content : jsstring) : DetectionResult :=
  createSpecialResult content flag (js "Excessive special characters") [].

Definition createContextualResult (content : jsstring) (type : jsstring) : DetectionResult :=
  createSpecialResult content flag (js "Contextual issue: " ++ type) [].

Definition createErrorResult (content : jsstring) (errorType : jsstring) : DetectionResult :=
  createSpecialResult content under_review (js "Processing error: " ++ errorType) [].

Definition handleEmptyContent (preprocessed : PreprocessedContent) : EdgeCaseResult :=
  if (Z.of_nat (length (trim (normalized preprocessed))) =? 0)%Z then
    {| handled := true;
       reason := js "Empty content after preprocessing";
       recommendedAction := act_reject;
       result := Some (createEmptyContentResult (original preprocessed)) |}
  else if (wordCount (metadata preprocessed) =? 0)%Z then
    {| handled := true;
       reason := js "No meaningful words found";
       recommendedAction := act_reject;
       result := Some (createEmptyContentResult (original preprocessed)) |}
  else notHandled.

Definition handleExtremeLength (preprocessed : PreprocessedContent) : EdgeCaseResult :=
  let characterCount := characterCount (metadata preprocessed) in
  let wordCount := wordCount (metadata preprocessed) in
  if (characterCount <? 3)%Z && (wordCount =? 1)%Z then
    {| handled := true;
       reason := js "Extremely short content";
       recommendedAction := act_flag;
       result := Some (createShortContentResult (original preprocessed)) |}
  else if (2000 <? characterCount)%Z then
    {| handled := true;
       reason := js "Content exceeds reasonable length";
       recommendedAction := act_flag;
       result := Some (createLongContentResult (original preprocessed)) |}
  else notHandled.

(** [/[\uFFFD\u0000-\u001F\u007F-\u009F]/g] *)
Definition unicodeIssues : regex :=
  Chr (fun c => (c =? 0xFFFD)%Z || inRange 0x0000 0x001F c || inRange 0x007F 0x009F c).

Definition handleEncodingIssues (preprocessed : PreprocessedContent) : EdgeCaseResult :=
  let original := original preprocessed in
  let normalized := normalized preprocessed in
  let originalLength := Z.of_nat (length original) in
  let normalizedLength := Z.of_nat (length normalized) in
  let reductionRatio := inject_Z (originalLength - normalizedLength) / inject_Z originalLength in
  if Qltb (5 # 10) reductionRatio && (20 <? originalLength)%Z then
    {| handled := true;
       reason := js "Significant character loss during preprocessing - possible encoding issues";
       recommendedAction := manual_review;
       result := Some (createEncodingResult original) |}
  else
    let issueCount := countMatches unicodeIssues original in
    if (5 <? issueCount)%Z then
      {| handled := true;
         reason := js "Multiple Unicode encoding issues detected";
         recommendedAction := manual_review;
         result := Some (createEncodingResult original) |}
    else notHandled.

(** The class of U+0430..U+044F under the [i] flag: the code units whose upper case lies in
    U+0410..U+042F (simple case mapping of Unicode 9 and later). *)
Definition cyrillic : regex :=
  Chr (fun c => inRange 0x0410 0x044F c || inRange 0x1C80 0x1C86 c).

(** [/[\u0430-\u044F].*[a-z]|[a-z].*[\u0430-\u044F]/i], the class written in the
    source with its Cyrillic letters. *)
Definition homographPattern : regex :=
  Alt (seq [cyrillic; Star dot; Chr isLetter]) (seq [Chr isLetter; Star dot; cyrillic]).

Definition handleObfuscation (preprocessed : PreprocessedContent) : EdgeCaseResult :=
  let original := original preprocessed in
  let zeroWidthCount := countMatches zeroWidthChars original in
  if (10 <? zeroWidthCount)%Z then
    {| handled := true;
       reason := js "Excessive zero-width characters detected (obfuscation attempt)";
       recommendedAction := act_reject;
       result := Some (createObfuscationResult original (js "zero_width_abuse")) |}
  else if test homographPattern original then
    {| handled := true;
       reason := js "Potential homograph attack detected";
       recommendedAction := act_flag;
       result := Some (createObfuscationResult original (js "homograph_attack")) |}
  else
    let symbolCount := countMatches (Chr (fun c => isDigit c || oneOf (js "@$!") c)) original in
    let letterCount := countMatches (Chr isLetter) original in
    if (0 <? letterCount)%Z && Qltb (3 # 10) (inject_Z symbolCount / inject_Z letterCount) then
      {| handled := true;
         reason := js "Excessive symbol substitution detected";
         recommendedAction := act_flag;
         result := Some (createObfuscationResult original (js "symbol_substitution")) |}
    else notHandled.

Definition handleNonEnglishContent (preprocessed : PreprocessedContent) : EdgeCaseResult :=
  let language := language (metadata preprocessed) in
  let wordCount := wordCount (metadata preprocessed) in
  if eqb language (js "unknown") && (5 <? wordCount)%Z && (wordCount <? 20)%Z then
    {| handled := true;
       reason := js "Unknown language with suspicious length";
       recommendedAction := act_flag;
       result := Some (createLanguageResult (original preprocessed)) |}
  else notHandled.

(** [/[^\w\s.,!?@#-]/g] *)
Definition specialCharPattern : regex :=
  Chr (fun c => negb (isWordChar c || isWhiteSpace c || oneOf (js ".,!?@#-") c)).

Definition handleSpecialCharacters (preprocessed : PreprocessedContent) : EdgeCaseResult :=
  let original := original preprocessed in
  let specialCharCount := countMatches specialCharPattern original in
  let totalCharCount := Z.of_nat (length original) in
  if (50 <? totalCharCount)%Z
     && Qltb (4 # 10) (inject_Z specialCharCount / inject_Z totalCharCount) then
    {| handled := true;
       reason := js "Excessive special characters detected";
       recommendedAction := act_flag;
       result := Some (createSpecialCharResult original) |}
  else notHandled.

Definition handleContextualEdgeCases (preprocessed : PreprocessedContent) : EdgeCaseResult :=
  let m := metadata preprocessed in
  if (hasUrls m || hasHashtags m) && (wordCount m <? 3)%Z then
    {| handled := true;
       reason := js "Minimal text with URLs/hashtags";
       recommendedAction := act_flag;
       result := Some (createContextualResult (original preprocessed) (js "link_spam")) |}
  else
    let mentionCount := countMatches (Seq (ch "@") (Plus word)) (original preprocessed) in
    if (5 <? mentionCount)%Z then
      {| handled := true;
         reason := js "Excessive mentions: " ++ decimal mentionCount;
         recommendedAction := act_flag;
         result := Some (createContextualResult (original preprocessed) (js "mention_spam")) |}
    else notHandled.

(** The body of [handleEdgeCase] after preprocessing: the handlers in
    their order, the first that reports [handled] being returned. *)
Definition classify (preprocessed : PreprocessedContent) : EdgeCaseResult :=
  let emptyContentResult := handleEmptyContent preprocessed in
  if handled emptyContentResult then emptyContentResult else
  let extremeLengthResult := handleExtremeLength preprocessed in
  if handled extremeLengthResult then extremeLengthResult else
  let encodingResult := handleEncodingIssues preprocessed in
  if handled encodingResult then encodingResult else
  let obfuscationResult := handleObfuscation preprocessed in
  if handled obfuscationResult then obfuscationResult else
  let languageResult := handleNonEnglishContent preprocessed in
  if handled languageResult then languageResult else
  let specialCharacterResult := handleSpecialCharacters preprocessed in
  if handled specialCharacterResult then specialCharacterResult else
  let contextualResult := handleContextualEdgeCases preprocessed in
  if handled contextualResult then contextualResult else
  {| handled := false;
     reason := js "No edge cases detected";
     result := None;
     recommendedAction := act_allow |}.

Variable normalizeNFC : jsstring -> jsstring.

Definition handleEdgeCase (content : jsstring) : EdgeCaseResult :=
  tryCatch
    (bindOutcome (preprocess normalizeNFC content)
       (fun preprocessed => Returned (classify preprocessed)))
    (fun message =>
       {| handled := true;
          reason := js "Preprocessing error: " ++ message;
          recommendedAction := manual_review;
          result := Some (createErrorResult content (js "preprocessing_error")) |}).

End Handler.

End EdgeCaseHandler.

(* ------------------------------------------------------------------ *)
(** ** services/spam-detection-service.ts *)

Module SpamDetectionService.

(** The service owns an engine (its rule list) and a cache. *)
Record t := {
  rules : list DetectionRule;
  cache : MemoryCache.t
}.

(** The clock as one call reads it: [Date.now()] inside [cache.get] and
    inside [cache.set] (for the eviction, then for the timestamp), and the
    engine's [timer.elapsed()]. *)
Record Clock := {
  atGet : Z;
  atEvict : Z;
  atSet : Z;
  engineElapsed : Q
}.

Section Service.

Variable toLowerCase : jsstring -> jsstring.

Definition analyzeContent (svc : t) (content : jsstring) (clk : Clock)
  : Outcome DetectionResult * t :=
  if isBlank content then (Threw (js "Content cannot be empty"), svc)
  else
    let contentHash := createContentHash toLowerCase content in
    let got := MemoryCache.get (atGet clk) contentHash (cache svc) in
    match fst got with
    | Some cachedResult =>
        (Returned (withProcessingTime cachedResult (1 # 10)),
         {| rules := rules svc; cache := snd got |})
    | None =>
        let result :=
          SpamDetectionEngine.analyzeContent toLowerCase (rules svc) content
            (engineElapsed clk) in
        (Returned result,
         {| rules := rules svc;
            cache :=
              MemoryCache.set (atEvict clk) (atSet clk) contentHash result None
                (snd got) |})
    end.

End Service.

End SpamDetectionService.

(* ------------------------------------------------------------------ *)
(** ** services/optimizations/performance-monitor.ts (the recorders) *)

Module PerformanceMonitor.

Record t := {
  processingTimes : list Q;
  requestCount : Z;
  errorCount : Z;
  cacheHits : Z;
  cacheMisses : Z
}.

Definition MAX_PROCESSING_TIMES : nat := 1000.

Definition create : t :=
  {| processingTimes := []; requestCount := 0; errorCount := 0;
     cacheHits := 0; cacheMisses := 0 |}.

Definition recordProcessingTime (timeMs : Q) (m : t) : t :=
  let times := processingTimes m ++ [timeMs] in
  {| processingTimes :=
       if (MAX_PROCESSING_TIMES <? length times)%nat
       then skipn (length times - MAX_PROCESSING_TIMES) times
       else times;
     requestCount := requestCount m + 1;
     errorCount := errorCount m;
     cacheHits := cacheHits m;
     cacheMisses := cacheMisses m |}.

Definition recordCacheHit (m : t) : t :=
  {| processingTimes := processingTimes m; requestCount := requestCount m;
     errorCount := errorCount m; cacheHits := cacheHits m + 1;
     cacheMisses := cacheMisses m |}.

Definition recordCacheMiss (m : t) : t :=
  {| processingTimes := processingTimes m; requestCount := requestCount m;
     errorCount := errorCount m; cacheHits := cacheHits m;
     cacheMisses := cacheMisses m + 1 |}.

Definition recordError (m : t) : t :=
  {| processingTimes := processingTimes m; requestCount := requestCount m;
     errorCount := errorCount m + 1; cacheHits := cacheHits m;
     cacheMisses := cacheMisses m |}.

End PerformanceMonitor.

(* ------------------------------------------------------------------ *)
(** ** services/enhanced-spam-detection-service.ts *)

Module EnhancedSpamDetectionService.

Record t := {
  rules : list DetectionRule;
  cache : MemoryCache.t;
  performanceMonitor : PerformanceMonitor.t
}.

(** The clock as one call reads it: [Date.now()] inside the edge-case
    handler, inside [cache.get] and inside [cache.set] (for the eviction,
    then for the timestamp); the engine's [timer.elapsed()]; and
    [performance.now() - startTime] where the path taken computes it. *)
Record Clock := {
  atEdge : Z;
  atGet : Z;
  atEvict : Z;
  atSet : Z;
  engineElapsed : Q;
  elapsed : Q
}.

Section Service.

Variable toLowerCase : jsstring -> jsstring.
Variable normalizeNFC : jsstring -> jsstring.

(** The [try] block of [analyzeContent], with the state it leaves. *)
Definition analyzeContentBody (svc : t) (content : jsstring) (clk : Clock)
  : Outcome DetectionResult * t :=
  if isBlank content then (Threw (js "Content cannot be empty"), svc)
  else
    let edgeCase := EdgeCaseHandler.handleEdgeCase (atEdge clk) normalizeNFC content in
    match EdgeCaseHandler.handled edgeCase, EdgeCaseHandler.result edgeCase with
    | true, Some edgeResult =>
        let processingTime := elapsed clk in
        (Returned (withProcessingTime edgeResult processingTime),
         {| rules := rules svc;
            cache := cache svc;
            performanceMonitor :=
              PerformanceMonitor.recordProcessingTime processingTime
                (performanceMonitor svc) |})
    | _, _ =>
        let contentHash := createContentHash toLowerCase content in
        let got := MemoryCache.get (atGet clk) contentHash (cache svc) in
        match fst got with
        | Some cachedResult =>
            let processingTime := elapsed clk in
            (Returned (withProcessingTime cachedResult processingTime),
             {| rules := rules svc;
                cache := snd got;
                performanceMonitor :=
                  PerformanceMonitor.recordCacheHit (performanceMonitor svc) |})
        | None =>
            let result :=
              SpamDetectionEngine.analyzeContent toLowerCase (rules svc) content
                (engineElapsed clk) in
            let processingTime := elapsed clk in
            (Returned (withProcessingTime result processingTime),
             {| rules := rules svc;
                cache :=
                  MemoryCache.set (atEvict clk) (atSet clk) contentHash result None
                    (snd got);
                performanceMonitor :=
                  PerformanceMonitor.recordProcessingTime processingTime
                    (PerformanceMonitor.recordCacheMiss (performanceMonitor svc)) |})
        end
    end.

(** [analyzeContent]: the [catch] turns any error of the body into the
    fallback verdict. *)
Definition analyzeContent (svc : t) (content : jsstring) (clk : Clock)
  : Outcome DetectionResult * t :=
  let body := analyzeContentBody svc content clk in
  match fst body with
  | Returned result => (Returned result, snd body)
  | Threw _ =>
      let processingTime := elapsed clk in
      (Returned
         {| decision := under_review;
            overallScore := 5 # 10;
            resultConfidence := 1 # 10;
            indicators := [];
            processingTime := processingTime;
            contentHash := createContentHash toLowerCase content |},
       {| rules := rules (snd body);
          cache := cache (snd body);
          performanceMonitor :=
            PerformanceMonitor.recordError (performanceMonitor (snd body)) |})
  end.

End Service.

End EnhancedSpamDetectionService.

(* ------------------------------------------------------------------ *)
(** ** Specification-side notions *)

Module Spec.

Local Open Scope Q_scope.

(** The invariant of a signal in the data model: confidence in [[0,1]] and
    a positive weight. *)
Definition validIndicator (i : SpamIndicator) : Prop :=
  0 <= confidence i /\ confidence i <= 1 /\ 0 < weight i.

(** Sum of confidence times weight over the signals. *)
Fixpoint weightedSum (l : list SpamIndicator) : Q :=
  match l with
  | [] => 0
  | i :: rest => confidence i * weight i + weightedSum rest
  end.

(** Sum of the weights of the signals. *)
Fixpoint weightSum (l : list SpamIndicator) : Q :=
  match l with
  | [] => 0
  | i :: rest => weight i + weightSum rest
  end.

(** A sum as a loop over doubles computes it: from the left, every partial
    sum rounded. *)
Definition roundedSum (terms : list Q) : Q := fold_left fadd terms 0.

(** The products confidence times weight, the weights and the confidences
    of the signals, as doubles. *)
Definition weightedTerms (l : list SpamIndicator) : list Q :=
  map (fun i => fmul (fl (confidence i)) (fl (weight i))) l.

Definition weights (l : list SpamIndicator) : list Q :=
  map (fun i => fl (weight i)) l.

Definition confidences (l : list SpamIndicator) : list Q :=
  map (fun i => fl (confidence i)) l.

(** The score of the claim in doubles: the rounded quotient of the two
    rounded sums, and 0 without signals. *)
Definition roundedScore (l : list SpamIndicator) : Q :=
  match l with
  | [] => 0
  | _ => fdiv (roundedSum (weightedTerms l)) (roundedSum (weights l))
  end.

(** The decision the claim assigns to a score. *)
Definition decisionOf (score : Q) : DetectionDecision :=
  if Qle_bool score (fl (2 # 10)) then allow
  else if Qle_bool score (fl (5 # 10)) then flag
  else if Qle_bool score (fl (7 # 10)) then under_review
  else reject.

(** The confidence of the claim in doubles, for a score and its signals. *)
Definition roundedConfidence (l : list SpamIndicator) (score : Q) : Q :=
  match l with
  | [] => 1
  | _ =>
      let count := inject_Z (Z.of_nat (length l)) in
      let indicatorFactor := Qmin (fdiv count 3) 1 in
      let scoreFactor :=
        if Qltb score (fl (2 # 10)) || Qltb (fl (8 # 10)) score then 1 else fl (7 # 10) in
      let avgIndicatorConfidence := fdiv (roundedSum (confidences l)) count in
      Qmin (fmul (fmul indicatorFactor scoreFactor) avgIndicatorConfidence) 1
  end.

(** The signals the enabled rules emit on [content]: a rule that throws
    or returns [null] emits none. *)
Fixpoint emittedSignals (rules : list DetectionRule) (content : jsstring)
  : list SpamIndicator :=
  match rules with
  | [] => []
  | rule :: rest =>
      if enabled rule then
        match execute rule content with
        | Returned (Some indicator) => indicator :: emittedSignals rest content
        | _ => emittedSignals rest content
        end
      else emittedSignals rest content
  end.

End Spec.

(** Notions about the cache. *)
Module CacheSpec.

Import MemoryCache.
Local Open Scope Z_scope.

Definition keys (m : EntryMap) : list jsstring := map fst m.

(** A [Map] holds a key once; a fingerprint is never the empty string. *)
Definition wellFormed (m : EntryMap) : Prop :=
  NoDup (keys m) /\ Forall (fun k => k <> []) (keys m).

(** The entry at position [i] has the lowest eviction score, and every
    entry before it has a strictly higher one. *)
Definition lowestFirst (now : Z) (m : EntryMap) (i : nat) (k : jsstring)
    (e : CacheEntry) : Prop :=
  nth_error m i = Some (k, e) /\
  (forall j kj ej, nth_error m j = Some (kj, ej) -> (score now e <= score now ej)%Q) /\
  (forall j kj ej, (j < i)%nat -> nth_error m j = Some (kj, ej) ->
                   (score now e < score now ej)%Q).

(** The entry's stored time-to-live is a non-zero [T] and [now] is past
    [timestamp + T]. *)
Definition expiredAt (now : Z) (e : CacheEntry) : Prop :=
  exists T : Z, ttl e = Some (Millis T) /\ T <> 0 /\ timestamp e + T < now.



End CacheSpec.

(* ------------------------------------------------------------------ *)
(** ** Concrete inputs used by the examples *)

Module Samples.

Import MemoryCache.

Definition cleanVerdict : DetectionResult :=
  {| decision := allow;
     overallScore := 0;
     resultConfidence := 1;
     indicators := [];
     processingTime := 2 # 10;
     contentHash := js "8f434346648f6b96" |}.

Definition fingerprintA : jsstring := js "8f434346648f6b96".
Definition fingerprintB : jsstring := js "ba7816bf8f01cfea".
Definition fingerprintC : jsstring := js "e3b0c44298fc1c14".

(** A full cache of two entries: A, one hour old with 4 hits, and B, half
    an hour old with 1 hit, seen at time 3600000. *)
Definition fullCache : t :=
  {| cache :=
       [ (fingerprintA,
          {| value := cleanVerdict; timestamp := 0; hits := 4;
             ttl := Some (Millis 7200000) |});
         (fingerprintB,
          {| value := cleanVerdict; timestamp := 1800000; hits := 1;
             ttl := Some (Millis 7200000) |}) ];
     cacheHits := 5;
     misses := 2;
     maxEntries := 2;
     defaultTtl := Millis 7200000 |}.

(** A full cache of two entries whose scores are equal as fractions: A,
    3300000 ms old with 3 hits, and B, 1100000 ms old with 1 hit, seen at
    time 3300000 (both 36/11 hits per hour). *)
Definition nearTieCache : t :=
  {| cache :=
       [ (fingerprintA,
          {| value := cleanVerdict; timestamp := 0; hits := 3;
             ttl := Some (Millis 7200000) |});
         (fingerprintB,
          {| value := cleanVerdict; timestamp := 2200000; hits := 1;
             ttl := Some (Millis 7200000) |}) ];
     cacheHits := 4;
     misses := 2;
     maxEntries := 2;
     defaultTtl := Millis 7200000 |}.


Definition signalOf (c w : Q) : SpamIndicator :=
  {| indicatorType := promotional; severity := medium; confidence := c;
     evidence := []; weight := w |}.

Definition twoSignals : list SpamIndicator :=
  [signalOf (9 # 10) (25 # 100); signalOf (75 # 100) (15 # 100)].

(** A rule whose [execute] throws on every input. *)
Definition throwingRule : DetectionRule :=
  {| name := js "profanity";
     ruleType := profanity;
     ruleWeight := 3 # 10;
     enabled := true;
     execute := fun _ => Threw (js "filter unavailable") |}.

(** A rule that emits a promotional signal on every input. *)
Definition emittingRule : DetectionRule :=
  {| name := js "promotional";
     ruleType := promotional;
     ruleWeight := 25 # 100;
     enabled := true;
     execute := fun _ => Returned (Some (signalOf (9 # 10) (25 # 100))) |}.

End Samples.

(** Notions about the edge-case classifier. *)
Module EdgeSpec.

Import EdgeCaseHandler.
Local Open Scope Q_scope.

(** The fixed score of a short-circuit verdict per decision class. *)
Definition policyScore (d : DetectionDecision) : Q :=
  match d with
  | reject => 9 # 10
  | flag => 5 # 10
  | _ => 3 # 10
  end.

(** A short-circuit verdict built at clock reading [now]. *)
Definition policyVerdict (now : Z) (v : DetectionResult) : Prop :=
  overallScore v = policyScore (decision v) /\
  resultConfidence v = 8 # 10 /\
  decision v <> allow /\
  processingTime v = 1 /\
  contentHash v = js "edge_case_" ++ decimal now.

(** An outcome of the classifier: either not handled and without verdict,
    or handled with a short-circuit verdict. *)
Definition wellShaped (now : Z) (r : EdgeCaseResult) : Prop :=
  (handled r = false /\ result r = None) \/
  (handled r = true /\ exists v, result r = Some v /\ policyVerdict now v).

(** Two outcomes that agree on everything but the fingerprint of their
    verdict. *)
Definition sameOutcome (r r' : EdgeCaseResult) : Prop :=
  handled r = handled r' /\
  reason r = reason r' /\
  recommendedAction r = recommendedAction r' /\
  match result r, result r' with
  | Some v, Some v' =>
      decision v = decision v' /\ overallScore v = overallScore v' /\
      resultConfidence v = resultConfidence v' /\ indicators v = indicators v' /\
      processingTime v = processingTime v'
  | None, None => True
  | _, _ => False
  end.

(** The service short-circuits on [content]: the text is not blank and the
    classifier reports it handled with a verdict. *)
Definition shortCircuits (normalizeNFC : jsstring -> jsstring) (content : jsstring)
  : bool :=
  negb (isBlank content)
  && handled (handleEdgeCase 0 normalizeNFC content)
  && match result (handleEdgeCase 0 normalizeNFC content) with
     | Some _ => true
     | None => false
     end.

End EdgeSpec.

(** Inputs for the examples on text. *)
Module TextSamples.

(** [normalize('NFC')] on ASCII text: the identity. *)
Definition asciiNormalizeNFC (s : jsstring) : jsstring := s.

(** [toLowerCase] on ASCII text. *)
Definition asciiToLowerCase (s : jsstring) : jsstring := asciiLower s.

Definition shortText : jsstring := js "hi".
Definition fiveWords : jsstring := js "bonjour mes amis tres chers".
Definition sixWords : jsstring := js "bonjour mes amis tres chers enfants".
Definition plainText : jsstring := js "Normal content here".

(** What [preprocess] returns on [fiveWords] and on [sixWords]. *)
Definition fiveWordsPreprocessed : ContentPreprocessor.PreprocessedContent :=
  {| ContentPreprocessor.original := fiveWords;
     ContentPreprocessor.normalized := fiveWords;
     ContentPreprocessor.metadata :=
       {| ContentPreprocessor.hasEmojis := false;
          ContentPreprocessor.hasUrls := false;
          ContentPreprocessor.hasHashtags := false;
          ContentPreprocessor.hasMentions := false;
          ContentPreprocessor.wordCount := 5;
          ContentPreprocessor.characterCount := 27;
          ContentPreprocessor.language := js "unknown";
          ContentPreprocessor.encoding := js "utf-8" |} |}.

Definition sixWordsPreprocessed : ContentPreprocessor.PreprocessedContent :=
  {| ContentPreprocessor.original := sixWords;
     ContentPreprocessor.normalized := sixWords;
     ContentPreprocessor.metadata :=
       {| ContentPreprocessor.hasEmojis := false;
          ContentPreprocessor.hasUrls := false;
          ContentPreprocessor.hasHashtags := false;
          ContentPreprocessor.hasMentions := false;
          ContentPreprocessor.wordCount := 6;
          ContentPreprocessor.characterCount := 35;
          ContentPreprocessor.language := js "unknown";
          ContentPreprocessor.encoding := js "utf-8" |} |}.

Definition freshService : EnhancedSpamDetectionService.t :=
  {| EnhancedSpamDetectionService.rules := [Samples.throwingRule; Samples.emittingRule];
     EnhancedSpamDetectionService.cache := MemoryCache.create None None;
     EnhancedSpamDetectionService.performanceMonitor := PerformanceMonitor.create |}.

Definition firstCall : EnhancedSpamDetectionService.Clock :=
  {| EnhancedSpamDetectionService.atEdge := 1000;
     EnhancedSpamDetectionService.atGet := 1000;
     EnhancedSpamDetectionService.atEvict := 1001;
     EnhancedSpamDetectionService.atSet := 1001;
     EnhancedSpamDetectionService.engineElapsed := 8 # 10;
     EnhancedSpamDetectionService.elapsed := 1 |}.

Definition secondCall : EnhancedSpamDetectionService.Clock :=
  {| EnhancedSpamDetectionService.atEdge := 2000;
     EnhancedSpamDetectionService.atGet := 2000;
     EnhancedSpamDetectionService.atEvict := 2001;
     EnhancedSpamDetectionService.atSet := 2001;
     EnhancedSpamDetectionService.engineElapsed := 7 # 10;
     EnhancedSpamDetectionService.elapsed := 1 # 10 |}.

End TextSamples.

(* ================================================================== *)
(** * Further code of the cited files *)

From Stdlib Require Import Sorted.

(* ------------------------------------------------------------------ *)
(** ** cache/memory-cache.ts: statistics, and sequences of operations *)

Module CacheStats.

Import MemoryCache.
Local Open Scope Z_scope.

(** [CacheStats] of types/cache.ts. *)
Record t := {
  hits : Z;
  misses : Z;
  hitRate : Q;
  totalEntries : Z;
  memoryUsage : Z
}.

Section Stats.

(** [approximateMemoryUsage] of utils/hash.ts: the byte length of
    [JSON.stringify] of the entry. *)
Variable approximateMemoryUsage : CacheEntry -> Z.

Definition getStats (c : MemoryCache.t) : t :=
  let totalRequests := cacheHits c + MemoryCache.misses c in
  let hitRate :=
    if 0 <? totalRequests
    then (inject_Z (cacheHits c) / inject_Z totalRequests)%Q
    else 0%Q in
  let memoryUsage :=
    fold_left (fun total entry => total + approximateMemoryUsage entry)
      (map snd (cache c)) 0 in
  {| hits := cacheHits c;
     misses := MemoryCache.misses c;
     hitRate := hitRate;
     totalEntries := mapSize (cache c);
     memoryUsage := memoryUsage |}.

End Stats.

(** [getEntries] *)
Definition getEntries (c : MemoryCache.t) : list (jsstring * CacheEntry) := cache c.

(** A call on the cache, with the clock readings it makes. *)
Inductive Call :=
| Get (now : Z) (contentHash : jsstring)
| Set_ (evictNow now : Z) (contentHash : jsstring) (result : DetectionResult)
    (ttl : option Duration)
| Has (now : Z) (contentHash : jsstring)
| Delete (contentHash : jsstring)
| Clear
| Cleanup (now : Z).

Definition perform (c : MemoryCache.t) (call : Call) : MemoryCache.t :=
  match call with
  | Get now k => snd (get now k c)
  | Set_ evictNow now k v ttl => set evictNow now k v ttl c
  | Has now k => snd (has now k c)
  | Delete k => snd (delete k c)
  | Clear => clear c
  | Cleanup now => snd (cleanup now c)
  end.

Definition performAll (calls : list Call) (c : MemoryCache.t) : MemoryCache.t :=
  fold_left perform calls c.

(** The keys a call stores under are fingerprints: not the empty string. *)
Definition storesFingerprint (call : Call) : Prop :=
  match call with
  | Set_ _ _ k _ _ => k <> []
  | _ => True
  end.



(** The calls that only look an entry up. *)
Definition isRead (call : Call) : bool :=
  match call with
  | Get _ _ | Has _ _ => true
  | _ => false
  end.

End CacheStats.

Module CacheSamples.

Import CacheStats MemoryCache Samples.
Local Open Scope Z_scope.

Definition sampleCalls : list Call :=
  [ Set_ 10 10 fingerprintA cleanVerdict None;
    Set_ 20 20 fingerprintB cleanVerdict (Some (Millis 5));
    Get 22 fingerprintA;
    Set_ 30 30 fingerprintC cleanVerdict None;
    Has 40 fingerprintB;
    Get 50 fingerprintB;
    Cleanup 60;
    Delete fingerprintC;
    Set_ 70 70 fingerprintB cleanVerdict (Some (Millis 0));
    Get 80 fingerprintC ].

(** Three entries seen at time 7200000: A and C were read, B was stored a
    moment ago and not read yet. *)
Definition readThenStored : EntryMap :=
  [ (fingerprintA,
     {| value := cleanVerdict; timestamp := 0; hits := 1; ttl := Some (Millis 3600000) |});
    (fingerprintB,
     {| value := cleanVerdict; timestamp := 7199999; hits := 0; ttl := Some (Millis 3600000) |});
    (fingerprintC,
     {| value := cleanVerdict; timestamp := 3600000; hits := 2; ttl := Some (Millis 3600000) |}) ].

End CacheSamples.

(* ------------------------------------------------------------------ *)
(** ** services/detection-engine.ts: the rule list and the statistics *)

Module EngineRules.

Import SpamDetectionEngine.

(** [addRule]: [this.rules.push(rule)] *)
Definition addRule (rule : DetectionRule) (rules : list DetectionRule)
  : list DetectionRule :=
  rules ++ [rule].

(** [removeRule]: the result and the rule list it leaves. *)
Definition removeRule (ruleName : jsstring) (rules : list DetectionRule)
  : bool * list DetectionRule :=
  let initialLength := length rules in
  let kept := filter (fun rule => negb (eqb (name rule) ruleName)) rules in
  ((length kept <? initialLength)%nat, kept).

Record EngineStats := {
  totalRules : nat;
  enabledRules : nat;
  performanceTarget : Z
}.

(** [performanceTargetMs] of [DEFAULT_DETECTION_CONFIG]. *)
Definition performanceTargetMs : Z := 50.

Definition getStats (rules : list DetectionRule) : EngineStats :=
  {| totalRules := length rules;
     enabledRules := length (getEnabledRules rules);
     performanceTarget := performanceTargetMs |}.

(** The decisions in the order of the thresholds. *)
Definition decisionRank (d : DetectionDecision) : nat :=
  match d with
  | allow => 0
  | flag => 1
  | under_review => 2
  | reject => 3
  end.

End EngineRules.

(* ------------------------------------------------------------------ *)
(** ** utils/hash.ts: the shape of a fingerprint *)

Module Fingerprint.

(** A lower-case hexadecimal digit, [0-9a-f]. *)
Definition isHexDigit (c : Z) : bool := inRange 48 57 c || inRange 97 102 c.

End Fingerprint.

(* ------------------------------------------------------------------ *)
(** ** services/spam-detection-service.ts: the other methods, and a
    service in use *)

Module ServiceOps.

Import SpamDetectionService.

(** [clearCache] *)
Definition clearCache (svc : t) : t :=
  {| rules := rules svc; cache := MemoryCache.clear (cache svc) |}.

(** [cleanupCache] *)
Definition cleanupCache (now : Z) (svc : t) : Z * t :=
  let r := MemoryCache.cleanup now (cache svc) in
  (fst r, {| rules := rules svc; cache := snd r |}).

(** [getCacheSize] *)
Definition getCacheSize (svc : t) : Z := MemoryCache.getSize (cache svc).

(** A call on the service, awaited before the next one is made. *)
Inductive Request :=
| Analyze (content : jsstring) (clk : Clock)
| ClearCache
| CleanupCache (now : Z).

Section Runs.

Variable toLowerCase : jsstring -> jsstring.

Definition serve (svc : t) (request : Request) : t :=
  match request with
  | Analyze content clk => snd (analyzeContent toLowerCase svc content clk)
  | ClearCache => clearCache svc
  | CleanupCache now => snd (cleanupCache now svc)
  end.

Definition serveAll (requests : list Request) (svc : t) : t :=
  fold_left serve requests svc.

End Runs.

End ServiceOps.

(* ------------------------------------------------------------------ *)
(** ** The enhanced service in use *)

Module EnhancedOps.

Import EnhancedSpamDetectionService.

(** The constructor, for the rules of the registry and a cache (the
    default one is [MemoryCache.create None None]). *)
Definition create (rules : list DetectionRule) (cache : MemoryCache.t) : t :=
  {| rules := rules; cache := cache; performanceMonitor := PerformanceMonitor.create |}.

Section Runs.

Variable toLowerCase : jsstring -> jsstring.
Variable normalizeNFC : jsstring -> jsstring.

(** [analyzeContent] calls, each awaited before the next one is made. *)
Definition analyzeAll (requests : list (jsstring * Clock)) (svc : t) : t :=
  fold_left
    (fun svc request => snd (analyzeContent toLowerCase normalizeNFC svc
                               (fst request) (snd request)))
    requests svc.

(** The request is answered by the edge-case handler. *)
Definition shortCircuited (request : jsstring * Clock) : bool :=
  let edgeCase :=
    EdgeCaseHandler.handleEdgeCase (atEdge (snd request)) normalizeNFC (fst request) in
  match EdgeCaseHandler.handled edgeCase, EdgeCaseHandler.result edgeCase with
  | true, Some _ => true
  | _, _ => false
  end.

(** The request gets as far as the cache. *)
Definition reachesCache (request : jsstring * Clock) : bool :=
  negb (isBlank (fst request)) && negb (shortCircuited request).

End Runs.

End EnhancedOps.


(* ------------------------------------------------------------------ *)
(** ** services/optimizations/performance-monitor.ts: the metrics *)

Module MonitorOps.

Import PerformanceMonitor.
Local Open Scope Q_scope.

Definition SLOW_REQUEST_THRESHOLD : Q := 100.
Definition MAX_MEMORY_USAGE : Z := 100 * 1024 * 1024.
Definition TARGET_CACHE_HIT_RATE : Q := 6 # 10.

Record PerformanceMetrics := {
  metricsRequestCount : Z;
  averageProcessingTime : Q;
  p95ProcessingTime : Q;
  p99ProcessingTime : Q;
  cacheHitRate : Q;
  memoryUsage : Z;
  slowRequestCount : Z;
  errorRate : Q
}.

Inductive RecommendationType := rec_cache | rec_memory | rec_rules | rec_preprocessing.

Record OptimizationRecommendation := {
  recType : RecommendationType;
  recSeverity : SeverityLevel;
  message : jsstring;
  action : jsstring
}.

Inductive HealthStatus := healthy | degraded | unhealthy.

(** [sort((a, b) => a - b)]: ascending, and stable. *)
Fixpoint insertSorted (x : Q) (sorted : list Q) : list Q :=
  match sorted with
  | [] => [x]
  | y :: rest => if Qltb x y then x :: sorted else y :: insertSorted x rest
  end.

Definition sortAscending (times : list Q) : list Q :=
  fold_left (fun sorted x => insertSorted x sorted) times [].

(** [calculatePercentile]; [|| 0] turns a zero into the literal 0. *)
Definition calculatePercentile (sortedArray : list Q) (percentile : Q) : Q :=
  match sortedArray with
  | [] => 0
  | _ =>
      let n := Z.of_nat (length sortedArray) in
      let index := (Qceiling (inject_Z n * percentile) - 1)%Z in
      let safeIndex := Z.max 0 (Z.min index (n - 1)) in
      let found := nth (Z.to_nat safeIndex) sortedArray 0 in
      if Qeq_bool found 0 then 0 else found
  end.

(** [getMetrics]; [heapUsed] is the reading of
    [process.memoryUsage().heapUsed]. *)
Definition getMetrics (heapUsed : Z) (m : PerformanceMonitor.t) : PerformanceMetrics :=
  let sortedTimes := sortAscending (processingTimes m) in
  let totalRequests := (cacheHits m + cacheMisses m)%Z in
  {| metricsRequestCount := requestCount m;
     averageProcessingTime :=
       if (0 <? length sortedTimes)%nat
       then fold_left (fun sum time => sum + time) sortedTimes 0
            / inject_Z (Z.of_nat (length sortedTimes))
       else 0;
     p95ProcessingTime := calculatePercentile sortedTimes (95 # 100);
     p99ProcessingTime := calculatePercentile sortedTimes (99 # 100);
     cacheHitRate :=
       if (0 <? totalRequests)%Z
       then inject_Z (cacheHits m) / inject_Z totalRequests
       else 0;
     memoryUsage := heapUsed;
     slowRequestCount :=
       Z.of_nat (length (filter (fun time => Qltb SLOW_REQUEST_THRESHOLD time) sortedTimes));
     errorRate :=
       if (0 <? requestCount m)%Z
       then inject_Z (errorCount m) / inject_Z (requestCount m)
       else 0 |}.

Section Recommendations.

(** [Number.prototype.toFixed], the decimal rendering of a number with the
    given count of fraction digits. *)
Variable toFixed : Q -> nat -> jsstring.

Definition getOptimizationRecommendations (heapUsed : Z) (m : PerformanceMonitor.t)
  : list OptimizationRecommendation :=
  let metrics := getMetrics heapUsed m in
  (if Qltb (cacheHitRate metrics) TARGET_CACHE_HIT_RATE
      && (50 <? metricsRequestCount metrics)%Z
   then [{| recType := rec_cache;
            recSeverity := medium;
            message := js "Low cache hit rate: "
                       ++ toFixed (cacheHitRate metrics * 100) 1 ++ js "%";
            action := js "Consider increasing cache size or TTL, or review content patterns"
         |}]
   else [])
  ++ (if (MAX_MEMORY_USAGE <? memoryUsage metrics)%Z
      then [{| recType := rec_memory;
               recSeverity := high;
               message := js "High memory usage: "
                          ++ toFixed (inject_Z (memoryUsage metrics) / 1024 / 1024) 1
                          ++ js "MB";
               action := js "Consider cache cleanup or memory optimization" |}]
      else [])
  ++ (if Qltb (SLOW_REQUEST_THRESHOLD * (5 # 10)) (averageProcessingTime metrics)
      then [{| recType := rec_rules;
               recSeverity := medium;
               message := js "Slow average processing: "
                          ++ toFixed (averageProcessingTime metrics) 2 ++ js "ms";
               action := js "Consider optimizing detection rules or preprocessing" |}]
      else [])
  ++ (if Qltb (inject_Z (metricsRequestCount metrics) * (1 # 10))
              (inject_Z (slowRequestCount metrics))
      then [{| recType := rec_preprocessing;
               recSeverity := medium;
               message := decimal (slowRequestCount metrics)
                          ++ js " slow requests (>" ++ js "100" ++ js "ms)";
               action := js "Review content preprocessing or rule complexity" |}]
      else [])
  ++ (if Qltb (1 # 100) (errorRate metrics)
      then [{| recType := rec_rules;
               recSeverity := high;
               message := js "High error rate: "
                          ++ toFixed (errorRate metrics * 100) 2 ++ js "%";
               action := js "Review error handling and rule stability" |}]
      else []).

Definition isHigh (r : OptimizationRecommendation) : bool :=
  match recSeverity r with high => true | _ => false end.

Definition isMedium (r : OptimizationRecommendation) : bool :=
  match recSeverity r with medium => true | _ => false end.

(** [getHealthStatus]; the metrics it reads itself are not used, the
    recommendations are those of [heapUsed]. *)
Definition getHealthStatus (heapUsed : Z) (m : PerformanceMonitor.t) : HealthStatus :=
  let recommendations := getOptimizationRecommendations heapUsed m in
  let highSeverityIssues := length (filter isHigh recommendations) in
  let mediumSeverityIssues := length (filter isMedium recommendations) in
  if (0 <? highSeverityIssues)%nat then unhealthy
  else if (2 <? mediumSeverityIssues)%nat then degraded
  else healthy.

End Recommendations.

(** [recordProcessingTime] for each of [times], in order. *)
Definition recordAll (times : list Q) (m : PerformanceMonitor.t) : PerformanceMonitor.t :=
  fold_left (fun m timeMs => recordProcessingTime timeMs m) times m.

End MonitorOps.

(* ------------------------------------------------------------------ *)
(** ** config/detection.ts: the constants of the rules *)

Module AnalysisConfig.

Local Open Scope Q_scope.

(** [RULE_WEIGHTS] *)
Definition weight_repetitive_content : Q := 2 # 10.
Definition weight_caps_abuse : Q := 15 # 100.

(** [ANALYSIS_CONFIG] *)
Definition maxCapsRatio : Q := 7 # 10.
Definition maxRepetitiveChars : Z := 3.
Definition maxRepetitiveWords : Z := 2.

End AnalysisConfig.

(* ------------------------------------------------------------------ *)
(** ** services/rules/caps-abuse-rule.ts *)

Module CapsAbuseRule.

Import RegExp AnalysisConfig.
Local Open Scope Q_scope.

(** [a{0,n}], greedy. *)
Fixpoint AtMost (n : nat) (a : regex) : regex :=
  match n with
  | O => Eps
  | S m => Opt (Seq a (AtMost m a))
  end.

Definition upper : regex := Chr isUpper.

(** [/\#[A-Z]+/] *)
Definition hashtagPattern : regex := Seq (ch "#") (Plus upper).

(** [/\b[A-Z]{2,5}\b/] *)
Definition acronymPattern : regex :=
  seq [WordBoundary; upper; upper; AtMost 3 upper; WordBoundary].

Section Rule.

(** [Number.prototype.toFixed] *)
Variable toFixed : Q -> nat -> jsstring.

(** [execute]; the promise it returns is never rejected. *)
Definition execute (content : jsstring) : Outcome (option SpamIndicator) :=
  let text := trim content in
  if (length text <? 3)%nat then Returned None
  else
    let letters := countMatches (Chr isLetter) text in
    let upperCaseLetters := countMatches upper text in
    if (letters =? 0)%Z then Returned None
    else
      let capsRatio := inject_Z upperCaseLetters / inject_Z letters in
      if Qle_bool capsRatio maxCapsRatio then Returned None
      else
        let graded :=
          if Qltb (9 # 10) capsRatio then (high, 9 # 10)
          else if Qltb (8 # 10) capsRatio then (medium, 75 # 100)
          else (low, 6 # 10) in
        let hasHashtags := test hashtagPattern text in
        let hasAcronyms := test acronymPattern text in
        let adjusted :=
          if hasHashtags || hasAcronyms
          then (match fst graded with high => medium | other => other end,
                snd graded * (7 # 10))
          else graded in
        let evidence :=
          [ toFixed (capsRatio * 100) 1 ++ js "% of letters are capitalized";
            js "Threshold: " ++ toFixed (maxCapsRatio * 100) 1 ++ js "%" ] in
        Returned
          (Some {| indicatorType := caps_abuse;
                   severity := fst adjusted;
                   confidence := snd adjusted;
                   evidence := evidence;
                   weight := weight_caps_abuse |}).

Definition rule : DetectionRule :=
  Build_DetectionRule (js "caps_abuse") caps_abuse weight_caps_abuse true execute.

End Rule.

End CapsAbuseRule.

(* ------------------------------------------------------------------ *)
(** ** services/rules/repetitive-content-rule.ts *)

Module RepetitiveContentRule.

Import RegExp AnalysisConfig.
Local Open Scope Q_scope.

Record Check := {
  score : Q;
  checkEvidence : list jsstring
}.

(** The number of code units equal to [c] at the head of [s]. *)
Fixpoint runLength (c : Z) (s : jsstring) : nat :=
  match s with
  | d :: rest => if (d =? c)%Z then S (runLength c rest) else O
  | [] => O
  end.

(** [content.match(/(.)\1{3,}/g) || []]: the back-reference is the
    captured code unit, so a match is a code unit other than a line
    terminator followed by at least three copies of it, and, the
    quantifier being greedy, by all the copies that follow. *)
Fixpoint repeatedChars (skip : nat) (s : jsstring) : list jsstring :=
  match s with
  | [] => []
  | c :: rest =>
      match skip with
      | S n => repeatedChars n rest
      | O =>
          let copies := runLength c rest in
          if negb (isLineTerminator c) && (3 <=? copies)%nat
          then (c :: firstn copies rest) :: repeatedChars copies rest
          else repeatedChars 0 rest
      end
  end.

Definition quote : jsstring := [34%Z].

Definition checkRepetitiveCharacters (content : jsstring) : Check :=
  let step (acc : Q * list jsstring) (m : jsstring) :=
    let char := firstn 1 m in
    let count := Z.of_nat (length m) in
    if (maxRepetitiveChars <? count)%Z
    then (fst acc + Qmin (inject_Z (count - maxRepetitiveChars) * (2 # 10)) 1,
          snd acc
          ++ [js "Repeated character " ++ quote ++ char ++ quote ++ js " "
              ++ decimal count ++ js " times in a row"])
    else acc in
  let r := fold_left step (repeatedChars 0 content) (0, []) in
  {| score := Qmin (fst r) 1; checkEvidence := snd r |}.

(** [wordCounts.set(word, (wordCounts.get(word) || 0) + 1)] on a [Map],
    which keeps the keys in the order of their first insertion. *)
Fixpoint bump (key : jsstring) (counts : list (jsstring * Z)) : list (jsstring * Z) :=
  match counts with
  | [] => [(key, 1%Z)]
  | (k, n) :: rest =>
      if eqb k key then (k, (n + 1)%Z) :: rest else (k, n) :: bump key rest
  end.

(** [/[^\w\s]/g] *)
Definition notWordNorSpace : regex :=
  Chr (fun c => negb (isWordChar c || isWhiteSpace c)).

Section Rule.

(** [String.prototype.toLowerCase] *)
Variable toLowerCase : jsstring -> jsstring.

Definition checkRepetitiveWords (content : jsstring) : Check :=
  let words :=
    filter (fun word => (2 <? length word)%nat)
      (split (Plus space) (replaceAll notWordNorSpace " " (toLowerCase content))) in
  let wordCounts := fold_left (fun counts word => bump word counts) words [] in
  let step (acc : Q * list jsstring) (entry : jsstring * Z) :=
    let word := fst entry in
    let count := snd entry in
    if (maxRepetitiveWords <? count)%Z
    then
      let repetitionScore := Qmin (inject_Z (count - maxRepetitiveWords) * (3 # 10)) 1 in
      (fst acc + repetitionScore,
       snd acc
       ++ [js "Word " ++ quote ++ word ++ quote ++ js " repeated "
           ++ decimal count ++ js " times"])
    else acc in
  let r := fold_left step wordCounts (0, []) in
  {| score := Qmin (fst r) 1; checkEvidence := snd r |}.

Definition checkRepetitivePhrases (content : jsstring) : Check :=
  let sentences :=
    filter (fun s => (10 <? length s)%nat)
      (map trim (split (Plus (ch ".!?")) content)) in
  if (length sentences <? 2)%nat then {| score := 0; checkEvidence := [] |}
  else
    let sentenceCounts :=
      fold_left
        (fun counts sentence =>
           let normalized := replaceAll notWordNorSpace "" (toLowerCase sentence) in
           match normalized with
           | [] => counts
           | _ => bump normalized counts
           end)
        sentences [] in
    let step (acc : Q * list jsstring) (entry : jsstring * Z) :=
      let count := snd entry in
      if (1 <? count)%Z
      then (fst acc + inject_Z count * (5 # 10),
            snd acc ++ [js "Similar phrase repeated " ++ decimal count ++ js " times"])
      else acc in
    let r := fold_left step sentenceCounts (0, []) in
    {| score := Qmin (fst r) 1; checkEvidence := snd r |}.

(** One of the three blocks of [execute]: the state is
    [(indicators, totalScore, maxScore)]. *)
Definition addCheck (check : Check) (share : Q) (acc : list jsstring * Q * Q)
  : list jsstring * Q * Q :=
  let '(indicators, totalScore, maxScore) := acc in
  if Qltb 0 (score check)
  then (indicators ++ checkEvidence check, totalScore + score check * share, maxScore + share)
  else acc.

(** [execute]; the promise it returns is never rejected. *)
Definition execute (content : jsstring) : Outcome (option SpamIndicator) :=
  let acc := addCheck (checkRepetitiveCharacters content) (3 # 10) ([], 0, 0) in
  let acc := addCheck (checkRepetitiveWords content) (4 # 10) acc in
  let acc := addCheck (checkRepetitivePhrases content) (3 # 10) acc in
  let '(indicators, totalScore, maxScore) := acc in
  match indicators with
  | [] => Returned None
  | _ =>
      let confidence := if Qltb 0 maxScore then totalScore / maxScore else 0 in
      let severity :=
        if Qltb (7 # 10) confidence then high
        else if Qltb (4 # 10) confidence then medium
        else low in
      Returned
        (Some {| indicatorType := repetitive_content;
                 severity := severity;
                 confidence := confidence;
                 evidence := indicators;
                 weight := weight_repetitive_content |})
  end.

Definition rule : DetectionRule :=
  Build_DetectionRule (js "repetitive_content") repetitive_content
    weight_repetitive_content true execute.

End Rule.

End RepetitiveContentRule.

Module RuleSpec.

Local Open Scope Q_scope.

(** The state [(indicators, totalScore, maxScore)] of
    [RepetitiveContentRule.execute] after some of its blocks: the total is
    between 0 and the maximum, and positive once evidence was added. *)
Definition blocksInvariant (acc : list jsstring * Q * Q) : Prop :=
  let '(indicators, totalScore, maxScore) := acc in
  0 <= totalScore /\ totalScore <= maxScore /\
  (indicators <> [] -> 0 < totalScore).

End RuleSpec.

Module RuleSamples.

Local Open Scope Q_scope.

Definition shoutedText : jsstring := js "  BUY NOW, best PRICES  ".

(** What the caps-abuse rule emits on [shoutedText], 12 of whose 16
    letters are capitals, when [toFixed] renders nothing. *)
Definition shoutedSignal : SpamIndicator :=
  {| indicatorType := caps_abuse;
     severity := low;
     confidence := 42 # 100;
     evidence := [js "% of letters are capitalized"; js "Threshold: %"];
     weight := 15 # 100 |}.

Definition stretchedText : jsstring := js "sooooo good".

End RuleSamples.

Module ServiceSamples.

Import Samples TextSamples.
Local Open Scope Z_scope.

(** A service with two rules and the default cache. *)
Definition plainService : SpamDetectionService.t :=
  {| SpamDetectionService.rules := [throwingRule; emittingRule];
     SpamDetectionService.cache := MemoryCache.create None None |}.

Definition callAt (now : Z) : SpamDetectionService.Clock :=
  {| SpamDetectionService.atGet := now;
     SpamDetectionService.atEvict := now + 1;
     SpamDetectionService.atSet := now + 1;
     SpamDetectionService.engineElapsed := 8 # 10 |}.

Definition enhancedCallAt (now : Z) : EnhancedSpamDetectionService.Clock :=
  {| EnhancedSpamDetectionService.atEdge := now;
     EnhancedSpamDetectionService.atGet := now;
     EnhancedSpamDetectionService.atEvict := now + 1;
     EnhancedSpamDetectionService.atSet := now + 1;
     EnhancedSpamDetectionService.engineElapsed := 8 # 10;
     EnhancedSpamDetectionService.elapsed := 1 |}.

Definition sampleRequests : list ServiceOps.Request :=
  [ ServiceOps.Analyze plainText (callAt 1000);
    ServiceOps.Analyze (js "  ") (callAt 2000);
    ServiceOps.Analyze sixWords (callAt 3000);
    ServiceOps.CleanupCache 4000;
    ServiceOps.Analyze plainText (callAt 5000);
    ServiceOps.ClearCache;
    ServiceOps.Analyze shortText (callAt 6000) ].


Definition blankRequests : list (jsstring * EnhancedSpamDetectionService.Clock) :=
  [ (js "", enhancedCallAt 1000);
    (js "   ", enhancedCallAt 2000);
    ([9; 10; 160], enhancedCallAt 3000) ].

Definition enhancedRequests : list (jsstring * EnhancedSpamDetectionService.Clock) :=
  [ (plainText, enhancedCallAt 1000);
    (js "", enhancedCallAt 2000);
    (shortText, enhancedCallAt 3000);
    (plainText, enhancedCallAt 4000);
    (js "   ", enhancedCallAt 5000) ].

End ServiceSamples.

(* ------------------------------------------------------------------ *)
(** ** services/optimizations/edge-case-handler.ts: action and verdict *)

Module EdgePolicy.

Import EdgeCaseHandler.

(** The signal [createObfuscationResult] attaches. *)
Definition obfuscationSignal (type : jsstring) : SpamIndicator :=
  {| indicatorType := character_patterns;
     severity := high;
     confidence := 9 # 10;
     evidence := [js "Obfuscation detected: " ++ type];
     weight := 8 # 10 |}.

(** How the recommended action of an outcome relates to the decision of
    the verdict it carries. *)
Definition actionMatchesVerdict (r : EdgeCaseResult) : Prop :=
  match result r with
  | None => handled r = false /\ recommendedAction r = act_allow
  | Some v =>
      handled r = true /\
      match recommendedAction r with
      | act_allow => False
      | act_reject => decision v = reject
      | manual_review => decision v = under_review /\ indicators v = []
      | act_flag =>
          (decision v = flag /\ indicators v = []) \/
          (decision v = reject /\
           (reason r = js "Potential homograph attack detected" \/
            reason r = js "Excessive symbol substitution detected"))
      end /\
      (indicators v = [] \/ exists type, indicators v = [obfuscationSignal type])
  end.

End EdgePolicy.

(* ================================================================== *)
(** * Properties *)

Unset Implicit Arguments.

(** ** Comparisons on rationals *)

Lemma Qltb_true (x y : Q) : Qltb x y = true <-> (x < y)%Q.
Proof.
  unfold Qltb. rewrite negb_true_iff.
  split; intro H.
  - apply Qnot_le_lt. intro Hle. apply Qle_bool_iff in Hle. congruence.
  - destruct (Qle_bool y x) eqn:E; [|reflexivity].
    apply Qle_bool_iff in E. exfalso. apply (Qlt_not_le _ _ H E).
Qed.

Lemma Qltb_false (x y : Q) : Qltb x y = false <-> (y <= x)%Q.
Proof.
  unfold Qltb. rewrite negb_false_iff. apply Qle_bool_iff.
Qed.

Lemma Qle_bool_false (x y : Q) : Qle_bool x y = false <-> (y < x)%Q.
Proof.
  split; intro H.
  - apply Qnot_le_lt. intro Hle. apply Qle_bool_iff in Hle. congruence.
  - destruct (Qle_bool x y) eqn:E; [|reflexivity].
    apply Qle_bool_iff in E. exfalso. apply (Qlt_not_le _ _ H E).
Qed.

(** ** Rounding to the nearest double *)

Module Rounding.

Lemma Qcompare_Lt (x y : Q) : x < y -> Qcompare x y = Lt.
Proof. intros H. destruct (Qcompare_spec x y); [exfalso; lra | reflexivity | exfalso; lra]. Qed.

Lemma Qcompare_Gt (x y : Q) : y < x -> Qcompare x y = Gt.
Proof. intros H. destruct (Qcompare_spec x y); [exfalso; lra | exfalso; lra | reflexivity]. Qed.

Lemma Qcompare_Eq (x y : Q) : x == y -> Qcompare x y = Eq.
Proof. intros H. destruct (Qcompare_spec x y); [reflexivity | exfalso; lra | exfalso; lra]. Qed.

Lemma two_neq_0 : ~ 2 == 0.
Proof. intro H. discriminate H. Qed.

Lemma pow2_pos (e : Z) : 0 < 2 ^ e.
Proof. apply Qpower_0_lt. reflexivity. Qed.

Lemma pow2_add (a b : Z) : 2 ^ (a + b) == 2 ^ a * 2 ^ b.
Proof. apply Qpower_plus. exact two_neq_0. Qed.

Lemma pow2_succ (e : Z) : 2 ^ (e + 1) == 2 * 2 ^ e.
Proof. rewrite pow2_add. change (2 ^ 1) with 2. ring. Qed.

Lemma pow2_le (a b : Z) : (a <= b)%Z -> 2 ^ a <= 2 ^ b.
Proof.
  intros H. replace b with (a + (b - a))%Z by lia.
  rewrite pow2_add.
  assert (H1 : 1 <= 2 ^ (b - a)) by (apply Qpower_1_le; [discriminate | lia]).
  pose proof (pow2_pos a). nra.
Qed.

Lemma pow2_inv (s : Z) : 2 ^ s * 2 ^ (- s) == 1.
Proof. rewrite <- pow2_add. replace (s + - s)%Z with 0%Z by lia. reflexivity. Qed.

Lemma pow2_Z (n : Z) : (0 <= n)%Z -> inject_Z (2 ^ n) == 2 ^ n.
Proof. intros H. rewrite Zpower_Qpower by exact H. reflexivity. Qed.

Lemma log2_bounds (n : Z) :
  (0 < n)%Z -> 2 ^ Z.log2 n <= inject_Z n /\ inject_Z n < 2 * 2 ^ Z.log2 n.
Proof.
  intros H. destruct (Z.log2_spec n H) as [H1 H2].
  pose proof (Z.log2_nonneg n) as H0.
  rewrite <- pow2_succ, <- !pow2_Z by lia.
  replace (Z.succ (Z.log2 n)) with (Z.log2 n + 1)%Z in H2 by lia.
  split; [rewrite <- Zle_Qle | rewrite <- Zlt_Qlt]; assumption.
Qed.

Lemma binade_spec (x : Q) : 0 < x -> 2 ^ binade x <= x /\ x < 2 ^ (binade x + 1).
Proof.
  intros Hx. unfold binade.
  set (a := Z.log2 (Qnum x)). set (b := Z.log2 (Z.pos (Qden x))).
  assert (Hn : (0 < Qnum x)%Z).
  { destruct x as [n d]. unfold Qlt in Hx. simpl in *. lia. }
  destruct (log2_bounds (Qnum x) Hn) as [Ha1 Ha2]. fold a in Ha1, Ha2.
  destruct (log2_bounds (Z.pos (Qden x)) eq_refl) as [Hb1 Hb2]. fold b in Hb1, Hb2.
  assert (Hxd : x * inject_Z (Z.pos (Qden x)) == inject_Z (Qnum x)).
  { destruct x as [n d]. unfold Qeq, Qmult, inject_Z. simpl. lia. }
  assert (Hk : 2 ^ (a - b) * 2 ^ b == 2 ^ a).
  { rewrite <- pow2_add. replace (a - b + b)%Z with a by lia. reflexivity. }
  pose proof (pow2_pos (a - b)) as Hp. pose proof (pow2_pos b) as Hpb.
  pose proof (pow2_pos a) as Hpa.
  set (P := 2 ^ (a - b)) in *. set (A := 2 ^ a) in *. set (B := 2 ^ b) in *.
  set (n := inject_Z (Qnum x)) in *. set (d := inject_Z (Z.pos (Qden x))) in *.
  destruct (Qle_bool P x) eqn:E.
  - apply Qle_bool_iff in E. split; [exact E|].
    rewrite pow2_succ. fold P.
    apply Qnot_le_lt. intros Hc.
    assert (H1 : 2 * P * d <= x * d) by nra.
    assert (H2 : 2 * P * B <= 2 * P * d) by nra.
    nra.
  - assert (E' : x < P).
    { apply Qnot_le_lt. intros Hc. apply Qle_bool_iff in Hc. congruence. }
    replace (a - b - 1 + 1)%Z with (a - b)%Z by lia. fold P. split; [|exact E'].
    assert (Hh : 2 * 2 ^ (a - b - 1) == P).
    { rewrite <- pow2_succ. replace (a - b - 1 + 1)%Z with (a - b)%Z by lia. reflexivity. }
    pose proof (pow2_pos (a - b - 1)) as Hq.
    set (H := 2 ^ (a - b - 1)) in *.
    apply Qnot_lt_le. intros Hc.
    assert (H1 : x * d < H * d) by nra.
    assert (H2 : H * d <= H * (2 * B)) by nra.
    nra.
Qed.

Lemma binade_unique (x : Q) (e : Z) :
  0 < x -> 2 ^ e <= x -> x < 2 ^ (e + 1) -> binade x = e.
Proof.
  intros Hx H1 H2. destruct (binade_spec x Hx) as [B1 B2].
  destruct (Z.lt_trichotomy (binade x) e) as [Hlt | [Heq | Hgt]]; [|exact Heq|].
  - pose proof (pow2_le (binade x + 1) e ltac:(lia)). lra.
  - pose proof (pow2_le (e + 1) (binade x) ltac:(lia)). lra.
Qed.

Lemma roundTiesToEven_int (z : Z) : roundTiesToEven (inject_Z z) = z.
Proof.
  unfold roundTiesToEven. rewrite Qfloor_Z.
  rewrite Qcompare_Lt by lra. reflexivity.
Qed.

Lemma roundTiesToEven_floor (x : Q) :
  (Qfloor x <= roundTiesToEven x <= Qfloor x + 1)%Z.
Proof.
  unfold roundTiesToEven.
  destruct (Qcompare (x - inject_Z (Qfloor x)) (1 # 2)); [destruct (Z.even _)| |]; lia.
Qed.

Lemma roundTiesToEven_monotone (x y : Q) :
  x <= y -> (roundTiesToEven x <= roundTiesToEven y)%Z.
Proof.
  intros Hxy. pose proof (Qfloor_resp_le x y Hxy) as Hf.
  pose proof (roundTiesToEven_floor x) as Bx. pose proof (roundTiesToEven_floor y) as By.
  destruct (Z.eq_dec (Qfloor x) (Qfloor y)) as [E | N]; [|lia].
  unfold roundTiesToEven in *. rewrite <- E in *.
  destruct (Qcompare_spec (x - inject_Z (Qfloor x)) (1 # 2)) as [X | X | X];
    destruct (Qcompare_spec (y - inject_Z (Qfloor x)) (1 # 2)) as [Y | Y | Y];
    try destruct (Z.even (Qfloor x)); try lia; exfalso; lra.
Qed.

Lemma roundTiesToEven_comp (x y : Q) : x == y -> roundTiesToEven x = roundTiesToEven y.
Proof.
  intros H. apply Z.le_antisymm; apply roundTiesToEven_monotone; rewrite H; apply Qle_refl.
Qed.

Lemma scaled_bounds (x : Q) :
  0 < x ->
  2 ^ 52 <= x * 2 ^ (52 - binade x) /\ x * 2 ^ (52 - binade x) < 2 ^ 53.
Proof.
  intros Hx. destruct (binade_spec x Hx) as [B1 B2].
  pose proof (pow2_pos (52 - binade x)) as Hs.
  assert (E1 : 2 ^ binade x * 2 ^ (52 - binade x) == 2 ^ 52).
  { rewrite <- pow2_add. replace (binade x + (52 - binade x))%Z with 52%Z by lia. reflexivity. }
  assert (E2 : 2 ^ (binade x + 1) * 2 ^ (52 - binade x) == 2 ^ 53).
  { rewrite <- pow2_add. replace (binade x + 1 + (52 - binade x))%Z with 53%Z by lia. reflexivity. }
  split.
  - rewrite <- E1. apply Qmult_le_compat_r; lra.
  - rewrite <- E2. apply Qmult_lt_compat_r; lra.
Qed.

Lemma significand_bounds (x : Q) :
  0 < x ->
  (2 ^ 52 <= roundTiesToEven (x * 2 ^ (52 - binade x)) <= 2 ^ 53)%Z.
Proof.
  intros Hx. destruct (scaled_bounds x Hx) as [S1 S2]. split.
  - apply Z.le_trans with (roundTiesToEven (inject_Z (2 ^ 52))).
    + rewrite roundTiesToEven_int. apply Z.le_refl.
    + apply roundTiesToEven_monotone. exact S1.
  - apply Z.le_trans with (roundTiesToEven (inject_Z (2 ^ 53))).
    + apply roundTiesToEven_monotone. apply Qlt_le_weak. exact S2.
    + rewrite roundTiesToEven_int. apply Z.le_refl.
Qed.

Lemma roundPositive_bounds (x : Q) :
  0 < x -> 2 ^ binade x <= roundPositive x /\ roundPositive x <= 2 ^ (binade x + 1).
Proof.
  intros Hx. destruct (significand_bounds x Hx) as [M1 M2].
  unfold roundPositive.
  set (m := roundTiesToEven (x * 2 ^ (52 - binade x))) in *.
  pose proof (pow2_pos (- (52 - binade x))) as Hs.
  assert (E1 : 2 ^ 52 * 2 ^ (- (52 - binade x)) == 2 ^ binade x).
  { rewrite <- pow2_add. replace (52 + - (52 - binade x))%Z with (binade x) by lia. reflexivity. }
  assert (E2 : 2 ^ 53 * 2 ^ (- (52 - binade x)) == 2 ^ (binade x + 1)).
  { rewrite <- pow2_add. replace (53 + - (52 - binade x))%Z with (binade x + 1)%Z by lia.
    reflexivity. }
  rewrite Zle_Qle in M1, M2. split.
  - rewrite <- E1. apply Qmult_le_compat_r; [exact M1 | lra].
  - rewrite <- E2. apply Qmult_le_compat_r; [exact M2 | lra].
Qed.

Lemma roundPositive_pos (x : Q) : 0 < x -> 0 < roundPositive x.
Proof.
  intros Hx. destruct (roundPositive_bounds x Hx) as [B _].
  pose proof (pow2_pos (binade x)). lra.
Qed.

Lemma roundPositive_monotone (x y : Q) :
  0 < x -> x <= y -> roundPositive x <= roundPositive y.
Proof.
  intros Hx Hxy. assert (Hy : 0 < y) by lra.
  destruct (binade_spec x Hx) as [X1 X2]. destruct (binade_spec y Hy) as [Y1 Y2].
  assert (Hb : (binade x <= binade y)%Z).
  { destruct (Z.le_gt_cases (binade x) (binade y)) as [H | H]; [exact H|].
    pose proof (pow2_le (binade y + 1) (binade x) ltac:(lia)). lra. }
  destruct (Z.eq_dec (binade x) (binade y)) as [E | N].
  - unfold roundPositive. rewrite E.
    pose proof (pow2_pos (- (52 - binade y))) as Hs.
    pose proof (pow2_pos (52 - binade y)) as Hs'.
    apply Qmult_le_compat_r; [|lra].
    rewrite <- Zle_Qle. apply roundTiesToEven_monotone.
    apply Qmult_le_compat_r; lra.
  - destruct (roundPositive_bounds x Hx) as [_ U]. destruct (roundPositive_bounds y Hy) as [L _].
    pose proof (pow2_le (binade x + 1) (binade y) ltac:(lia)). lra.
Qed.

(** A number whose scaled significand is an integer is a double. *)
Lemma roundPositive_exact (x : Q) (m : Z) :
  0 < x -> x * 2 ^ (52 - binade x) == inject_Z m -> roundPositive x == x.
Proof.
  intros Hx Hm. unfold roundPositive.
  rewrite (roundTiesToEven_comp _ _ Hm), roundTiesToEven_int, <- Hm.
  rewrite <- Qmult_assoc, pow2_inv. ring.
Qed.

Lemma roundPositive_idempotent (x : Q) :
  0 < x -> roundPositive (roundPositive x) == roundPositive x.
Proof.
  intros Hx. pose proof (roundPositive_pos x Hx) as Hr.
  destruct (significand_bounds x Hx) as [M1 M2].
  destruct (roundPositive_bounds x Hx) as [L U].
  set (b := binade x) in *. set (s := (52 - b)%Z) in *.
  set (m := roundTiesToEven (x * 2 ^ s)) in *.
  assert (Er : roundPositive x == inject_Z m * 2 ^ (- s)) by reflexivity.
  pose proof (pow2_pos (- s)) as Hs.
  destruct (Z.eq_dec m (2 ^ 53)) as [E | N].
  - assert (Ev : roundPositive x == 2 ^ (b + 1)).
    { rewrite Er, E. change (inject_Z (2 ^ 53)) with (2 ^ 53).
      rewrite <- pow2_add. replace (53 + - s)%Z with (b + 1)%Z by lia. reflexivity. }
    assert (Hb : binade (roundPositive x) = (b + 1)%Z).
    { apply binade_unique; [exact Hr | lra |].
      rewrite Ev. pose proof (pow2_succ (b + 1)). pose proof (pow2_pos (b + 1)). lra. }
    apply (roundPositive_exact _ (2 ^ 52)); [exact Hr|].
    rewrite Hb, Ev, <- pow2_add. replace (b + 1 + (52 - (b + 1)))%Z with 52%Z by lia.
    reflexivity.
  - assert (Hb : binade (roundPositive x) = b).
    { apply binade_unique; [exact Hr | exact L |].
      rewrite Er.
      assert (E2 : 2 ^ 53 * 2 ^ (- s) == 2 ^ (b + 1)).
      { rewrite <- pow2_add. replace (53 + - s)%Z with (b + 1)%Z by lia. reflexivity. }
      rewrite <- E2. apply Qmult_lt_compat_r; [exact Hs|].
      change (2 ^ 53) with (inject_Z (2 ^ 53)). rewrite <- Zlt_Qlt. lia. }
    apply (roundPositive_exact _ m); [exact Hr|].
    rewrite Hb. fold s. rewrite Er, <- Qmult_assoc.
    rewrite (Qmult_comm (2 ^ (- s))), pow2_inv. ring.
Qed.

Lemma fl_0 : fl 0 = 0.
Proof. reflexivity. Qed.

Lemma fl_pos (x : Q) : 0 < x -> 0 < fl x.
Proof.
  intros Hx. unfold fl. rewrite Qcompare_Gt by exact Hx.
  apply roundPositive_pos. exact Hx.
Qed.

Lemma fl_of_pos (x : Q) : 0 < x -> fl x = roundPositive x.
Proof. intros Hx. unfold fl. rewrite Qcompare_Gt by exact Hx. reflexivity. Qed.

Lemma fl_of_neg (x : Q) : x < 0 -> fl x = - roundPositive (- x).
Proof. intros Hx. unfold fl. rewrite Qcompare_Lt by exact Hx. reflexivity. Qed.

Lemma fl_of_zero (x : Q) : x == 0 -> fl x = 0.
Proof. intros Hx. unfold fl. rewrite Qcompare_Eq by exact Hx. reflexivity. Qed.

Lemma fl_monotone (x y : Q) : x <= y -> fl x <= fl y.
Proof.
  intros Hxy.
  destruct (Q_dec x 0) as [[Hx | Hx] | Hx]; destruct (Q_dec y 0) as [[Hy | Hy] | Hy].
  - rewrite (fl_of_neg x Hx), (fl_of_neg y Hy).
    apply Qopp_le_compat. apply roundPositive_monotone; lra.
  - rewrite (fl_of_neg x Hx), (fl_of_pos y Hy).
    pose proof (roundPositive_pos (- x) ltac:(lra)). pose proof (roundPositive_pos y Hy). lra.
  - rewrite (fl_of_neg x Hx), (fl_of_zero y Hy).
    pose proof (roundPositive_pos (- x) ltac:(lra)). lra.
  - lra.
  - rewrite (fl_of_pos x Hx), (fl_of_pos y Hy). apply roundPositive_monotone; assumption.
  - lra.
  - lra.
  - rewrite (fl_of_zero x Hx), (fl_of_pos y Hy).
    pose proof (roundPositive_pos y Hy). lra.
  - rewrite (fl_of_zero x Hx), (fl_of_zero y Hy). apply Qle_refl.
Qed.

Lemma fl_comp (x y : Q) : x == y -> fl x == fl y.
Proof. intros H. apply Qle_antisym; apply fl_monotone; rewrite H; apply Qle_refl. Qed.

Lemma roundPositive_comp (x y : Q) : 0 < x -> x == y -> roundPositive x == roundPositive y.
Proof.
  intros Hx H. rewrite <- (fl_of_pos x Hx), <- (fl_of_pos y) by (rewrite <- H; exact Hx).
  apply fl_comp. exact H.
Qed.

Lemma fl_nonneg (x : Q) : 0 <= x -> 0 <= fl x.
Proof. intros H. change 0 with (fl 0). apply fl_monotone. exact H. Qed.

Lemma fl_idempotent (x : Q) : fl (fl x) == fl x.
Proof.
  destruct (Q_dec x 0) as [[Hx | Hx] | Hx].
  - rewrite (fl_of_neg x Hx).
    pose proof (roundPositive_pos (- x) ltac:(lra)) as Hr.
    rewrite fl_of_neg by lra.
    apply Qopp_comp.
    rewrite (roundPositive_comp (- - roundPositive (- x)) (roundPositive (- x))); [| lra | ring].
    apply roundPositive_idempotent. lra.
  - rewrite (fl_of_pos x Hx). rewrite fl_of_pos by (apply roundPositive_pos; exact Hx).
    apply roundPositive_idempotent. exact Hx.
  - rewrite (fl_of_zero x Hx). reflexivity.
Qed.

(** Rounding does not cross a double. *)
Lemma fl_le_double (x y : Q) : x <= fl y -> fl x <= fl y.
Proof. intros H. rewrite <- (fl_idempotent y). apply fl_monotone. exact H. Qed.

Lemma fl_ge_double (x y : Q) : fl y <= x -> fl y <= fl x.
Proof. intros H. rewrite <- (fl_idempotent y). apply fl_monotone. exact H. Qed.

Lemma fl_1 : fl 1 == 1.
Proof. vm_compute. reflexivity. Qed.

(** A number that rounding leaves as it is and that bounds [x] bounds the
    rounded [x] too. *)
Lemma fl_le_fixed (x d : Q) : fl d == d -> x <= d -> fl x <= d.
Proof. intros Hd H. rewrite <- Hd. apply fl_monotone. exact H. Qed.

Lemma fl_ge_fixed (x d : Q) : fl d == d -> d <= x -> d <= fl x.
Proof. intros Hd H. rewrite <- Hd. apply fl_monotone. exact H. Qed.

Lemma fmul_nonneg (x y : Q) : 0 <= x -> 0 <= y -> 0 <= fmul x y.
Proof. intros Hx Hy. apply fl_nonneg. apply Qmult_le_0_compat; assumption. Qed.

(** Scaling a double bound by a factor in [[0,1]] stays below the bound. *)
Lemma fmul_le_fixed (x y d : Q) :
  fl d == d -> 0 <= x -> x <= d -> 0 <= y -> y <= 1 -> fmul x y <= d.
Proof. intros Hd Hx Hxd Hy Hy1. apply fl_le_fixed; [exact Hd | nra]. Qed.

Lemma Qmin_fixed (x y : Q) : fl x == x -> fl y == y -> fl (Qmin x y) == Qmin x y.
Proof.
  intros Hx Hy. destruct (Q.min_spec x y) as [[_ E] | [_ E]];
    rewrite (fl_comp _ _ E), E; assumption.
Qed.

(** The literals of the engine as doubles. *)
Lemma literals_ordered :
  0 < fl (2 # 10) /\ fl (2 # 10) < fl (5 # 10) /\ fl (5 # 10) < fl (7 # 10) /\
  fl (7 # 10) < fl (8 # 10) /\ fl (8 # 10) < 1.
Proof. repeat split; vm_compute; reflexivity. Qed.

Lemma literals_rounded :
  2 # 10 < fl (2 # 10) /\ fl (5 # 10) == 5 # 10 /\ fl (7 # 10) < 7 # 10 /\
  8 # 10 < fl (8 # 10) /\ fl (1 # 3) < 1 # 3 /\ fl (2 # 3) < 2 # 3.
Proof. repeat split; vm_compute; reflexivity. Qed.

(** Adding at most 1 to a double that is at most 2^53 does not pass 2^53. *)
Lemma fl_integer_ceiling : fl (inject_Z (2 ^ 53) + 1) == inject_Z (2 ^ 53).
Proof. vm_compute. reflexivity. Qed.

(** The integers up to 2^53 are doubles. *)
Lemma fl_integer (z : Z) : (0 <= z <= 2 ^ 53)%Z -> fl (inject_Z z) == inject_Z z.
Proof.
  intros [H0 H1]. destruct (Z.eq_dec z 0) as [-> | Hz]; [reflexivity|].
  assert (Hp : 0 < inject_Z z) by (change 0 with (inject_Z 0); rewrite <- Zlt_Qlt; lia).
  rewrite fl_of_pos by exact Hp.
  destruct (Z.eq_dec z (2 ^ 53)) as [-> | N]; [vm_compute; reflexivity|].
  destruct (log2_bounds z ltac:(lia)) as [L U].
  assert (Hb : binade (inject_Z z) = Z.log2 z).
  { apply binade_unique; [exact Hp | exact L | rewrite pow2_succ; exact U]. }
  assert (He : (Z.log2 z <= 52)%Z).
  { assert (Z.log2 z < 53)%Z; [|lia]. apply Z.log2_lt_pow2; lia. }
  pose proof (Z.log2_nonneg z).
  apply (roundPositive_exact _ (z * 2 ^ (52 - Z.log2 z))); [exact Hp|].
  rewrite Hb, inject_Z_mult, pow2_Z by lia. reflexivity.
Qed.

End Rounding.


(** ** The aggregation engine *)

Module EngineFacts.

Import SpamDetectionEngine Spec Samples Rounding.
Local Open Scope Q_scope.

(** The loop over pairs computes the two rounded sums side by side. *)
Lemma accumulate_from (l : list SpamIndicator) (s w : Q) :
  fold_left
    (fun acc indicator =>
       (fadd (fst acc) (fmul (fl (confidence indicator)) (fl (weight indicator))),
        fadd (snd acc) (fl (weight indicator))))
    l (s, w)
  = (fold_left fadd (weightedTerms l) s, fold_left fadd (weights l) w).
Proof.
  revert s w. induction l as [|i l IH]; intros s w; simpl; [reflexivity|].
  apply IH.
Qed.

Lemma accumulate_sums (l : list SpamIndicator) :
  accumulate l = (roundedSum (weightedTerms l), roundedSum (weights l)).
Proof. apply accumulate_from. Qed.

(** A signal of the data model, read as doubles. *)
Lemma validIndicator_doubles (i : SpamIndicator) :
  validIndicator i ->
  0 <= fl (confidence i) /\ fl (confidence i) <= 1 /\ 0 < fl (weight i).
Proof.
  intros [Hc0 [Hc1 Hw]]. split; [|split].
  - apply fl_nonneg. exact Hc0.
  - rewrite <- fl_1. apply fl_monotone. exact Hc1.
  - apply fl_pos. exact Hw.
Qed.

Lemma sums_bounds_from (l : list SpamIndicator) (s w : Q) :
  Forall validIndicator l -> 0 <= s -> s <= w ->
  0 <= fold_left fadd (weightedTerms l) s /\
  fold_left fadd (weightedTerms l) s <= fold_left fadd (weights l) w.
Proof.
  intros Hv. revert s w.
  induction Hv as [|i l Hi _ IH]; intros s w Hs Hsw; simpl; [split; assumption|].
  destruct (validIndicator_doubles i Hi) as (C0 & C1 & W0).
  assert (Hp0 : 0 <= fmul (fl (confidence i)) (fl (weight i)))
    by (apply fmul_nonneg; lra).
  assert (Hp1 : fmul (fl (confidence i)) (fl (weight i)) <= fl (weight i)).
  { unfold fmul. apply fl_le_double. nra. }
  apply IH.
  - apply fl_nonneg. lra.
  - apply fl_monotone. lra.
Qed.

Lemma weights_pos_from (l : list SpamIndicator) (w : Q) :
  Forall validIndicator l -> 0 <= w -> 0 < w \/ l <> [] ->
  0 < fold_left fadd (weights l) w.
Proof.
  intros Hv. revert w.
  induction Hv as [|i l Hi _ IH]; intros w Hw Hor; simpl.
  - destruct Hor as [H | H]; [exact H | congruence].
  - destruct (validIndicator_doubles i Hi) as (_ & _ & W0).
    assert (Hpos : 0 < fadd w (fl (weight i))) by (apply fl_pos; lra).
    apply IH; [lra | left; exact Hpos].
Qed.

Lemma sums_bounds (l : list SpamIndicator) :
  Forall validIndicator l ->
  0 <= roundedSum (weightedTerms l) /\
  roundedSum (weightedTerms l) <= roundedSum (weights l) /\
  (l <> [] -> 0 < roundedSum (weights l)).
Proof.
  intros Hv. destruct (sums_bounds_from l 0 0 Hv (Qle_refl 0) (Qle_refl 0)) as [H1 H2].
  split; [exact H1|]. split; [exact H2|].
  intros Hne. apply weights_pos_from; [exact Hv | apply Qle_refl | right; exact Hne].
Qed.

(** The reported score is the rounded quotient of the two rounded sums. *)
Lemma overallScore_rounded (l : list SpamIndicator) (h : jsstring) (t : Q) :
  Forall validIndicator l ->
  overallScore (calculateFinalDecision l h t) = roundedScore l.
Proof.
  intros Hv. unfold calculateFinalDecision. cbn [overallScore].
  rewrite accumulate_sums. cbn [fst snd].
  destruct l as [|i l]; [reflexivity|].
  destruct (sums_bounds _ Hv) as (_ & _ & Hpos).
  assert (Hlt : Qltb 0 (roundedSum (weights (i :: l))) = true)
    by (apply Qltb_true; apply Hpos; discriminate).
  rewrite Hlt. reflexivity.
Qed.

Lemma roundedScore_bounds (l : list SpamIndicator) :
  Forall validIndicator l -> 0 <= roundedScore l /\ roundedScore l <= 1.
Proof.
  intros Hv. destruct l as [|i l]; [simpl; split; lra|].
  destruct (sums_bounds _ Hv) as (B1 & B2 & Hpos).
  specialize (Hpos ltac:(discriminate)).
  unfold roundedScore, fdiv. split.
  - apply fl_nonneg. apply Qle_shift_div_l; [exact Hpos | lra].
  - rewrite <- fl_1. apply fl_monotone. apply Qle_shift_div_r; [exact Hpos | lra].
Qed.

Lemma overallScore_bounds (l : list SpamIndicator) (h : jsstring) (t : Q) :
  Forall validIndicator l ->
  0 <= overallScore (calculateFinalDecision l h t) <= 1.
Proof.
  intros Hv. rewrite (overallScore_rounded l h t Hv). apply roundedScore_bounds. exact Hv.
Qed.

(** The reported score is a double. *)
Lemma overallScore_fixed (l : list SpamIndicator) (h : jsstring) (t : Q) :
  fl (overallScore (calculateFinalDecision l h t))
  == overallScore (calculateFinalDecision l h t).
Proof.
  unfold calculateFinalDecision. cbn [overallScore].
  destruct (Qltb 0 (snd (accumulate l))); [apply fl_idempotent | reflexivity].
Qed.

Lemma getDecisionFromScore_decisionOf (score : Q) :
  getDecisionFromScore score = decisionOf score.
Proof. reflexivity. Qed.

Lemma getDecisionFromScore_thresholds (score : Q) :
  (score <= fl (2 # 10) -> getDecisionFromScore score = allow) /\
  (fl (2 # 10) < score -> score <= fl (5 # 10) -> getDecisionFromScore score = flag) /\
  (fl (5 # 10) < score -> score <= fl (7 # 10) ->
   getDecisionFromScore score = under_review) /\
  (fl (7 # 10) < score -> getDecisionFromScore score = reject).
Proof.
  destruct literals_ordered as (_ & L1 & L2 & _).
  unfold getDecisionFromScore, thresholds, DETECTION_THRESHOLDS.
  cbn [th_allow th_flag th_underReview th_reject].
  destruct (Qle_bool score (fl (2 # 10))) eqn:E1;
    [apply Qle_bool_iff in E1 | apply Qle_bool_false in E1];
  (destruct (Qle_bool score (fl (5 # 10))) eqn:E2;
    [apply Qle_bool_iff in E2 | apply Qle_bool_false in E2]);
  (destruct (Qle_bool score (fl (7 # 10))) eqn:E3;
    [apply Qle_bool_iff in E3 | apply Qle_bool_false in E3]);
  repeat split; intros; try reflexivity; exfalso; lra.
Qed.

(** C2 (as amended). For signals that satisfy the data model (confidence
    in [[0,1]], positive weight), the engine's overallScore is 0 on the
    empty list and otherwise the quotient of the sum of confidence times
    weight by the sum of the weights as double arithmetic computes it:
    every product, every partial sum (from the left) and the quotient
    rounded to the nearest double. It lies in [[0,1]], and the decision
    follows the thresholds on that reported score: at most 0.2 allow, at
    most 0.5 flag, at most 0.7 under_review, reject above, the three
    thresholds being the doubles nearest to 0.2, 0.5 and 0.7. *)
Theorem calculateFinalDecision_score_and_decision
    (indicators : list SpamIndicator) (contentHash : jsstring) (processingTime : Q) :
  Forall validIndicator indicators ->
  let r := calculateFinalDecision indicators contentHash processingTime in
  (indicators = [] -> overallScore r = 0) /\
  (indicators <> [] ->
   overallScore r
   = fdiv (roundedSum (weightedTerms indicators)) (roundedSum (weights indicators))) /\
  (0 <= overallScore r /\ overallScore r <= 1) /\
  (overallScore r <= fl (2 # 10) -> decision r = allow) /\
  (fl (2 # 10) < overallScore r -> overallScore r <= fl (5 # 10) -> decision r = flag) /\
  (fl (5 # 10) < overallScore r -> overallScore r <= fl (7 # 10) ->
   decision r = under_review) /\
  (fl (7 # 10) < overallScore r -> decision r = reject).
Proof.
  intros Hv r.
  split; [intros ->; reflexivity|].
  split.
  { intros Hne. unfold r. rewrite (overallScore_rounded _ _ _ Hv).
    destruct indicators; [congruence | reflexivity]. }
  split; [apply overallScore_bounds; assumption|].
  exact (getDecisionFromScore_thresholds (overallScore r)).
Qed.

(** The instance of C2 on two signals, (0.9, weight 0.25) and
    (0.75, weight 0.15). *)
Lemma calculateFinalDecision_score_and_decision_witness :
  let r := calculateFinalDecision twoSignals fingerprintA (5 # 10) in
  (twoSignals = [] -> overallScore r = 0) /\
  (twoSignals <> [] ->
   overallScore r
   = fdiv (roundedSum (weightedTerms twoSignals)) (roundedSum (weights twoSignals))) /\
  (0 <= overallScore r /\ overallScore r <= 1) /\
  (overallScore r <= fl (2 # 10) -> decision r = allow) /\
  (fl (2 # 10) < overallScore r -> overallScore r <= fl (5 # 10) -> decision r = flag) /\
  (fl (5 # 10) < overallScore r -> overallScore r <= fl (7 # 10) ->
   decision r = under_review) /\
  (fl (7 # 10) < overallScore r -> decision r = reject).
Proof.
  apply (calculateFinalDecision_score_and_decision twoSignals fingerprintA (5 # 10)).
  repeat constructor; vm_compute; discriminate.
Defined.

(** C2 as stated fails on a single signal of confidence 0.2 and weight
    0.2 (the signal that the repetitive-content rule emits on a text with
    one run of four equal characters). The sum of confidence times weight
    divided by the sum of the weights is 0.2, whether the two fields are
    read as the decimal 0.2 or as the double nearest to it, and 0.2 is at
    most the allow threshold; the engine computes 0.2 * 0.2 / 0.2 in
    doubles, reports 0.20000000000000004 and decides flag. *)
Lemma rounded_score_of_one_signal_passes_the_allow_threshold :
  let decimal := signalOf (2 # 10) (2 # 10) in
  let double := signalOf (fl (2 # 10)) (fl (2 # 10)) in
  let r := calculateFinalDecision [decimal] fingerprintA (5 # 10) in
  validIndicator decimal /\ validIndicator double /\
  weightedSum [decimal] / weightSum [decimal] == 2 # 10 /\
  weightedSum [double] / weightSum [double] == fl (2 # 10) /\
  2 # 10 <= fl (2 # 10) /\
  overallScore (calculateFinalDecision [double] fingerprintA (5 # 10)) = overallScore r /\
  decision (calculateFinalDecision [double] fingerprintA (5 # 10)) = decision r /\
  overallScore r == 7205759403792795 # 36028797018963968 /\
  overallScore r = fl (20000000000000004 # 100000000000000000) /\
  fl (2 # 10) < overallScore r /\
  decision r = flag.
Proof.
  cbv zeta. repeat split; vm_compute; try reflexivity; intros; discriminate.
Qed.

Lemma fold_left_fadd_map (A : Type) (f : A -> Q) (l : list A) (s : Q) :
  fold_left (fun sum x => fadd sum (f x)) l s = fold_left fadd (map f l) s.
Proof.
  revert s. induction l as [|a l IH]; intros s; simpl; [reflexivity | apply IH].
Qed.

Lemma sumOfConfidences_rounded (l : list SpamIndicator) :
  sumOfConfidences l = roundedSum (confidences l).
Proof. apply (fold_left_fadd_map _ (fun ind => fl (confidence ind))). Qed.

Lemma calculateConfidence_rounded (l : list SpamIndicator) (score : Q) :
  calculateConfidence l score = roundedConfidence l score.
Proof.
  destruct l as [|i l]; [reflexivity|].
  unfold calculateConfidence, roundedConfidence.
  rewrite sumOfConfidences_rounded. reflexivity.
Qed.

Lemma count_pos (A : Type) (l : list A) :
  l <> [] -> 0 < inject_Z (Z.of_nat (length l)).
Proof.
  intros Hne. destruct l; [congruence|].
  change 0 with (inject_Z 0). rewrite <- Zlt_Qlt. simpl length. lia.
Qed.

(** The rounded sum of [n] confidences stays within [[0, n]]: up to 2^53
    because the integers are doubles, beyond because the sum stops
    growing there. *)
Lemma confidences_sum_from (l : list SpamIndicator) (s : Q) (k : Z) :
  Forall validIndicator l ->
  (0 <= k)%Z -> 0 <= s -> s <= inject_Z k -> s <= inject_Z (2 ^ 53) ->
  let r := fold_left fadd (confidences l) s in
  0 <= r /\ r <= inject_Z (k + Z.of_nat (length l)) /\ r <= inject_Z (2 ^ 53).
Proof.
  intros Hv. revert s k.
  induction Hv as [|i l Hi _ IH]; intros s k Hk Hs Hsk Hcap; cbn zeta.
  - simpl. rewrite Z.add_0_r. repeat split; assumption.
  - destruct (validIndicator_doubles i Hi) as (C0 & C1 & _).
    cbn [confidences map fold_left]. fold (confidences l).
    assert (H0 : 0 <= fadd s (fl (confidence i))) by (apply fl_nonneg; lra).
    assert (Hc : fadd s (fl (confidence i)) <= inject_Z (2 ^ 53)).
    { rewrite <- fl_integer_ceiling. apply fl_monotone. lra. }
    assert (Hk1 : fadd s (fl (confidence i)) <= inject_Z (k + 1)).
    { destruct (Z_le_gt_dec (k + 1) (2 ^ 53)) as [Hsmall | Hbig].
      - rewrite <- (fl_integer (k + 1)) by lia. apply fl_monotone.
        rewrite inject_Z_plus. change (inject_Z 1) with 1. lra.
      - apply Qle_trans with (inject_Z (2 ^ 53)); [exact Hc|].
        rewrite <- Zle_Qle. lia. }
    destruct (IH (fadd s (fl (confidence i))) (k + 1)%Z ltac:(lia) H0 Hk1 Hc)
      as (R0 & R1 & R2).
    split; [exact R0|]. split; [|exact R2].
    replace (k + Z.of_nat (length (i :: l)))%Z with (k + 1 + Z.of_nat (length l))%Z
      by (simpl length; lia).
    exact R1.
Qed.

Lemma sumOfConfidences_bounds (l : list SpamIndicator) :
  Forall validIndicator l ->
  0 <= roundedSum (confidences l) /\
  roundedSum (confidences l) <= inject_Z (Z.of_nat (length l)).
Proof.
  intros Hv.
  destruct (confidences_sum_from l 0 0 Hv (Z.le_refl 0) (Qle_refl 0) (Qle_refl 0))
    as (R0 & R1 & _).
  - change 0 with (inject_Z 0). rewrite <- Zle_Qle. lia.
  - split; [exact R0 | exact R1].
Qed.

(** The three factors of the confidence. *)
Lemma indicatorFactor_bounds (n : nat) :
  (0 < n)%nat ->
  let count := inject_Z (Z.of_nat n) in
  let f := Qmin (fdiv count 3) 1 in
  0 <= f /\ f <= 1 /\ f <= count / 3 /\ fl f == f.
Proof.
  intros Hn count f.
  assert (Hc : 1 <= count).
  { unfold count. change 1 with (inject_Z 1). rewrite <- Zle_Qle. lia. }
  assert (H0 : 0 <= fdiv count 3).
  { apply fl_nonneg. apply Qle_shift_div_l; lra. }
  split; [apply Q.min_glb; lra|].
  split; [apply Q.le_min_r|].
  split; [|apply Qmin_fixed; [apply fl_idempotent | apply fl_1]].
  destruct literals_rounded as (_ & _ & _ & _ & T1 & T2).
  destruct n as [|[|[|n]]]; [lia | | |].
  - apply Qle_trans with (fdiv count 3); [apply Q.le_min_l|].
    apply Qlt_le_weak. exact T1.
  - apply Qle_trans with (fdiv count 3); [apply Q.le_min_l|].
    apply Qlt_le_weak. exact T2.
  - apply Qle_trans with 1; [apply Q.le_min_r|].
    apply Qle_shift_div_l; [lra|].
    unfold count. change (1 * 3) with (inject_Z 3). rewrite <- Zle_Qle. lia.
Qed.

Lemma averageConfidence_bounds (l : list SpamIndicator) :
  Forall validIndicator l -> l <> [] ->
  let avg := fdiv (roundedSum (confidences l)) (inject_Z (Z.of_nat (length l))) in
  0 <= avg /\ avg <= 1.
Proof.
  intros Hv Hne avg. pose proof (count_pos _ l Hne) as Hn.
  destruct (sumOfConfidences_bounds l Hv) as [S0 S1].
  unfold avg, fdiv. split.
  - apply fl_nonneg. apply Qle_shift_div_l; [exact Hn | lra].
  - rewrite <- fl_1. apply fl_monotone. apply Qle_shift_div_r; [exact Hn | lra].
Qed.

Lemma scoreFactor_cases (score : Q) :
  let sf := if Qltb score (fl (2 # 10)) || Qltb (fl (8 # 10)) score then 1 else fl (7 # 10) in
  (score < fl (2 # 10) \/ fl (8 # 10) < score -> sf = 1) /\
  (~ (score < fl (2 # 10) \/ fl (8 # 10) < score) -> sf = fl (7 # 10)) /\
  0 <= sf /\ sf <= 1 /\ fl sf == sf.
Proof.
  cbn zeta. destruct literals_ordered as (L0 & L1 & L2 & L3 & L4).
  destruct (Qltb score (fl (2 # 10))) eqn:E1; cbn [orb].
  - split; [reflexivity|]. split.
    + intros Hn. exfalso. apply Hn. left. apply Qltb_true. exact E1.
    + split; [lra|]. split; [lra | apply fl_1].
  - destruct (Qltb (fl (8 # 10)) score) eqn:E2.
    + split; [reflexivity|]. split.
      * intros Hn. exfalso. apply Hn. right. apply Qltb_true. exact E2.
      * split; [lra|]. split; [lra | apply fl_1].
    + apply Qltb_false in E1, E2. split.
      * intros [H | H]; exfalso; lra.
      * split; [reflexivity|]. split; [lra|]. split; [lra | apply fl_idempotent].
Qed.

(** The reported confidence: its range and its three caps. *)
Lemma roundedConfidence_caps (l : list SpamIndicator) (score : Q) :
  Forall validIndicator l -> l <> [] ->
  0 <= roundedConfidence l score /\
  roundedConfidence l score <= 1 /\
  roundedConfidence l score <= inject_Z (Z.of_nat (length l)) / 3 /\
  (fl (2 # 10) <= score -> score <= fl (8 # 10) ->
   roundedConfidence l score <= fl (7 # 10)).
Proof.
  intros Hv Hne.
  destruct l as [|i l]; [congruence|].
  unfold roundedConfidence.
  set (n := length (i :: l)).
  destruct (indicatorFactor_bounds n ltac:(unfold n; simpl; lia)) as (F0 & F1 & F3 & Ff).
  destruct (averageConfidence_bounds (i :: l) Hv Hne) as [A0 A1].
  destruct (scoreFactor_cases score) as (_ & S7 & S0 & S1 & Sf).
  fold n in A0, A1.
  set (count := inject_Z (Z.of_nat n)) in *.
  set (f := Qmin (fdiv count 3) 1) in *.
  set (sf := if Qltb score (fl (2 # 10)) || Qltb (fl (8 # 10)) score
             then 1 else fl (7 # 10)) in *.
  set (avg := fdiv (roundedSum (confidences (i :: l))) count) in *.
  assert (P0 : 0 <= fmul f sf) by (apply fmul_nonneg; assumption).
  assert (Pf : fmul f sf <= f) by (apply fmul_le_fixed; try assumption; apply Qle_refl).
  assert (Ps : fmul f sf <= sf).
  { unfold fmul. apply fl_le_fixed; [exact Sf | nra]. }
  assert (R0 : 0 <= fmul (fmul f sf) avg) by (apply fmul_nonneg; assumption).
  assert (Rf : fmul (fmul f sf) avg <= f) by (apply fmul_le_fixed; assumption).
  assert (Rs : fmul (fmul f sf) avg <= sf) by (apply fmul_le_fixed; assumption).
  pose proof (Q.le_min_l (fmul (fmul f sf) avg) 1) as Hmin.
  split; [apply Q.min_glb; lra|].
  split; [apply Q.le_min_r|].
  split; [lra|].
  intros Hlo Hhi.
  assert (E : sf = fl (7 # 10)) by (apply S7; intros [H | H]; lra).
  rewrite <- E. lra.
Qed.



Lemma executeRuleSafely_throw (rule : DetectionRule) (content e : jsstring) :
  execute rule content = Threw e -> executeRuleSafely rule content = None.
Proof.
  intros H. unfold executeRuleSafely. rewrite H. reflexivity.
Qed.

Lemma collect_emitted (rules : list DetectionRule) (content : jsstring) :
  collectIndicators
    (map (fun rule => executeRuleSafely rule content) (getEnabledRules rules))
  = emittedSignals rules content.
Proof.
  induction rules as [|rule rest IH]; simpl; [reflexivity|].
  unfold getEnabledRules in *. simpl.
  destruct (enabled rule); simpl; [|exact IH].
  unfold executeRuleSafely at 1.
  destruct (execute rule content) as [[ind|]|e]; simpl; rewrite IH; reflexivity.
Qed.

Lemma emittedSignals_app (rules1 rules2 : list DetectionRule) (content : jsstring) :
  emittedSignals (rules1 ++ rules2) content
  = emittedSignals rules1 content ++ emittedSignals rules2 content.
Proof.
  induction rules1 as [|rule rest IH]; simpl; [reflexivity|].
  destruct (enabled rule); [|exact IH].
  destruct (execute rule content) as [[ind|]|e]; simpl; rewrite IH; reflexivity.
Qed.

Lemma analyzeContent_emitted (toLowerCase : jsstring -> jsstring)
    (rules : list DetectionRule) (content : jsstring) (elapsed : Q) :
  isBlank content = false ->
  analyzeContent toLowerCase rules content elapsed
  = calculateFinalDecision (emittedSignals rules content)
      (createContentHash toLowerCase content) elapsed.
Proof.
  intros Hnb. unfold analyzeContent. rewrite Hnb. simpl.
  rewrite collect_emitted. reflexivity.
Qed.

(** C8. When an extractor throws on the input, [executeRuleSafely] turns
    the failure into "no signal", and the analysis completes with a
    verdict: the one of the engine without the failing extractor. On a
    text that is not blank the verdict lists exactly the signals of the
    remaining extractors, in rule order; its decision is the one the
    thresholds give to its score, its confidence the one computed from
    these signals and that score, and (for signals of the data model) its
    score the rounded quotient of their weighted sum by their weight sum;
    it carries the time the timer read and the fingerprint of the text.
    On a blank text the verdict is the empty one. *)
Theorem failing_rule_is_isolated
    (toLowerCase : jsstring -> jsstring) (before after : list DetectionRule)
    (rule : DetectionRule) (content e : jsstring) (elapsed : Q) :
  execute rule content = Threw e ->
  let remaining := emittedSignals before content ++ emittedSignals after content in
  let v := analyzeContent toLowerCase (before ++ rule :: after) content elapsed in
  executeRuleSafely rule content = None /\
  v = analyzeContent toLowerCase (before ++ after) content elapsed /\
  (isBlank content = false ->
   remaining = emittedSignals (before ++ after) content /\
   indicators v = remaining /\
   decision v = decisionOf (overallScore v) /\
   resultConfidence v = roundedConfidence remaining (overallScore v) /\
   processingTime v = elapsed /\
   contentHash v = createContentHash toLowerCase content /\
   (Forall validIndicator remaining -> overallScore v = roundedScore remaining)) /\
  (isBlank content = true ->
   v = createEmptyResult (createContentHash toLowerCase content) elapsed).
Proof.
  intros Hthrow remaining v.
  assert (Hem : emittedSignals (before ++ rule :: after) content = remaining).
  { rewrite emittedSignals_app. simpl. rewrite Hthrow.
    destruct (enabled rule); reflexivity. }
  split; [apply (executeRuleSafely_throw _ _ _ Hthrow)|].
  split; [|split].
  - unfold v. destruct (isBlank content) eqn:Hb.
    + unfold analyzeContent. rewrite Hb. reflexivity.
    + rewrite !analyzeContent_emitted by assumption.
      rewrite Hem, emittedSignals_app. reflexivity.
  - intros Hb. unfold v. rewrite analyzeContent_emitted by assumption. rewrite Hem.
    split; [unfold remaining; rewrite emittedSignals_app; reflexivity|].
    split; [reflexivity|]. split; [reflexivity|].
    split; [apply calculateConfidence_rounded|].
    split; [reflexivity|]. split; [reflexivity|].
    intros Hv. apply overallScore_rounded. exact Hv.
  - intros Hb. unfold v, analyzeContent. rewrite Hb. reflexivity.
Qed.

(** The instance of C8: a rule that throws, followed by a rule that emits
    a promotional signal of confidence 0.9 and weight 0.25. *)
Lemma failing_rule_is_isolated_witness :
  let content := js "Normal content here" in
  let remaining := emittedSignals [] content ++ emittedSignals [emittingRule] content in
  let v := analyzeContent asciiLower ([] ++ throwingRule :: [emittingRule]) content
             (8 # 10) in
  executeRuleSafely throwingRule content = None /\
  v = analyzeContent asciiLower ([] ++ [emittingRule]) content (8 # 10) /\
  (isBlank content = false ->
   remaining = emittedSignals ([] ++ [emittingRule]) content /\
   indicators v = remaining /\
   decision v = decisionOf (overallScore v) /\
   resultConfidence v = roundedConfidence remaining (overallScore v) /\
   processingTime v = 8 # 10 /\
   contentHash v = createContentHash asciiLower content /\
   (Forall validIndicator remaining -> overallScore v = roundedScore remaining)) /\
  (isBlank content = true ->
   v = createEmptyResult (createContentHash asciiLower content) (8 # 10)).
Proof.
  apply (failing_rule_is_isolated asciiLower [] [emittingRule] throwingRule
           (js "Normal content here") (js "filter unavailable") (8 # 10)).
  reflexivity.
Defined.

End EngineFacts.

(** ** The result cache *)

Module CacheFacts.

Import MemoryCache CacheSpec.
Local Open Scope Z_scope.

Lemma eqb_eq (a b : jsstring) : eqb a b = true <-> a = b.
Proof.
  unfold eqb. destruct (list_eq_dec Z.eq_dec a b); split; congruence.
Qed.

Lemma eqb_refl (a : jsstring) : eqb a a = true.
Proof. apply eqb_eq. reflexivity. Qed.

Lemma eqb_neq (a b : jsstring) : eqb a b = false <-> a <> b.
Proof.
  unfold eqb. destruct (list_eq_dec Z.eq_dec a b); split; congruence.
Qed.

Lemma mapGet_None (k : jsstring) (m : EntryMap) :
  mapGet k m = None <-> ~ In k (keys m).
Proof.
  induction m as [|[k' e] m IH]; simpl.
  - tauto.
  - destruct (eqb k' k) eqn:E.
    + apply eqb_eq in E. split; [discriminate | intros H; exfalso; apply H; auto].
    + apply eqb_neq in E. rewrite IH. tauto.
Qed.

Lemma mapGet_In (k : jsstring) (e : CacheEntry) (m : EntryMap) :
  mapGet k m = Some e -> In (k, e) m.
Proof.
  induction m as [|[k' e'] m IH]; simpl; [discriminate|].
  destruct (eqb k' k) eqn:E.
  - apply eqb_eq in E. intros [= ->]. subst. auto.
  - auto.
Qed.

Lemma mapGet_mapSet_same (k : jsstring) (e : CacheEntry) (m : EntryMap) :
  mapGet k (mapSet k e m) = Some e.
Proof.
  induction m as [|[k' e'] m IH]; simpl.
  - rewrite eqb_refl. reflexivity.
  - destruct (eqb k' k) eqn:E; simpl; rewrite E; auto.
Qed.


Lemma keys_mapDelete_incl (k : jsstring) (m : EntryMap) :
  incl (keys (mapDelete k m)) (keys m).
Proof.
  induction m as [|[k' e'] m IH]; simpl; [apply incl_refl|].
  destruct (eqb k' k); simpl.
  - apply incl_tl, incl_refl.
  - apply incl_cons; [left; reflexivity | apply incl_tl, IH].
Qed.

Lemma NoDup_mapDelete (k : jsstring) (m : EntryMap) :
  NoDup (keys m) -> NoDup (keys (mapDelete k m)).
Proof.
  induction m as [|[k' e'] m IH]; simpl; intros H; [exact H|].
  inversion H as [|? ? Hn Hd]; subst.
  destruct (eqb k' k); simpl; [exact Hd|].
  constructor; [|auto].
  intro Hin. apply Hn. apply (keys_mapDelete_incl k m). exact Hin.
Qed.

Lemma mapGet_mapDelete_same (k : jsstring) (m : EntryMap) :
  NoDup (keys m) -> mapGet k (mapDelete k m) = None.
Proof.
  induction m as [|[k' e'] m IH]; simpl; intros H; [reflexivity|].
  inversion H as [|? ? Hn Hd]; subst.
  destruct (eqb k' k) eqn:E; simpl.
  - apply eqb_eq in E. subst. apply mapGet_None. exact Hn.
  - rewrite E. auto.
Qed.

Lemma mapDelete_nth (m : EntryMap) (i : nat) (k : jsstring) (e : CacheEntry) :
  NoDup (keys m) -> nth_error m i = Some (k, e) ->
  mapDelete k m = firstn i m ++ skipn (S i) m.
Proof.
  revert i. induction m as [|[k' e'] m IH]; intros i Hd Hn.
  - destruct i; discriminate.
  - inversion Hd as [|? ? Hnot Hd']; subst. destruct i as [|i]; simpl in *.
    + injection Hn as -> ->. rewrite eqb_refl. reflexivity.
    + destruct (eqb k' k) eqn:E.
      * apply eqb_eq in E. subst. exfalso. apply Hnot.
        apply nth_error_In in Hn. apply (in_map fst) in Hn. exact Hn.
      * rewrite (IH i Hd' Hn). reflexivity.
Qed.

Lemma length_remove_nth (A : Type) (l : list A) (i : nat) (x : A) :
  nth_error l i = Some x -> S (length (firstn i l ++ skipn (S i) l)) = length l.
Proof.
  revert i. induction l as [|a l IH]; intros [|i] H; try discriminate; simpl in *.
  - reflexivity.
  - f_equal. apply IH. exact H.
Qed.

(** *** Choice of the entry to evict *)

Lemma evictStep_some (now : Z) (k0 kx : jsstring) (s0 : Q) (ex : CacheEntry) :
  evictStep now (Some k0, Some s0) (kx, ex)
  = if Qltb (score now ex) s0 then (Some kx, Some (score now ex)) else (Some k0, Some s0).
Proof. reflexivity. Qed.

Lemma evictStep_none (now : Z) (kx : jsstring) (ex : CacheEntry) :
  evictStep now (None, None) (kx, ex) = (Some kx, Some (score now ex)).
Proof. reflexivity. Qed.

Lemma evict_fold (now : Z) (l : EntryMap) (k0 : jsstring) (s0 : Q) :
  let r := fold_left (evictStep now) l (Some k0, Some s0) in
  (r = (Some k0, Some s0) /\
   forall j kj ej, nth_error l j = Some (kj, ej) -> (s0 <= score now ej)%Q)
  \/
  (exists i k e,
      r = (Some k, Some (score now e)) /\ (score now e < s0)%Q /\ lowestFirst now l i k e).
Proof.
  revert k0 s0. induction l as [|[kx ex] l IH]; intros k0 s0; cbv zeta.
  - left. split; [reflexivity|]. intros [|j]; discriminate.
  - simpl fold_left. rewrite evictStep_some.
    destruct (Qltb (score now ex) s0) eqn:E.
    + apply Qltb_true in E.
      destruct (IH kx (score now ex)) as [[Hr Hall] | (i & k & e & Hr & Hlt & Hn & Hmin & Hfirst)].
      * right. exists 0%nat, kx, ex.
        split; [exact Hr|]. split; [exact E|].
        split; [reflexivity|]. split.
        -- intros [|j] kj ej Hj; simpl in Hj.
           ++ injection Hj as <- <-. apply Qle_refl.
           ++ eapply Hall; eauto.
        -- intros j kj ej Hj. lia.
      * right. exists (S i), k, e.
        split; [exact Hr|]. split; [eapply Qlt_trans; eauto|].
        split; [exact Hn|]. split.
        -- intros [|j] kj ej Hj; simpl in Hj.
           ++ injection Hj as <- <-. apply Qlt_le_weak. exact Hlt.
           ++ eapply Hmin; eauto.
        -- intros [|j] kj ej Hji Hj; simpl in Hj.
           ++ injection Hj as <- <-. exact Hlt.
           ++ eapply Hfirst; [|eauto]. lia.
    + apply Qltb_false in E.
      destruct (IH k0 s0) as [[Hr Hall] | (i & k & e & Hr & Hlt & Hn & Hmin & Hfirst)].
      * left. split; [exact Hr|].
        intros [|j] kj ej Hj; simpl in Hj.
        -- injection Hj as <- <-. exact E.
        -- eapply Hall; eauto.
      * right. exists (S i), k, e.
        split; [exact Hr|]. split; [exact Hlt|].
        split; [exact Hn|]. split.
        -- intros [|j] kj ej Hj; simpl in Hj.
           ++ injection Hj as <- <-. apply Qlt_le_weak. eapply Qlt_le_trans; eauto.
           ++ eapply Hmin; eauto.
        -- intros [|j] kj ej Hji Hj; simpl in Hj.
           ++ injection Hj as <- <-. eapply Qlt_le_trans; eauto.
           ++ eapply Hfirst; [|eauto]. lia.
Qed.

Lemma evict_selects (now : Z) (m : EntryMap) :
  m <> [] ->
  exists i k e,
    lowestFirst now m i k e /\ fst (fold_left (evictStep now) m (None, None)) = Some k.
Proof.
  destruct m as [|[kx ex] l]; [congruence|]. intros _.
  simpl fold_left. rewrite evictStep_none.
  destruct (evict_fold now l kx (score now ex))
    as [[Hr Hall] | (i & k & e & Hr & Hlt & Hn & Hmin & Hfirst)].
  - exists 0%nat, kx, ex. cbv zeta in Hr. rewrite Hr. split; [|reflexivity].
    split; [reflexivity|]. split.
    + intros [|j] kj ej Hj; simpl in Hj.
      * injection Hj as <- <-. apply Qle_refl.
      * eapply Hall; eauto.
    + intros j kj ej Hj. lia.
  - exists (S i), k, e. cbv zeta in Hr. rewrite Hr. split; [|reflexivity].
    split; [exact Hn|]. split.
    + intros [|j] kj ej Hj; simpl in Hj.
      * injection Hj as <- <-. apply Qlt_le_weak. exact Hlt.
      * eapply Hmin; eauto.
    + intros [|j] kj ej Hji Hj; simpl in Hj.
      * injection Hj as <- <-. exact Hlt.
      * eapply Hfirst; [|eauto]. lia.
Qed.

Lemma evict_removes_lowest (now : Z) (m : EntryMap) :
  wellFormed m -> m <> [] ->
  exists i k e,
    lowestFirst now m i k e /\
    evictLeastRecentlyUsed now m = mapDelete k m /\
    mapDelete k m = firstn i m ++ skipn (S i) m.
Proof.
  intros [Hd Hne] Hm.
  destruct (evict_selects now m Hm) as (i & k & e & Hlow & Hk).
  exists i, k, e. split; [exact Hlow|].
  assert (Hnth : mapDelete k m = firstn i m ++ skipn (S i) m)
    by (destruct Hlow as [Hn _]; eapply mapDelete_nth; eauto).
  split; [|exact Hnth].
  unfold evictLeastRecentlyUsed.
  assert (Hsz : (mapSize m =? 0) = false).
  { apply Z.eqb_neq. unfold mapSize. destruct m; [congruence | simpl; lia]. }
  rewrite Hsz, Hk.
  destruct Hlow as [Hn _].
  assert (Hk0 : k <> []).
  { rewrite Forall_forall in Hne. apply Hne.
    apply nth_error_In in Hn. apply (in_map fst) in Hn. exact Hn. }
  destruct k as [|c k]; [congruence|].
  reflexivity.
Qed.

(** *** [set] with a new fingerprint *)


Lemma wellFormed_mapDelete (k : jsstring) (m : EntryMap) :
  wellFormed m -> wellFormed (mapDelete k m).
Proof.
  intros [Hd Hne]. split; [apply NoDup_mapDelete; exact Hd|].
  rewrite Forall_forall in *. intros x Hx. apply Hne.
  apply (keys_mapDelete_incl k m). exact Hx.
Qed.








(** *** Expiry *)

Lemma isExpired_iff (now : Z) (e : CacheEntry) :
  isExpired now e = true <-> expiredAt now e.
Proof.
  unfold isExpired, expiredAt. destruct (ttl e) as [[T|]|].
  - rewrite andb_true_iff, negb_true_iff, Z.eqb_neq, Z.ltb_lt. split.
    + intros [H1 H2]. exists T. auto.
    + intros (T' & [= <-] & H1 & H2). auto.
  - split; [discriminate | intros (T & H & _); discriminate].
  - split; [discriminate | intros (T & H & _); discriminate].
Qed.

Lemma keys_mapSet_incl (k : jsstring) (e : CacheEntry) (m : EntryMap) :
  incl (keys (mapSet k e m)) (k :: keys m).
Proof.
  induction m as [|[k' e'] m IH]; simpl.
  - apply incl_refl.
  - destruct (eqb k' k) eqn:E; simpl.
    + apply incl_tl, incl_refl.
    + intros x [Hx|Hx]; [right; left; exact Hx|].
      apply IH in Hx. destruct Hx as [Hx|Hx]; [left; exact Hx | right; right; exact Hx].
Qed.

Lemma NoDup_mapSet (k : jsstring) (e : CacheEntry) (m : EntryMap) :
  NoDup (keys m) -> NoDup (keys (mapSet k e m)).
Proof.
  induction m as [|[k' e'] m IH]; simpl; intros H.
  - constructor; [tauto | constructor].
  - inversion H as [|? ? Hn Hd]; subst.
    destruct (eqb k' k) eqn:E; simpl.
    + constructor; assumption.
    + constructor; [|auto]. intros Hin.
      apply keys_mapSet_incl in Hin. destruct Hin as [Hin|Hin].
      * apply eqb_neq in E. congruence.
      * tauto.
Qed.

Lemma NoDup_evict (now : Z) (m : EntryMap) :
  NoDup (keys m) -> NoDup (keys (evictLeastRecentlyUsed now m)).
Proof.
  intros H. unfold evictLeastRecentlyUsed.
  destruct (mapSize m =? 0); [exact H|].
  destruct (fst (fold_left (evictStep now) m (None, None))) as [[|c k]|];
    try exact H.
  apply NoDup_mapDelete. exact H.
Qed.

Lemma NoDup_set (c : t) (evictNow now : Z) (k : jsstring) (v : DetectionResult)
    (ttlArg : option Duration) :
  NoDup (keys (cache c)) -> NoDup (keys (cache (set evictNow now k v ttlArg c))).
Proof.
  intros H. unfold set. simpl. apply NoDup_mapSet.
  destruct (maxEntries c <=? mapSize (cache c)); [apply NoDup_evict|]; exact H.
Qed.

Lemma set_stores (c : t) (evictNow now : Z) (k : jsstring) (v : DetectionResult)
    (ttlArg : option Duration) :
  mapGet k (cache (set evictNow now k v ttlArg c))
  = Some {| value := v; timestamp := now; hits := 0;
            ttl := Some (ttlOrDefault ttlArg (defaultTtl c)) |}.
Proof. unfold set. simpl. apply mapGet_mapSet_same. Qed.

Lemma get_expired (c : t) (now : Z) (k : jsstring) (e : CacheEntry) :
  NoDup (keys (cache c)) ->
  mapGet k (cache c) = Some e ->
  expiredAt now e ->
  fst (get now k c) = None /\
  cache (snd (get now k c)) = mapDelete k (cache c) /\
  mapGet k (cache (snd (get now k c))) = None /\
  misses (snd (get now k c)) = misses c + 1 /\
  cacheHits (snd (get now k c)) = cacheHits c.
Proof.
  intros Hd Hget Hexp. apply isExpired_iff in Hexp.
  unfold get. rewrite Hget, Hexp. simpl.
  repeat split. apply mapGet_mapDelete_same. exact Hd.
Qed.

Lemma get_live (c : t) (now : Z) (k : jsstring) (e : CacheEntry) :
  mapGet k (cache c) = Some e ->
  isExpired now e = false ->
  fst (get now k c) = Some (value e) /\
  mapGet k (cache (snd (get now k c))) = Some (withHits e (hits e + 1)) /\
  misses (snd (get now k c)) = misses c /\
  cacheHits (snd (get now k c)) = cacheHits c + 1.
Proof.
  intros Hget Hexp. unfold get. rewrite Hget, Hexp. simpl.
  repeat split. apply mapGet_mapSet_same.
Qed.

Lemma cleanupLoop_spec (now : Z) (m : EntryMap) :
  snd (cleanupLoop now m) = filter (fun ke => negb (isExpired now (snd ke))) m /\
  fst (cleanupLoop now m)
  = Z.of_nat (length (filter (fun ke => isExpired now (snd ke)) m)).
Proof.
  induction m as [|[k e] m [IH1 IH2]]; simpl; [split; reflexivity|].
  destruct (isExpired now e); simpl; rewrite IH1, IH2; split; try reflexivity; lia.
Qed.

Lemma filter_split_length (A : Type) (f : A -> bool) (l : list A) :
  (length (filter f l) + length (filter (fun x => negb (f x)) l) = length l)%nat.
Proof.
  induction l as [|a l IH]; simpl; [reflexivity|].
  destruct (f a); simpl; lia.
Qed.

End CacheFacts.

Module CacheClaims.

Import MemoryCache CacheSpec CacheFacts Samples.
Local Open Scope Z_scope.




(** C6 (as amended). An entry stored by [set] with time-to-live T (the
    given ttl when it is non-zero, otherwise the default) with T non-zero:
    a [get] of its fingerprint at a time strictly after insertion time plus
    T reports it absent, removes it and counts a miss. [cleanup] removes
    exactly the entries whose stored time-to-live is non-zero and
    exceeded, keeps the others, and returns the number removed. *)
Theorem expired_entry_is_absent_and_removed :
  (forall (c : t) (evictNow now now' : Z) (k : jsstring) (v : DetectionResult)
          (ttlArg : option Duration) (T : Z),
      NoDup (keys (cache c)) ->
      ttlOrDefault ttlArg (defaultTtl c) = Millis T ->
      T <> 0 ->
      now + T < now' ->
      fst (get now' k (set evictNow now k v ttlArg c)) = None /\
      cache (snd (get now' k (set evictNow now k v ttlArg c)))
      = mapDelete k (cache (set evictNow now k v ttlArg c)) /\
      mapGet k (cache (snd (get now' k (set evictNow now k v ttlArg c)))) = None /\
      misses (snd (get now' k (set evictNow now k v ttlArg c))) = misses c + 1 /\
      cacheHits (snd (get now' k (set evictNow now k v ttlArg c))) = cacheHits c) /\
  (forall (c : t) (now : Z),
      cache (snd (cleanup now c))
      = filter (fun ke => negb (isExpired now (snd ke))) (cache c) /\
      (forall k e, In (k, e) (cache c) -> expiredAt now e ->
                   ~ In (k, e) (cache (snd (cleanup now c)))) /\
      (forall k e, In (k, e) (cache c) -> ~ expiredAt now e ->
                   In (k, e) (cache (snd (cleanup now c)))) /\
      fst (cleanup now c) = mapSize (cache c) - mapSize (cache (snd (cleanup now c)))).
Proof.
  split.
  - intros c evictNow now now' k v ttlArg T Hd HT HT0 Hlate.
    apply (get_expired (set evictNow now k v ttlArg c) now' k
             {| value := v; timestamp := now; hits := 0;
                ttl := Some (ttlOrDefault ttlArg (defaultTtl c)) |}).
    + apply NoDup_set. exact Hd.
    + apply set_stores.
    + exists T. simpl. rewrite HT. auto.
  - intros c now. unfold cleanup. simpl.
    destruct (cleanupLoop_spec now (cache c)) as [H1 H2].
    rewrite H1, H2. split; [reflexivity|]. split; [|split].
    + intros k e Hin Hexp Hin'. apply filter_In in Hin'. destruct Hin' as [_ Hf].
      apply isExpired_iff in Hexp. simpl in Hf. rewrite Hexp in Hf. discriminate.
    + intros k e Hin Hexp. apply filter_In. split; [exact Hin|]. simpl.
      destruct (isExpired now e) eqn:E; [|reflexivity].
      apply isExpired_iff in E. tauto.
    + unfold mapSize.
      pose proof (filter_split_length _ (fun ke => isExpired now (snd ke)) (cache c)).
      lia.
Qed.

(** The instance of C6 on the default cache: stored at time 1000 with
    ttl 500, read at time 1501; and [cleanup] at time 9000000 on
    [fullCache], whose entry A (stored at 0 for 7200000 ms) has expired
    and whose entry B has not. *)
Lemma expired_entry_is_absent_and_removed_witness :
  let stored := set 1000 1000 fingerprintA cleanVerdict (Some (Millis 500))
                  (create None None) in
  (fst (get 1501 fingerprintA stored) = None /\
   cache (snd (get 1501 fingerprintA stored)) = mapDelete fingerprintA (cache stored) /\
   mapGet fingerprintA (cache (snd (get 1501 fingerprintA stored))) = None /\
   misses (snd (get 1501 fingerprintA stored)) = misses (create None None) + 1 /\
   cacheHits (snd (get 1501 fingerprintA stored)) = cacheHits (create None None)) /\
  (cache (snd (cleanup 9000000 fullCache))
   = filter (fun ke => negb (isExpired 9000000 (snd ke))) (cache fullCache) /\
   fst (cleanup 9000000 fullCache)
   = mapSize (cache fullCache) - mapSize (cache (snd (cleanup 9000000 fullCache)))).
Proof.
  destruct expired_entry_is_absent_and_removed as [Hget Hcleanup]. split.
  - apply (Hget (create None None) 1000 1000 1501 fingerprintA cleanVerdict
             (Some (Millis 500)) 500).
    + constructor.
    + reflexivity.
    + discriminate.
    + reflexivity.
  - destruct (Hcleanup fullCache 9000000) as (H1 & _ & _ & H4). split; assumption.
Defined.

(** C6 as stated fails at the time-to-live 0. Given as the ttl argument
    to the default cache, 0 is replaced by the default hour: a read one
    millisecond after insertion, which is after insertion time plus 0, is
    a hit. In a cache built with default time-to-live 0 and the ttl
    omitted, the stored time-to-live is 0 and the entry is still served
    10^12 ms later. *)
Lemma set_with_zero_ttl_is_still_present :
  let zeroGiven := set 1000 1000 fingerprintA cleanVerdict (Some (Millis 0))
                     (create None None) in
  let zeroDefault := set 1000 1000 fingerprintA cleanVerdict None
                       (create None (Some (Millis 0))) in
  (fst (get 1001 fingerprintA zeroGiven) = Some cleanVerdict /\
   cacheHits (snd (get 1001 fingerprintA zeroGiven)) = 1 /\
   misses (snd (get 1001 fingerprintA zeroGiven)) = 0 /\
   getSize (snd (get 1001 fingerprintA zeroGiven)) = 1) /\
  (ttlOrDefault None (defaultTtl (create None (Some (Millis 0)))) = Millis 0 /\
   fst (get 1000000001000 fingerprintA zeroDefault) = Some cleanVerdict /\
   fst (cleanup 1000000001000 zeroDefault) = 0).
Proof. repeat split. Qed.

(** C10 (as amended). A [set] whose ttl argument is 0 or omitted stores
    the default time-to-live. When that default is a positive number of
    milliseconds and a given ttl is a number of milliseconds that is not
    negative, the stored time-to-live T is a positive number of
    milliseconds: the entry is present at its insertion time and expired
    at every time after insertion time plus T. A ttl argument [Infinity]
    is stored as given, and the entry then never expires. *)
Theorem set_ttl_zero_or_omitted_takes_default :
  (forall (c : t) (evictNow now : Z) (k : jsstring) (v : DetectionResult)
          (ttlArg : option Duration),
      ttlArg = None \/ ttlArg = Some (Millis 0) ->
      mapGet k (cache (set evictNow now k v ttlArg c))
      = Some {| value := v; timestamp := now; hits := 0; ttl := Some (defaultTtl c) |}) /\
  (forall (c : t) (evictNow now : Z) (k : jsstring) (v : DetectionResult)
          (ttlArg : option Duration) (D : Z),
      defaultTtl c = Millis D ->
      0 < D ->
      match ttlArg with
      | Some (Millis n) => 0 <= n
      | Some Infinity => False
      | None => True
      end ->
      exists (e : CacheEntry) (T : Z),
        mapGet k (cache (set evictNow now k v ttlArg c)) = Some e /\
        timestamp e = now /\
        ttl e = Some (Millis T) /\
        0 < T /\
        isExpired now e = false /\
        fst (get now k (set evictNow now k v ttlArg c)) = Some v /\
        (forall now', now + T < now' ->
                      isExpired now' e = true /\
                      fst (get now' k (set evictNow now k v ttlArg c)) = None)) /\
  (forall (c : t) (evictNow now : Z) (k : jsstring) (v : DetectionResult),
      mapGet k (cache (set evictNow now k v (Some Infinity) c))
      = Some {| value := v; timestamp := now; hits := 0; ttl := Some Infinity |} /\
      (forall now', fst (get now' k (set evictNow now k v (Some Infinity) c)) = Some v)).
Proof.
  split; [|split].
  - intros c evictNow now k v ttlArg [-> | ->]; apply set_stores.
  - intros c evictNow now k v ttlArg D HD Hdef Harg.
    assert (HT : exists T : Z, ttlOrDefault ttlArg (defaultTtl c) = Millis T /\ 0 < T).
    { unfold ttlOrDefault. destruct ttlArg as [[n|]|]; [| contradiction | eauto].
      destruct (n =? 0) eqn:E; [eauto|]. apply Z.eqb_neq in E. exists n. split; [reflexivity | lia]. }
    destruct HT as (T & HT & HT0).
    pose proof (set_stores c evictNow now k v ttlArg) as Hst. rewrite HT in Hst.
    exists {| value := v; timestamp := now; hits := 0; ttl := Some (Millis T) |}, T.
    assert (Hlive : isExpired now
                      {| value := v; timestamp := now; hits := 0;
                         ttl := Some (Millis T) |} = false).
    { unfold isExpired. simpl. apply andb_false_iff. right. apply Z.ltb_ge. lia. }
    split; [exact Hst|]. split; [reflexivity|]. split; [reflexivity|].
    split; [exact HT0|]. split; [exact Hlive|]. split.
    + destruct (get_live (set evictNow now k v ttlArg c) now k _ Hst Hlive) as [H _].
      exact H.
    + intros now' Hlate.
      assert (Hexp : isExpired now'
                       {| value := v; timestamp := now; hits := 0;
                          ttl := Some (Millis T) |} = true).
      { unfold isExpired. simpl. apply andb_true_iff. split.
        - apply negb_true_iff, Z.eqb_neq. lia.
        - apply Z.ltb_lt. exact Hlate. }
      split; [exact Hexp|].
      unfold get. rewrite Hst, Hexp. reflexivity.
  - intros c evictNow now k v.
    pose proof (set_stores c evictNow now k v (Some Infinity)) as Hst.
    split; [exact Hst|].
    intros now'. unfold get. rewrite Hst. reflexivity.
Qed.

(** The instance of C10 on the default cache: the ttl given as 0, and
    the ttl omitted. *)
Lemma set_ttl_zero_or_omitted_takes_default_witness :
  let zeroGiven := set 1000 1000 fingerprintA cleanVerdict (Some (Millis 0))
                     (create None None) in
  let omitted := set 1000 1000 fingerprintA cleanVerdict None (create None None) in
  mapGet fingerprintA (cache zeroGiven)
  = Some {| value := cleanVerdict; timestamp := 1000; hits := 0;
            ttl := Some (defaultTtl (create None None)) |} /\
  exists (e : CacheEntry) (T : Z),
    mapGet fingerprintA (cache omitted) = Some e /\
    timestamp e = 1000 /\
    ttl e = Some (Millis T) /\
    0 < T /\
    isExpired 1000 e = false /\
    fst (get 1000 fingerprintA omitted) = Some cleanVerdict /\
    (forall now', 1000 + T < now' ->
                  isExpired now' e = true /\
                  fst (get now' fingerprintA omitted) = None).
Proof.
  destruct set_ttl_zero_or_omitted_takes_default as (Hdefault & Hpositive & _). split.
  - apply (Hdefault (create None None) 1000 1000 fingerprintA cleanVerdict
             (Some (Millis 0))).
    right. reflexivity.
  - apply (Hpositive (create None None) 1000 1000 fingerprintA cleanVerdict None 3600000).
    + reflexivity.
    + reflexivity.
    + exact I.
Defined.

(** C10 as stated fails three ways. In a cache built with default
    time-to-live 0 the entry stored with the ttl omitted has time-to-live
    0 and is never expired (here still served after 10^12 ms). A ttl of
    [Infinity] given to the default cache is stored as given and the entry
    never expires either. And a negative ttl gives an entry that is
    expired at its own insertion time. *)
Lemma set_can_store_unexpiring_and_expired_entries :
  let zeroDefault := set 1000 1000 fingerprintA cleanVerdict None
                       (create None (Some (Millis 0))) in
  let endless := set 1000 1000 fingerprintA cleanVerdict (Some Infinity)
                   (create None None) in
  let negative := set 1000 1000 fingerprintA cleanVerdict (Some (Millis (-1)))
                    (create None None) in
  mapGet fingerprintA (cache zeroDefault)
  = Some {| value := cleanVerdict; timestamp := 1000; hits := 0;
            ttl := Some (Millis 0) |} /\
  fst (get 1000000001000 fingerprintA zeroDefault) = Some cleanVerdict /\
  mapGet fingerprintA (cache endless)
  = Some {| value := cleanVerdict; timestamp := 1000; hits := 0;
            ttl := Some Infinity |} /\
  fst (get 1000000001000 fingerprintA endless) = Some cleanVerdict /\
  fst (cleanup 1000000001000 endless) = 0 /\
  fst (get 1000 fingerprintA negative) = None.
Proof. repeat split. Qed.

End CacheClaims.

(** ** The edge-case classifier *)

Module EdgeFacts.

Import ContentPreprocessor EdgeCaseHandler EdgeSpec.

Lemma createSpecialResult_policy (now : Z) (content : jsstring) (d : DetectionDecision)
    (reason : jsstring) (inds : list SpamIndicator) :
  d <> allow -> policyVerdict now (createSpecialResult now content d reason inds).
Proof.
  intros Hd. unfold policyVerdict, createSpecialResult, policyScore. simpl.
  repeat split; assumption.
Qed.

Ltac split_conditions :=
  repeat match goal with
         | |- context [if ?b then _ else _] =>
             match type of b with bool => destruct b end
         end.

Ltac shape_of_handler :=
  intros; unfold wellShaped;
  split_conditions; simpl;
  first
    [ left; split; reflexivity
    | right; split; [reflexivity|];
      eexists; split; [reflexivity|];
      apply createSpecialResult_policy; discriminate ].

Lemma handleEmptyContent_shape (now : Z) (p : PreprocessedContent) :
  wellShaped now (handleEmptyContent now p).
Proof. unfold handleEmptyContent, createEmptyContentResult, notHandled. shape_of_handler. Qed.

Lemma handleExtremeLength_shape (now : Z) (p : PreprocessedContent) :
  wellShaped now (handleExtremeLength now p).
Proof.
  unfold handleExtremeLength, createShortContentResult, createLongContentResult, notHandled.
  shape_of_handler.
Qed.

Lemma handleEncodingIssues_shape (now : Z) (p : PreprocessedContent) :
  wellShaped now (handleEncodingIssues now p).
Proof.
  unfold handleEncodingIssues, createEncodingResult, notHandled. shape_of_handler.
Qed.

Lemma handleObfuscation_shape (now : Z) (p : PreprocessedContent) :
  wellShaped now (EdgeCaseHandler.handleObfuscation now p).
Proof.
  unfold EdgeCaseHandler.handleObfuscation, createObfuscationResult, notHandled.
  shape_of_handler.
Qed.

Lemma handleNonEnglishContent_shape (now : Z) (p : PreprocessedContent) :
  wellShaped now (handleNonEnglishContent now p).
Proof.
  unfold handleNonEnglishContent, createLanguageResult, notHandled. shape_of_handler.
Qed.

Lemma handleSpecialCharacters_shape (now : Z) (p : PreprocessedContent) :
  wellShaped now (handleSpecialCharacters now p).
Proof.
  unfold handleSpecialCharacters, createSpecialCharResult, notHandled. shape_of_handler.
Qed.

Lemma handleContextualEdgeCases_shape (now : Z) (p : PreprocessedContent) :
  wellShaped now (handleContextualEdgeCases now p).
Proof.
  unfold handleContextualEdgeCases, createContextualResult, notHandled. shape_of_handler.
Qed.

Lemma classify_shape (now : Z) (p : PreprocessedContent) :
  wellShaped now (classify now p).
Proof.
  unfold classify.
  destruct (handled (handleEmptyContent now p));
    [apply handleEmptyContent_shape|].
  destruct (handled (handleExtremeLength now p));
    [apply handleExtremeLength_shape|].
  destruct (handled (handleEncodingIssues now p));
    [apply handleEncodingIssues_shape|].
  destruct (handled (EdgeCaseHandler.handleObfuscation now p));
    [apply handleObfuscation_shape|].
  destruct (handled (handleNonEnglishContent now p));
    [apply handleNonEnglishContent_shape|].
  destruct (handled (handleSpecialCharacters now p));
    [apply handleSpecialCharacters_shape|].
  destruct (handled (handleContextualEdgeCases now p));
    [apply handleContextualEdgeCases_shape|].
  left. split; reflexivity.
Qed.

Lemma handleEdgeCase_shape (now : Z) (normalizeNFC : jsstring -> jsstring)
    (content : jsstring) :
  wellShaped now (handleEdgeCase now normalizeNFC content).
Proof.
  unfold handleEdgeCase.
  destruct (preprocess normalizeNFC content) as [p|message]; simpl.
  - apply classify_shape.
  - right. split; [reflexivity|]. eexists. split; [reflexivity|].
    apply createSpecialResult_policy. discriminate.
Qed.

(** *** The clock only enters the fingerprint *)

Ltac same_outcome :=
  intros; split_conditions; unfold sameOutcome; simpl; repeat split; reflexivity.

Lemma handleEmptyContent_clock (now now' : Z) (p : PreprocessedContent) :
  sameOutcome (handleEmptyContent now p) (handleEmptyContent now' p).
Proof. unfold handleEmptyContent, createEmptyContentResult, notHandled. same_outcome. Qed.

Lemma handleExtremeLength_clock (now now' : Z) (p : PreprocessedContent) :
  sameOutcome (handleExtremeLength now p) (handleExtremeLength now' p).
Proof.
  unfold handleExtremeLength, createShortContentResult, createLongContentResult, notHandled.
  same_outcome.
Qed.

Lemma handleEncodingIssues_clock (now now' : Z) (p : PreprocessedContent) :
  sameOutcome (handleEncodingIssues now p) (handleEncodingIssues now' p).
Proof. unfold handleEncodingIssues, createEncodingResult, notHandled. same_outcome. Qed.

Lemma handleObfuscation_clock (now now' : Z) (p : PreprocessedContent) :
  sameOutcome (EdgeCaseHandler.handleObfuscation now p)
    (EdgeCaseHandler.handleObfuscation now' p).
Proof.
  unfold EdgeCaseHandler.handleObfuscation, createObfuscationResult, notHandled.
  same_outcome.
Qed.

Lemma handleNonEnglishContent_clock (now now' : Z) (p : PreprocessedContent) :
  sameOutcome (handleNonEnglishContent now p) (handleNonEnglishContent now' p).
Proof. unfold handleNonEnglishContent, createLanguageResult, notHandled. same_outcome. Qed.

Lemma handleSpecialCharacters_clock (now now' : Z) (p : PreprocessedContent) :
  sameOutcome (handleSpecialCharacters now p) (handleSpecialCharacters now' p).
Proof.
  unfold handleSpecialCharacters, createSpecialCharResult, notHandled. same_outcome.
Qed.

Lemma handleContextualEdgeCases_clock (now now' : Z) (p : PreprocessedContent) :
  sameOutcome (handleContextualEdgeCases now p) (handleContextualEdgeCases now' p).
Proof.
  unfold handleContextualEdgeCases, createContextualResult, notHandled. same_outcome.
Qed.

Ltac next_handler H :=
  let Hh := fresh "Hh" in
  pose proof H as Hh; destruct Hh as [Hh _]; rewrite <- Hh; clear Hh;
  match goal with
  | |- context [if ?b then _ else _] => destruct b; [exact H|]
  end.

Lemma classify_clock (now now' : Z) (p : PreprocessedContent) :
  sameOutcome (classify now p) (classify now' p).
Proof.
  unfold classify. cbv zeta.
  next_handler (handleEmptyContent_clock now now' p).
  next_handler (handleExtremeLength_clock now now' p).
  next_handler (handleEncodingIssues_clock now now' p).
  next_handler (handleObfuscation_clock now now' p).
  next_handler (handleNonEnglishContent_clock now now' p).
  next_handler (handleSpecialCharacters_clock now now' p).
  next_handler (handleContextualEdgeCases_clock now now' p).
  repeat split.
Qed.

Lemma handleEdgeCase_clock (now now' : Z) (normalizeNFC : jsstring -> jsstring)
    (content : jsstring) :
  sameOutcome (handleEdgeCase now normalizeNFC content)
    (handleEdgeCase now' normalizeNFC content).
Proof.
  unfold handleEdgeCase.
  destruct (preprocess normalizeNFC content) as [p|message]; simpl.
  - apply classify_clock.
  - repeat split.
Qed.

(** What the service sees of the classifier's outcome at any clock
    reading, from [shortCircuits]. *)
Lemma shortCircuits_true (normalizeNFC : jsstring -> jsstring) (content : jsstring)
    (now : Z) :
  shortCircuits normalizeNFC content = true ->
  isBlank content = false /\
  exists v v0,
    handled (handleEdgeCase now normalizeNFC content) = true /\
    result (handleEdgeCase now normalizeNFC content) = Some v /\
    result (handleEdgeCase 0 normalizeNFC content) = Some v0 /\
    policyVerdict now v /\
    decision v = decision v0 /\ overallScore v = overallScore v0 /\
    resultConfidence v = resultConfidence v0 /\ indicators v = indicators v0.
Proof.
  unfold shortCircuits. rewrite !andb_true_iff, negb_true_iff.
  intros [[Hb Hh] Hr]. split; [exact Hb|].
  destruct (handleEdgeCase_clock now 0 normalizeNFC content) as (S1 & _ & _ & S4).
  destruct (handleEdgeCase_shape now normalizeNFC content)
    as [[Hf _] | (Ht & v & Hv & Hp)]; [congruence|].
  rewrite Hv in S4.
  destruct (result (handleEdgeCase 0 normalizeNFC content)) as [v0|]; [|contradiction].
  destruct S4 as (D1 & D2 & D3 & D4 & _).
  exists v, v0.
  split; [exact Ht|]. split; [exact Hv|]. split; [reflexivity|]. split; [exact Hp|].
  repeat split; assumption.
Qed.

Lemma shortCircuits_false (normalizeNFC : jsstring -> jsstring) (content : jsstring)
    (now : Z) :
  shortCircuits normalizeNFC content = false ->
  isBlank content = false ->
  handled (handleEdgeCase now normalizeNFC content) = false.
Proof.
  unfold shortCircuits. intros H Hb. rewrite Hb in H. simpl in H.
  destruct (handleEdgeCase_clock now 0 normalizeNFC content) as (S1 & _).
  destruct (handleEdgeCase_shape 0 normalizeNFC content)
    as [[Hf _] | (Ht & v & Hv & _)]; [congruence|].
  rewrite Ht, Hv in H. discriminate.
Qed.

End EdgeFacts.

Module EdgeClaims.

Import ContentPreprocessor EdgeCaseHandler EdgeSpec EdgeFacts TextSamples.

(** C7. When the edge-case classifier handles an input, its verdict
    carries the policy constants: overallScore 0.9 for reject, 0.5 for
    flag and 0.3 otherwise, which is under_review, and confidence 0.8; and
    the enhanced service returns that verdict, whatever its rules and
    cache, with only the processing time replaced. *)
Theorem short_circuit_verdict_carries_policy_constants
    (now : Z) (normalizeNFC : jsstring -> jsstring) (content : jsstring) :
  handled (handleEdgeCase now normalizeNFC content) = true ->
  exists v,
    result (handleEdgeCase now normalizeNFC content) = Some v /\
    (decision v = reject -> overallScore v = 9 # 10) /\
    (decision v = flag -> overallScore v = 5 # 10) /\
    (decision v <> reject -> decision v <> flag ->
     decision v = under_review /\ overallScore v = 3 # 10) /\
    resultConfidence v = 8 # 10 /\
    (forall toLowerCase svc clk,
        EnhancedSpamDetectionService.atEdge clk = now ->
        isBlank content = false ->
        fst (EnhancedSpamDetectionService.analyzeContent toLowerCase normalizeNFC
               svc content clk)
        = Returned (withProcessingTime v (EnhancedSpamDetectionService.elapsed clk))).
Proof.
  intros Hh.
  destruct (handleEdgeCase_shape now normalizeNFC content)
    as [[Hf _] | (_ & v & Hv & Hs & Hc & Hd & _)]; [congruence|].
  exists v. split; [exact Hv|].
  split; [intros E; rewrite Hs, E; reflexivity|].
  split; [intros E; rewrite Hs, E; reflexivity|].
  split; [|split; [exact Hc|]].
  - intros H1 H2. rewrite Hs. destruct (decision v); try congruence. split; reflexivity.
  - intros toLowerCase svc clk Hclk Hb.
    unfold EnhancedSpamDetectionService.analyzeContent,
      EnhancedSpamDetectionService.analyzeContentBody.
    rewrite Hb, Hclk, Hh, Hv. reflexivity.
Qed.

(** The instance of C7 on the two-letter text "hi". *)
Lemma short_circuit_verdict_carries_policy_constants_witness :
  exists v,
    result (handleEdgeCase 1000 asciiNormalizeNFC shortText) = Some v /\
    (decision v = reject -> overallScore v = 9 # 10) /\
    (decision v = flag -> overallScore v = 5 # 10) /\
    (decision v <> reject -> decision v <> flag ->
     decision v = under_review /\ overallScore v = 3 # 10) /\
    resultConfidence v = 8 # 10 /\
    (forall toLowerCase svc clk,
        EnhancedSpamDetectionService.atEdge clk = 1000%Z ->
        isBlank shortText = false ->
        fst (EnhancedSpamDetectionService.analyzeContent toLowerCase asciiNormalizeNFC
               svc shortText clk)
        = Returned (withProcessingTime v (EnhancedSpamDetectionService.elapsed clk))).
Proof.
  apply (short_circuit_verdict_carries_policy_constants 1000 asciiNormalizeNFC shortText).
  vm_compute. reflexivity.
Defined.

(** C9 (as amended). For normalized content whose language is unknown and
    whose word count is between 6 and 19 inclusive, and that no earlier
    predicate matched, the classifier short-circuits with recommended
    action flag. *)
Theorem unknown_language_six_to_nineteen_words_is_flagged
    (now : Z) (p : PreprocessedContent) :
  language (metadata p) = js "unknown" ->
  (6 <= wordCount (metadata p))%Z ->
  (wordCount (metadata p) <= 19)%Z ->
  handled (handleEmptyContent now p) = false ->
  handled (handleExtremeLength now p) = false ->
  handled (handleEncodingIssues now p) = false ->
  handled (EdgeCaseHandler.handleObfuscation now p) = false ->
  classify now p
  = {| handled := true;
       reason := js "Unknown language with suspicious length";
       recommendedAction := act_flag;
       result := Some (createLanguageResult now (original p)) |}
  /\ (forall normalizeNFC content,
         preprocess normalizeNFC content = Returned p ->
         handled (handleEdgeCase now normalizeNFC content) = true /\
         recommendedAction (handleEdgeCase now normalizeNFC content) = act_flag).
Proof.
  intros Hl H6 H19 H1 H2 H3 H4.
  assert (Hc : classify now p
               = {| handled := true;
                    reason := js "Unknown language with suspicious length";
                    recommendedAction := act_flag;
                    result := Some (createLanguageResult now (original p)) |}).
  { unfold classify. cbv zeta. rewrite H1, H2, H3, H4.
    unfold handleNonEnglishContent. cbv zeta. rewrite Hl.
    assert (E1 : (5 <? wordCount (metadata p))%Z = true) by (apply Z.ltb_lt; lia).
    assert (E2 : (wordCount (metadata p) <? 20)%Z = true) by (apply Z.ltb_lt; lia).
    rewrite E1, E2. reflexivity. }
  split; [exact Hc|].
  intros normalizeNFC content Hp. unfold handleEdgeCase. rewrite Hp. simpl.
  rewrite Hc. split; reflexivity.
Qed.

(** The instance of C9 on a six-word text without English function words. *)
Lemma unknown_language_six_to_nineteen_words_is_flagged_witness :
  classify 1000 (sixWordsPreprocessed)
  = {| handled := true;
       reason := js "Unknown language with suspicious length";
       recommendedAction := act_flag;
       result := Some (createLanguageResult 1000 (original (sixWordsPreprocessed))) |}
  /\ (forall normalizeNFC content,
         preprocess normalizeNFC content = Returned (sixWordsPreprocessed) ->
         handled (handleEdgeCase 1000 normalizeNFC content) = true /\
         recommendedAction (handleEdgeCase 1000 normalizeNFC content) = act_flag).
Proof.
  apply (unknown_language_six_to_nineteen_words_is_flagged 1000 (sixWordsPreprocessed));
    vm_compute; try reflexivity; discriminate.
Defined.

(** C9 as stated fails at five words: the text below has five words and
    unknown language, no earlier predicate matches it, and the classifier
    does not short-circuit. *)
Lemma unknown_language_five_words_is_not_flagged :
  preprocess asciiNormalizeNFC fiveWords = Returned (fiveWordsPreprocessed) /\
  language (metadata (fiveWordsPreprocessed)) = js "unknown" /\
  wordCount (metadata (fiveWordsPreprocessed)) = 5%Z /\
  handled (handleEmptyContent 1000 (fiveWordsPreprocessed)) = false /\
  handled (handleExtremeLength 1000 (fiveWordsPreprocessed)) = false /\
  handled (handleEncodingIssues 1000 (fiveWordsPreprocessed)) = false /\
  handled (EdgeCaseHandler.handleObfuscation 1000 (fiveWordsPreprocessed)) = false /\
  handleEdgeCase 1000 asciiNormalizeNFC fiveWords
  = {| handled := false;
       reason := js "No edge cases detected";
       result := None;
       recommendedAction := act_allow |}.
Proof. vm_compute. repeat split. Qed.

End EdgeClaims.

(** ** The two services *)

Module ServiceFacts.

Import MemoryCache CacheSpec CacheFacts EdgeCaseHandler EdgeSpec EdgeFacts.

Lemma trimStart_nil (s : jsstring) :
  trimStart s = [] <-> forallb isWhiteSpace s = true.
Proof.
  induction s as [|c s IH]; simpl; [tauto|].
  destruct (isWhiteSpace c); simpl; [exact IH|].
  split; discriminate.
Qed.

Lemma trimStart_head (s : jsstring) :
  trimStart s = [] \/ exists c r, trimStart s = c :: r /\ isWhiteSpace c = false.
Proof.
  induction s as [|c s IH]; simpl; [left; reflexivity|].
  destruct (isWhiteSpace c) eqn:E; [exact IH|].
  right. exists c, s. split; [reflexivity | exact E].
Qed.

Lemma forallb_rev (A : Type) (f : A -> bool) (l : list A) :
  forallb f (rev l) = forallb f l.
Proof.
  induction l as [|a l IH]; simpl; [reflexivity|].
  rewrite forallb_app, IH. simpl. rewrite andb_true_r. apply andb_comm.
Qed.

Lemma trim_nil (s : jsstring) :
  trim s = [] <-> forallb isWhiteSpace s = true.
Proof.
  unfold trim, trimEnd. split.
  - intros H.
    assert (H1 : trimStart (rev (trimStart s)) = []).
    { destruct (trimStart (rev (trimStart s))) as [|a l]; [reflexivity|].
      simpl in H. destruct (rev l); discriminate. }
    apply trimStart_nil in H1. rewrite forallb_rev in H1.
    destruct (trimStart_head s) as [E | (c & r & E & Hc)].
    + apply trimStart_nil. exact E.
    + rewrite E in H1. simpl in H1. rewrite Hc in H1. discriminate.
  - intros H. apply trimStart_nil in H. rewrite H. reflexivity.
Qed.

(** [isBlank] holds exactly of the empty text and of the texts made of
    white space only. *)
Lemma isBlank_spec (content : jsstring) :
  isBlank content = true <-> forallb isWhiteSpace content = true.
Proof.
  unfold isBlank. destruct content as [|c s]; [simpl; tauto|].
  rewrite <- trim_nil, Z.eqb_eq.
  destruct (trim (c :: s)); simpl; split; intros H; try reflexivity; try discriminate; lia.
Qed.

(** *** The service of the controllers *)

Lemma service_throws_iff_blank (toLowerCase : jsstring -> jsstring)
    (svc : SpamDetectionService.t) (content : jsstring) (clk : SpamDetectionService.Clock) :
  (isBlank content = true ->
   SpamDetectionService.analyzeContent toLowerCase svc content clk
   = (Threw (js "Content cannot be empty"), svc)) /\
  (isBlank content = false ->
   exists v,
     fst (SpamDetectionService.analyzeContent toLowerCase svc content clk) = Returned v).
Proof.
  unfold SpamDetectionService.analyzeContent. split; intros Hb; rewrite Hb.
  - reflexivity.
  - destruct (fst (get _ _ _)); simpl; eexists; reflexivity.
Qed.

(** The service of the controllers raises exactly on the empty text and
    on the texts made of white space only. *)
Lemma service_raises_iff_whitespace_only (toLowerCase : jsstring -> jsstring)
    (svc : SpamDetectionService.t) (content : jsstring) (clk : SpamDetectionService.Clock) :
  fst (SpamDetectionService.analyzeContent toLowerCase svc content clk)
  = Threw (js "Content cannot be empty")
  <-> forallb isWhiteSpace content = true.
Proof.
  rewrite <- isBlank_spec.
  destruct (service_throws_iff_blank toLowerCase svc content clk) as [H1 H2].
  destruct (isBlank content) eqn:Hb.
  - rewrite (H1 eq_refl). simpl. tauto.
  - destruct (H2 eq_refl) as [v Hv]. rewrite Hv. split; discriminate.
Qed.

(** On the service of the controllers a second call before expiry is
    served from the cache: the first verdict with the processing time set
    to 0.1, under the same fingerprint. *)
Lemma service_analyze_twice (toLowerCase : jsstring -> jsstring)
    (svc : SpamDetectionService.t) (content : jsstring)
    (clk1 clk2 : SpamDetectionService.Clock) :
  isBlank content = false ->
  (forall e,
      mapGet (createContentHash toLowerCase content)
        (cache (SpamDetectionService.cache
                  (snd (SpamDetectionService.analyzeContent toLowerCase svc content clk1))))
      = Some e ->
      isExpired (SpamDetectionService.atGet clk2) e = false) ->
  exists v1,
    fst (SpamDetectionService.analyzeContent toLowerCase svc content clk1) = Returned v1 /\
    fst (SpamDetectionService.analyzeContent toLowerCase
           (snd (SpamDetectionService.analyzeContent toLowerCase svc content clk1))
           content clk2)
    = Returned (withProcessingTime v1 (1 # 10)).
Proof.
  intros Hb Hlive. revert Hlive.
  unfold SpamDetectionService.analyzeContent. rewrite Hb. unfold get.
  destruct (mapGet (createContentHash toLowerCase content)
              (cache (SpamDetectionService.cache svc))) as [e|] eqn:Hget.
  - destruct (isExpired (SpamDetectionService.atGet clk1) e) eqn:Hexp; simpl.
    + intros Hlive. eexists. split; [reflexivity|].
      rewrite mapGet_mapSet_same.
      rewrite (Hlive _ (mapGet_mapSet_same _ _ _)). reflexivity.
    + intros Hlive. eexists. split; [reflexivity|].
      rewrite mapGet_mapSet_same.
      rewrite (Hlive _ (mapGet_mapSet_same _ _ _)). reflexivity.
  - simpl. intros Hlive. eexists. split; [reflexivity|].
    rewrite mapGet_mapSet_same.
    rewrite (Hlive _ (mapGet_mapSet_same _ _ _)). reflexivity.
Qed.

(** *** The enhanced service *)

Lemma enhanced_always_returns (toLowerCase normalizeNFC : jsstring -> jsstring)
    (svc : EnhancedSpamDetectionService.t) (content : jsstring)
    (clk : EnhancedSpamDetectionService.Clock) :
  exists v,
    fst (EnhancedSpamDetectionService.analyzeContent toLowerCase normalizeNFC svc content clk)
    = Returned v.
Proof.
  unfold EnhancedSpamDetectionService.analyzeContent.
  destruct (fst (EnhancedSpamDetectionService.analyzeContentBody _ _ _ _ _));
    simpl; eexists; reflexivity.
Qed.

Lemma enhanced_blank (toLowerCase normalizeNFC : jsstring -> jsstring)
    (svc : EnhancedSpamDetectionService.t) (content : jsstring)
    (clk : EnhancedSpamDetectionService.Clock) :
  isBlank content = true ->
  EnhancedSpamDetectionService.analyzeContent toLowerCase normalizeNFC svc content clk
  = (Returned
       {| decision := under_review;
          overallScore := 5 # 10;
          resultConfidence := 1 # 10;
          indicators := [];
          processingTime := EnhancedSpamDetectionService.elapsed clk;
          contentHash := createContentHash toLowerCase content |},
     {| EnhancedSpamDetectionService.rules := EnhancedSpamDetectionService.rules svc;
        EnhancedSpamDetectionService.cache := EnhancedSpamDetectionService.cache svc;
        EnhancedSpamDetectionService.performanceMonitor :=
          PerformanceMonitor.recordError
            (EnhancedSpamDetectionService.performanceMonitor svc) |}).
Proof.
  intros Hb.
  unfold EnhancedSpamDetectionService.analyzeContent,
    EnhancedSpamDetectionService.analyzeContentBody.
  rewrite Hb. reflexivity.
Qed.

Lemma enhanced_short_circuit (toLowerCase normalizeNFC : jsstring -> jsstring)
    (svc : EnhancedSpamDetectionService.t) (content : jsstring)
    (clk : EnhancedSpamDetectionService.Clock) (v : DetectionResult) :
  isBlank content = false ->
  handled (handleEdgeCase (EnhancedSpamDetectionService.atEdge clk) normalizeNFC content)
  = true ->
  result (handleEdgeCase (EnhancedSpamDetectionService.atEdge clk) normalizeNFC content)
  = Some v ->
  EnhancedSpamDetectionService.analyzeContent toLowerCase normalizeNFC svc content clk
  = (Returned (withProcessingTime v (EnhancedSpamDetectionService.elapsed clk)),
     {| EnhancedSpamDetectionService.rules := EnhancedSpamDetectionService.rules svc;
        EnhancedSpamDetectionService.cache := EnhancedSpamDetectionService.cache svc;
        EnhancedSpamDetectionService.performanceMonitor :=
          PerformanceMonitor.recordProcessingTime (EnhancedSpamDetectionService.elapsed clk)
            (EnhancedSpamDetectionService.performanceMonitor svc) |}).
Proof.
  intros Hb Hh Hv.
  unfold EnhancedSpamDetectionService.analyzeContent,
    EnhancedSpamDetectionService.analyzeContentBody.
  rewrite Hb, Hh, Hv. reflexivity.
Qed.

(** Without short-circuit the first call leaves the verdict it returns in
    the cache, under the fingerprint of the text. *)
Lemma enhanced_cached_path (toLowerCase normalizeNFC : jsstring -> jsstring)
    (svc : EnhancedSpamDetectionService.t) (content : jsstring)
    (clk : EnhancedSpamDetectionService.Clock) :
  isBlank content = false ->
  handled (handleEdgeCase (EnhancedSpamDetectionService.atEdge clk) normalizeNFC content)
  = false ->
  exists x e,
    fst (EnhancedSpamDetectionService.analyzeContent toLowerCase normalizeNFC svc content clk)
    = Returned (withProcessingTime x (EnhancedSpamDetectionService.elapsed clk)) /\
    mapGet (createContentHash toLowerCase content)
      (cache (EnhancedSpamDetectionService.cache
                (snd (EnhancedSpamDetectionService.analyzeContent toLowerCase normalizeNFC
                        svc content clk))))
    = Some e /\
    value e = x.
Proof.
  intros Hb Hh.
  unfold EnhancedSpamDetectionService.analyzeContent,
    EnhancedSpamDetectionService.analyzeContentBody.
  rewrite Hb, Hh. cbv zeta.
  unfold get.
  destruct (mapGet (createContentHash toLowerCase content)
              (cache (EnhancedSpamDetectionService.cache svc))) as [e|] eqn:Hget.
  - destruct (isExpired (EnhancedSpamDetectionService.atGet clk) e) eqn:Hexp; simpl.
    + eexists. eexists. split; [reflexivity|]. split; [apply mapGet_mapSet_same | reflexivity].
    + exists (value e), (withHits e (hits e + 1)).
      split; [reflexivity|]. split; [apply mapGet_mapSet_same | reflexivity].
  - simpl. eexists. eexists. split; [reflexivity|]. split; [apply mapGet_mapSet_same | reflexivity].
Qed.

(** A call that finds a live entry under the fingerprint serves its
    value. *)
Lemma enhanced_cache_hit (toLowerCase normalizeNFC : jsstring -> jsstring)
    (svc : EnhancedSpamDetectionService.t) (content : jsstring)
    (clk : EnhancedSpamDetectionService.Clock) (e : CacheEntry) :
  isBlank content = false ->
  handled (handleEdgeCase (EnhancedSpamDetectionService.atEdge clk) normalizeNFC content)
  = false ->
  mapGet (createContentHash toLowerCase content)
    (cache (EnhancedSpamDetectionService.cache svc)) = Some e ->
  isExpired (EnhancedSpamDetectionService.atGet clk) e = false ->
  fst (EnhancedSpamDetectionService.analyzeContent toLowerCase normalizeNFC svc content clk)
  = Returned (withProcessingTime (value e) (EnhancedSpamDetectionService.elapsed clk)) /\
  cacheHits (EnhancedSpamDetectionService.cache
               (snd (EnhancedSpamDetectionService.analyzeContent toLowerCase normalizeNFC
                       svc content clk)))
  = (cacheHits (EnhancedSpamDetectionService.cache svc) + 1)%Z.
Proof.
  intros Hb Hh Hget Hexp.
  unfold EnhancedSpamDetectionService.analyzeContent,
    EnhancedSpamDetectionService.analyzeContentBody.
  rewrite Hb, Hh. cbv zeta. unfold get. rewrite Hget, Hexp. split; reflexivity.
Qed.

End ServiceFacts.

Module ServiceClaims.

Import MemoryCache CacheSpec CacheFacts EdgeCaseHandler EdgeSpec EdgeFacts ServiceFacts.
Import TextSamples.

(** C1, at the empty text. The enhanced service throws "Content cannot be
    empty" inside its own [try] block, so the error is caught and the
    caller receives the fallback verdict; the service behind the
    controllers raises the error. *)
Theorem enhanced_analyzeContent_empty_text_returns_fallback
    (toLowerCase normalizeNFC : jsstring -> jsstring)
    (enhanced : EnhancedSpamDetectionService.t) (clk : EnhancedSpamDetectionService.Clock)
    (service : SpamDetectionService.t) (clk' : SpamDetectionService.Clock) :
  fst (EnhancedSpamDetectionService.analyzeContent toLowerCase normalizeNFC enhanced [] clk)
  = Returned
      {| decision := under_review;
         overallScore := 5 # 10;
         resultConfidence := 1 # 10;
         indicators := [];
         processingTime := EnhancedSpamDetectionService.elapsed clk;
         contentHash := createContentHash toLowerCase [] |}
  /\ fst (SpamDetectionService.analyzeContent toLowerCase service [] clk')
     = Threw (js "Content cannot be empty").
Proof. split; reflexivity. Qed.

(** A short-circuit verdict carries the fingerprint "edge_case_" followed
    by the clock reading of its own call, and the call leaves the cache as
    it was. *)
Lemma short_circuit_fingerprint_is_clock_stamp
    (toLowerCase normalizeNFC : jsstring -> jsstring)
    (svc : EnhancedSpamDetectionService.t) (content : jsstring)
    (clk : EnhancedSpamDetectionService.Clock) :
  shortCircuits normalizeNFC content = true ->
  exists v,
    fst (EnhancedSpamDetectionService.analyzeContent toLowerCase normalizeNFC svc content clk)
    = Returned v /\
    contentHash v = js "edge_case_" ++ decimal (EnhancedSpamDetectionService.atEdge clk) /\
    EnhancedSpamDetectionService.cache
      (snd (EnhancedSpamDetectionService.analyzeContent toLowerCase normalizeNFC
              svc content clk))
    = EnhancedSpamDetectionService.cache svc.
Proof.
  intros Hs.
  destruct (shortCircuits_true normalizeNFC content
              (EnhancedSpamDetectionService.atEdge clk) Hs)
    as (Hb & v & v0 & Hh & Hv & _ & (_ & _ & _ & _ & Hc) & _).
  rewrite (enhanced_short_circuit toLowerCase normalizeNFC svc content clk v Hb Hh Hv).
  eexists. split; [reflexivity|]. split; [exact Hc | reflexivity].
Qed.

(** C4 (as amended). Two calls of analyze on the same text, the second on
    the state the first leaves and with the cached entry not expired,
    return verdicts with the same decision, overallScore, confidence and
    signals. When the edge-case classifier does not short-circuit the
    text, the second verdict is the first with only the processing time
    replaced, so the fingerprint is the same, and for a non-blank text it
    is served from the cache. *)
Theorem analyze_twice_same_decision_and_score
    (toLowerCase normalizeNFC : jsstring -> jsstring)
    (svc : EnhancedSpamDetectionService.t) (content : jsstring)
    (clk1 clk2 : EnhancedSpamDetectionService.Clock) :
  (forall e,
      mapGet (createContentHash toLowerCase content)
        (cache (EnhancedSpamDetectionService.cache
                  (snd (EnhancedSpamDetectionService.analyzeContent toLowerCase
                          normalizeNFC svc content clk1)))) = Some e ->
      isExpired (EnhancedSpamDetectionService.atGet clk2) e = false) ->
  exists v1 v2,
    fst (EnhancedSpamDetectionService.analyzeContent toLowerCase normalizeNFC svc content clk1)
    = Returned v1 /\
    fst (EnhancedSpamDetectionService.analyzeContent toLowerCase normalizeNFC
           (snd (EnhancedSpamDetectionService.analyzeContent toLowerCase normalizeNFC
                   svc content clk1))
           content clk2)
    = Returned v2 /\
    decision v2 = decision v1 /\
    overallScore v2 = overallScore v1 /\
    resultConfidence v2 = resultConfidence v1 /\
    indicators v2 = indicators v1 /\
    (shortCircuits normalizeNFC content = false ->
     v2 = withProcessingTime v1 (EnhancedSpamDetectionService.elapsed clk2) /\
     contentHash v2 = contentHash v1 /\
     (isBlank content = false ->
      cacheHits (EnhancedSpamDetectionService.cache
                   (snd (EnhancedSpamDetectionService.analyzeContent toLowerCase
                           normalizeNFC
                           (snd (EnhancedSpamDetectionService.analyzeContent toLowerCase
                                   normalizeNFC svc content clk1))
                           content clk2)))
      = (cacheHits (EnhancedSpamDetectionService.cache
                      (snd (EnhancedSpamDetectionService.analyzeContent toLowerCase
                              normalizeNFC svc content clk1))) + 1)%Z)).
Proof.
  intros Hlive.
  destruct (isBlank content) eqn:Hb.
  - assert (Hs : shortCircuits normalizeNFC content = false)
      by (unfold shortCircuits; rewrite Hb; reflexivity).
    rewrite !(enhanced_blank toLowerCase normalizeNFC _ content _ Hb).
    eexists. eexists. split; [reflexivity|]. split; [reflexivity|].
    simpl. repeat split; try reflexivity; congruence.
  - destruct (shortCircuits normalizeNFC content) eqn:Hs.
    + destruct (shortCircuits_true normalizeNFC content
                  (EnhancedSpamDetectionService.atEdge clk1) Hs)
        as (_ & v1 & v0 & Hh1 & Hv1 & Hv0 & Hp1 & A1 & A2 & A3 & A4).
      destruct (shortCircuits_true normalizeNFC content
                  (EnhancedSpamDetectionService.atEdge clk2) Hs)
        as (_ & v2 & v0' & Hh2 & Hv2 & Hv0' & Hp2 & B1 & B2 & B3 & B4).
      assert (v0' = v0) by congruence. subst v0'.
      rewrite (enhanced_short_circuit toLowerCase normalizeNFC svc content clk1 v1 Hb Hh1 Hv1).
      rewrite (enhanced_short_circuit toLowerCase normalizeNFC _ content clk2 v2 Hb Hh2 Hv2).
      eexists. eexists. split; [reflexivity|]. split; [reflexivity|]. simpl.
      repeat split; congruence.
    + pose proof (shortCircuits_false normalizeNFC content
                    (EnhancedSpamDetectionService.atEdge clk1) Hs Hb) as Hh1.
      pose proof (shortCircuits_false normalizeNFC content
                    (EnhancedSpamDetectionService.atEdge clk2) Hs Hb) as Hh2.
      destruct (enhanced_cached_path toLowerCase normalizeNFC svc content clk1 Hb Hh1)
        as (x & e & Hr1 & Hget & Hval).
      destruct (enhanced_cache_hit toLowerCase normalizeNFC _ content clk2 e Hb Hh2 Hget
                  (Hlive e Hget)) as [Hr2 Hhits].
      exists (withProcessingTime x (EnhancedSpamDetectionService.elapsed clk1)),
             (withProcessingTime (value e) (EnhancedSpamDetectionService.elapsed clk2)).
      split; [exact Hr1|]. split; [exact Hr2|]. rewrite Hval. simpl.
      repeat split; try reflexivity; try congruence; assumption.
Qed.

(** The instance of C4 on a text the classifier lets through: the first
    call computes and stores the verdict, the second serves it. *)
Lemma analyze_twice_same_decision_and_score_witness :
  exists v1 v2,
    fst (EnhancedSpamDetectionService.analyzeContent asciiToLowerCase asciiNormalizeNFC
           freshService plainText firstCall)
    = Returned v1 /\
    fst (EnhancedSpamDetectionService.analyzeContent asciiToLowerCase asciiNormalizeNFC
           (snd (EnhancedSpamDetectionService.analyzeContent asciiToLowerCase
                   asciiNormalizeNFC freshService plainText firstCall))
           plainText secondCall)
    = Returned v2 /\
    decision v2 = decision v1 /\
    overallScore v2 = overallScore v1 /\
    resultConfidence v2 = resultConfidence v1 /\
    indicators v2 = indicators v1 /\
    (shortCircuits asciiNormalizeNFC plainText = false ->
     v2 = withProcessingTime v1 (EnhancedSpamDetectionService.elapsed secondCall) /\
     contentHash v2 = contentHash v1 /\
     (isBlank plainText = false ->
      cacheHits (EnhancedSpamDetectionService.cache
                   (snd (EnhancedSpamDetectionService.analyzeContent asciiToLowerCase
                           asciiNormalizeNFC
                           (snd (EnhancedSpamDetectionService.analyzeContent
                                   asciiToLowerCase asciiNormalizeNFC freshService
                                   plainText firstCall))
                           plainText secondCall)))
      = (cacheHits (EnhancedSpamDetectionService.cache
                      (snd (EnhancedSpamDetectionService.analyzeContent asciiToLowerCase
                              asciiNormalizeNFC freshService plainText firstCall))) + 1)%Z)).
Proof.
  apply (analyze_twice_same_decision_and_score asciiToLowerCase asciiNormalizeNFC
           freshService plainText firstCall secondCall).
  vm_compute. intros e H. injection H as <-. reflexivity.
Defined.

(** C4 as stated fails on a text the classifier short-circuits: for "hi",
    analysed at clock readings 1000 and 2000 on a fresh service, the two
    verdicts carry different fingerprints, and the cache stays empty, so
    the second verdict is not served from it. *)
Lemma analyze_twice_fingerprints_differ :
  isBlank shortText = false /\
  fst (EnhancedSpamDetectionService.analyzeContent asciiToLowerCase asciiNormalizeNFC
         freshService shortText firstCall)
  = Returned
      {| decision := flag; overallScore := 5 # 10; resultConfidence := 8 # 10;
         indicators := []; processingTime := 1;
         contentHash := js "edge_case_1000" |} /\
  fst (EnhancedSpamDetectionService.analyzeContent asciiToLowerCase asciiNormalizeNFC
         (snd (EnhancedSpamDetectionService.analyzeContent asciiToLowerCase
                 asciiNormalizeNFC freshService shortText firstCall))
         shortText secondCall)
  = Returned
      {| decision := flag; overallScore := 5 # 10; resultConfidence := 8 # 10;
         indicators := []; processingTime := 1 # 10;
         contentHash := js "edge_case_2000" |} /\
  js "edge_case_1000" <> js "edge_case_2000" /\
  cache (EnhancedSpamDetectionService.cache
           (snd (EnhancedSpamDetectionService.analyzeContent asciiToLowerCase
                   asciiNormalizeNFC
                   (snd (EnhancedSpamDetectionService.analyzeContent asciiToLowerCase
                           asciiNormalizeNFC freshService shortText firstCall))
                   shortText secondCall)))
  = [].
Proof.
  split; [reflexivity|]. split; [vm_compute; reflexivity|].
  split; [vm_compute; reflexivity|]. split; [vm_compute; discriminate | reflexivity].
Qed.

End ServiceClaims.

(** ** Evaluations *)

Module Evaluations.

Import Samples TextSamples.

Example sha256_abc :
  Sha256.sha256Hex (js "abc")
  = js "ba7816bf8f01cfea414140de5dae2223b00361a396177a9cb410ff61f20015ad".
Proof. vm_compute. reflexivity. Qed.

Example fingerprint_ignores_case_and_margins :
  createContentHash asciiToLowerCase (js "  Hi ") = js "8f434346648f6b96" /\
  createContentHash asciiToLowerCase (js "hi") = js "8f434346648f6b96".
Proof. split; vm_compute; reflexivity. Qed.

Example leet_text_is_rewritten :
  ContentPreprocessor.preprocess asciiNormalizeNFC (js "Fr33 m0n3y n0w!!!")
  = Returned
      {| ContentPreprocessor.original := js "Fr33 m0n3y n0w!!!";
         ContentPreprocessor.normalized := js "Free money nowiiis";
         ContentPreprocessor.metadata :=
           {| ContentPreprocessor.hasEmojis := false;
              ContentPreprocessor.hasUrls := false;
              ContentPreprocessor.hasHashtags := false;
              ContentPreprocessor.hasMentions := false;
              ContentPreprocessor.wordCount := 3;
              ContentPreprocessor.characterCount := 18;
              ContentPreprocessor.language := js "unknown";
              ContentPreprocessor.encoding := js "utf-8" |} |}.
Proof. vm_compute. reflexivity. Qed.

(** On symbol substitution the outcome recommends flag while its verdict
    is built with decision reject, hence with score 0.9. *)
Example symbol_substitution_is_flagged_with_reject_verdict :
  let r := EdgeCaseHandler.handleEdgeCase 1000 asciiNormalizeNFC (js "Fr33 m0n3y!!!") in
  EdgeCaseHandler.handled r = true /\
  EdgeCaseHandler.reason r = js "Excessive symbol substitution detected" /\
  EdgeCaseHandler.recommendedAction r = EdgeCaseHandler.act_flag /\
  option_map decision (EdgeCaseHandler.result r) = Some reject /\
  option_map overallScore (EdgeCaseHandler.result r) = Some (9 # 10).
Proof. vm_compute. repeat split. Qed.

Example plain_text_is_not_handled :
  EdgeCaseHandler.handled
    (EdgeCaseHandler.handleEdgeCase 1000 asciiNormalizeNFC plainText) = false.
Proof. vm_compute. reflexivity. Qed.

(** In [fullCache] at time 3600000 entry A scores 4 hits per hour and
    entry B 2: B is evicted. *)
Example full_cache_evicts_B :
  map fst (MemoryCache.cache
             (MemoryCache.set 3600000 3600001 fingerprintC cleanVerdict None fullCache))
  = [fingerprintA; fingerprintC].
Proof. vm_compute. reflexivity. Qed.

(** Doubles of the examples: 0.1, 0.1 + 0.2 = 0.30000000000000004,
    0.1 * 3 = 0.30000000000000004, 1 / 3, and 2^53 + 1, which is not a
    double and rounds to 2^53. *)
Example double_arithmetic :
  (fl (1 # 10) == 3602879701896397 # 36028797018963968)%Q /\
  (fadd (fl (1 # 10)) (fl (2 # 10)) == 1351079888211149 # 4503599627370496)%Q /\
  (fmul (fl (1 # 10)) 3 == 1351079888211149 # 4503599627370496)%Q /\
  (fdiv 1 3 == 6004799503160661 # 18014398509481984)%Q /\
  (fadd (inject_Z (2 ^ 53)) 1 == inject_Z (2 ^ 53))%Q.
Proof. repeat split; vm_compute; reflexivity. Qed.

(** In [nearTieCache] at time 3300000 the scores of A and B are both
    36/11 as fractions. In doubles A's age is 0.9166666666666666 hours and
    its score 3.272727272727273, B's age 0.3055555555555556 hours and its
    score 3.2727272727272725: B is evicted, not the first-encountered A. *)
Example near_tie_evicts_B :
  (inject_Z 3 / (inject_Z 3300000 / inject_Z 3600000)
   == inject_Z 1 / (inject_Z 1100000 / inject_Z 3600000))%Q /\
  (map (fun ke => MemoryCache.score 3300000 (snd ke)) (MemoryCache.cache nearTieCache)
   = [fl (3272727272727273 # 1000000000000000);
      fl (32727272727272725 # 10000000000000000)]) /\
  map fst (MemoryCache.cache
             (MemoryCache.set 3300000 3300002 fingerprintC cleanVerdict None nearTieCache))
  = [fingerprintA; fingerprintC].
Proof. vm_compute. repeat split. Qed.

(** 0.9 * 0.25 + 0.75 * 0.15 over 0.25 + 0.15 is 0.84375 in doubles too;
    the confidence (2/3) * 1 * ((0.9 + 0.75) / 2) comes out as
    0.5499999999999999. *)
Example aggregate_two_signals :
  let r := SpamDetectionEngine.calculateFinalDecision twoSignals fingerprintA (5 # 10) in
  (overallScore r == 27 # 32)%Q /\ decision r = reject /\
  (resultConfidence r == 4953959590107545 # 9007199254740992)%Q /\
  resultConfidence r = fl (5499999999999999 # 10000000000000000).
Proof. vm_compute. repeat split. Qed.

(** One signal of confidence 0.8 and weight 0.2: 0.8 * 0.2 / 0.2 is
    0.8000000000000002 in doubles, above 0.8, so the score factor is 1 and
    the confidence 0.26666666666666666. *)
Example aggregate_one_signal_at_the_upper_bound :
  let r := SpamDetectionEngine.calculateFinalDecision [signalOf (8 # 10) (2 # 10)]
             fingerprintA (5 # 10) in
  (overallScore r == 7205759403792795 # 9007199254740992)%Q /\
  (fl (8 # 10) < overallScore r)%Q /\
  decision r = reject /\
  (resultConfidence r == 4803839602528529 # 18014398509481984)%Q.
Proof. vm_compute. repeat split. Qed.

Example whitespace_only_text :
  fst (EnhancedSpamDetectionService.analyzeContent asciiToLowerCase asciiNormalizeNFC
         freshService (js "   ") firstCall)
  = Returned
      {| decision := under_review; overallScore := 5 # 10; resultConfidence := 1 # 10;
         indicators := []; processingTime := 1;
         contentHash := js "e3b0c44298fc1c14" |}.
Proof. vm_compute. reflexivity. Qed.

End Evaluations.

(* ================================================================== *)
(** * Further properties *)

(** ** The cache as a whole *)

Module CacheExtras.

Import CacheStats MemoryCache CacheSpec CacheFacts Samples CacheSamples.
Local Open Scope Z_scope.

(** *** Round trip *)

(** X1. A verdict stored by [set] is returned by a [get] of the same
    fingerprint made before its time-to-live has run out (or at any time
    when the stored time-to-live is 0), whatever the state and capacity of
    the cache; the read counts as a hit and sets the entry's hit count
    to 1. *)
Theorem get_after_set_returns_the_verdict
    (c : MemoryCache.t) (evictNow now now' : Z) (k : jsstring) (v : DetectionResult)
    (ttlArg : option Duration) :
  match ttlOrDefault ttlArg (defaultTtl c) with
  | Millis T => T = 0 \/ now' <= now + T
  | Infinity => True
  end ->
  fst (get now' k (set evictNow now k v ttlArg c)) = Some v /\
  mapGet k (cache (snd (get now' k (set evictNow now k v ttlArg c))))
  = Some {| value := v; timestamp := now; hits := 1;
            ttl := Some (ttlOrDefault ttlArg (defaultTtl c)) |} /\
  cacheHits (snd (get now' k (set evictNow now k v ttlArg c))) = cacheHits c + 1 /\
  MemoryCache.misses (snd (get now' k (set evictNow now k v ttlArg c))) = MemoryCache.misses c.
Proof.
  intros Hlive.
  assert (Hexp : isExpired now'
                   {| value := v; timestamp := now; hits := 0;
                      ttl := Some (ttlOrDefault ttlArg (defaultTtl c)) |} = false).
  { unfold isExpired. simpl.
    destruct (ttlOrDefault ttlArg (defaultTtl c)) as [T|]; [|reflexivity].
    apply andb_false_iff. destruct Hlive as [H0 | Hle].
    - left. rewrite H0. reflexivity.
    - right. apply Z.ltb_ge. exact Hle. }
  destruct (get_live (set evictNow now k v ttlArg c) now' k _
              (set_stores c evictNow now k v ttlArg) Hexp)
    as (H1 & H2 & H3 & H4).
  repeat split; assumption.
Qed.

Lemma get_after_set_returns_the_verdict_witness :
  let stored := set 990 1000 fingerprintC cleanVerdict (Some (Millis 500)) fullCache in
  fst (get 1500 fingerprintC stored) = Some cleanVerdict /\
  mapGet fingerprintC (cache (snd (get 1500 fingerprintC stored)))
  = Some {| value := cleanVerdict; timestamp := 1000; hits := 1;
            ttl := Some (ttlOrDefault (Some (Millis 500)) (defaultTtl fullCache)) |} /\
  cacheHits (snd (get 1500 fingerprintC stored)) = cacheHits fullCache + 1 /\
  MemoryCache.misses (snd (get 1500 fingerprintC stored)) = MemoryCache.misses fullCache.
Proof.
  apply (get_after_set_returns_the_verdict fullCache 990 1000 1500 fingerprintC
           cleanVerdict (Some (Millis 500))).
  right. vm_compute. discriminate.
Defined.

(** *** What one [get] does *)

Lemma keys_mapSet_present (k : jsstring) (e e' : CacheEntry) (m : EntryMap) :
  mapGet k m = Some e -> keys (mapSet k e' m) = keys m.
Proof.
  induction m as [|[k0 e0] m IH]; simpl; [discriminate|].
  destruct (eqb k0 k) eqn:E; simpl.
  - reflexivity.
  - intros H. rewrite (IH H). reflexivity.
Qed.

(** X2. Every [get] counts exactly once: it returns a verdict and adds one
    hit exactly when the fingerprint is stored and not expired, and then
    the verdict is the stored one; otherwise it returns null and adds one
    miss. It never adds a key, and never changes the capacity or the
    default time-to-live. *)
Theorem get_counts_exactly_once (c : MemoryCache.t) (now : Z) (k : jsstring) :
  ((exists e, mapGet k (cache c) = Some e /\ isExpired now e = false /\
              fst (get now k c) = Some (value e) /\
              cacheHits (snd (get now k c)) = cacheHits c + 1 /\
              MemoryCache.misses (snd (get now k c)) = MemoryCache.misses c /\
              keys (cache (snd (get now k c))) = keys (cache c))
   \/
   ((mapGet k (cache c) = None \/
     exists e, mapGet k (cache c) = Some e /\ isExpired now e = true) /\
    fst (get now k c) = None /\
    cacheHits (snd (get now k c)) = cacheHits c /\
    MemoryCache.misses (snd (get now k c)) = MemoryCache.misses c + 1 /\
    incl (keys (cache (snd (get now k c)))) (keys (cache c)))) /\
  maxEntries (snd (get now k c)) = maxEntries c /\
  defaultTtl (snd (get now k c)) = defaultTtl c.
Proof.
  unfold get.
  destruct (mapGet k (cache c)) as [e|] eqn:Hget.
  - destruct (isExpired now e) eqn:Hexp; simpl.
    + split; [|split; reflexivity]. right.
      split; [right; exists e; split; [reflexivity | exact Hexp]|].
      repeat split. apply keys_mapDelete_incl.
    + split; [|split; reflexivity]. left. exists e.
      repeat split; try assumption.
      apply (keys_mapSet_present k e). exact Hget.
  - simpl. split; [|split; reflexivity]. right.
    split; [left; reflexivity|]. repeat split. apply incl_refl.
Qed.

(** *** [delete] *)

Lemma mapGet_mapDelete_other (k k' : jsstring) (m : EntryMap) :
  k <> k' -> mapGet k' (mapDelete k m) = mapGet k' m.
Proof.
  intros Hne. induction m as [|[k0 e0] m IH]; simpl; [reflexivity|].
  destruct (eqb k0 k) eqn:E.
  - apply eqb_eq in E. subst k0.
    destruct (eqb k k') eqn:E'; [apply eqb_eq in E'; congruence | reflexivity].
  - simpl. destruct (eqb k0 k'); [reflexivity | exact IH].
Qed.

Lemma mapSize_mapDelete (k : jsstring) (m : EntryMap) :
  mapSize (mapDelete k m)
  = mapSize m - (match mapGet k m with Some _ => 1 | None => 0 end).
Proof.
  unfold mapSize. induction m as [|[k0 e0] m IH]; simpl mapDelete; simpl mapGet.
  - reflexivity.
  - destruct (eqb k0 k); simpl length; [lia|].
    rewrite !Nat2Z.inj_succ, IH. lia.
Qed.

(** X3. [delete] reports whether the fingerprint was stored; afterwards
    the fingerprint is absent, every other fingerprint maps to what it
    mapped to before, the size has dropped by one exactly when the
    fingerprint was stored, and the hit and miss counters are as before. *)
Theorem delete_removes_only_that_fingerprint (c : MemoryCache.t) (k : jsstring) :
  NoDup (keys (cache c)) ->
  (fst (delete k c) = true <-> In k (keys (cache c))) /\
  mapGet k (cache (snd (delete k c))) = None /\
  (forall k', k' <> k ->
              mapGet k' (cache (snd (delete k c))) = mapGet k' (cache c)) /\
  getSize (snd (delete k c))
  = getSize c - (if fst (delete k c) then 1 else 0) /\
  cacheHits (snd (delete k c)) = cacheHits c /\
  MemoryCache.misses (snd (delete k c)) = MemoryCache.misses c.
Proof.
  intros Hd. unfold delete, getSize. simpl.
  split; [|split; [|split; [|split; [|split; reflexivity]]]].
  - pose proof (mapGet_None k (cache c)) as Hn.
    destruct (mapGet k (cache c)); split; intros H; try reflexivity.
    + destruct (in_dec (list_eq_dec Z.eq_dec) k (keys (cache c))) as [Hin|Hnin];
        [exact Hin|].
      apply Hn in Hnin. discriminate.
    + discriminate.
    + exfalso. apply (proj1 Hn eq_refl). exact H.
  - apply mapGet_mapDelete_same. exact Hd.
  - intros k' Hne. apply mapGet_mapDelete_other. congruence.
  - rewrite mapSize_mapDelete. destruct (mapGet k (cache c)); reflexivity.
Qed.

Lemma delete_removes_only_that_fingerprint_witness :
  (fst (delete fingerprintA fullCache) = true <-> In fingerprintA (keys (cache fullCache))) /\
  mapGet fingerprintA (cache (snd (delete fingerprintA fullCache))) = None /\
  (forall k', k' <> fingerprintA ->
              mapGet k' (cache (snd (delete fingerprintA fullCache)))
              = mapGet k' (cache fullCache)) /\
  getSize (snd (delete fingerprintA fullCache))
  = getSize fullCache - (if fst (delete fingerprintA fullCache) then 1 else 0) /\
  cacheHits (snd (delete fingerprintA fullCache)) = cacheHits fullCache /\
  MemoryCache.misses (snd (delete fingerprintA fullCache)) = MemoryCache.misses fullCache.
Proof.
  apply (delete_removes_only_that_fingerprint fullCache fingerprintA).
  repeat constructor; simpl; intuition discriminate.
Defined.

(** *** [has] *)

Lemma mapGet_mapSet_other (k k' : jsstring) (e : CacheEntry) (m : EntryMap) :
  k <> k' -> mapGet k' (mapSet k e m) = mapGet k' m.
Proof.
  intros Hne. induction m as [|[k0 e0] m IH]; simpl.
  - destruct (eqb k k') eqn:E; [apply eqb_eq in E; congruence | reflexivity].
  - destruct (eqb k0 k) eqn:E; simpl.
    + apply eqb_eq in E. subst k0.
      destruct (eqb k k') eqn:E'; [apply eqb_eq in E'; congruence | reflexivity].
    + destruct (eqb k0 k'); [reflexivity | exact IH].
Qed.

(** X4. [has] answers true exactly when a [get] at the same clock reading
    would return a verdict, but it counts neither a hit nor a miss and does
    not raise the entry's hit count: when it answers true the cache is
    left as it was, and when it answers false the fingerprint is absent
    afterwards; no other fingerprint is touched. *)
Theorem has_agrees_with_get_and_counts_nothing
    (c : MemoryCache.t) (now : Z) (k : jsstring) :
  NoDup (keys (cache c)) ->
  (fst (has now k c) = true <-> exists v, fst (get now k c) = Some v) /\
  (fst (has now k c) = true -> snd (has now k c) = c) /\
  (fst (has now k c) = false -> mapGet k (cache (snd (has now k c))) = None) /\
  (forall k', k' <> k ->
              mapGet k' (cache (snd (has now k c))) = mapGet k' (cache c)) /\
  cacheHits (snd (has now k c)) = cacheHits c /\
  MemoryCache.misses (snd (has now k c)) = MemoryCache.misses c.
Proof.
  intros Hd. unfold has, get.
  destruct (mapGet k (cache c)) as [e|] eqn:Hget.
  - destruct (isExpired now e); simpl.
    + split; [split; [discriminate | intros [v Hv]; discriminate]|].
      split; [discriminate|].
      split; [intros _; apply mapGet_mapDelete_same; exact Hd|].
      split; [|split; reflexivity].
      intros k' Hne. apply mapGet_mapDelete_other. congruence.
    + split; [split; [intros _; exists (value e); reflexivity | reflexivity]|].
      split; [reflexivity|].
      split; [discriminate|].
      split; [reflexivity | split; reflexivity].
  - simpl.
    split; [split; [discriminate | intros [v Hv]; discriminate]|].
    split; [discriminate|].
    split; [intros _; exact Hget|].
    split; [reflexivity | split; reflexivity].
Qed.

Lemma has_agrees_with_get_and_counts_nothing_witness :
  (fst (has 5000 fingerprintA fullCache) = true
   <-> exists v, fst (get 5000 fingerprintA fullCache) = Some v) /\
  (fst (has 5000 fingerprintA fullCache) = true ->
   snd (has 5000 fingerprintA fullCache) = fullCache) /\
  (fst (has 5000 fingerprintA fullCache) = false ->
   mapGet fingerprintA (cache (snd (has 5000 fingerprintA fullCache))) = None) /\
  (forall k', k' <> fingerprintA ->
              mapGet k' (cache (snd (has 5000 fingerprintA fullCache)))
              = mapGet k' (cache fullCache)) /\
  cacheHits (snd (has 5000 fingerprintA fullCache)) = cacheHits fullCache /\
  MemoryCache.misses (snd (has 5000 fingerprintA fullCache)) = MemoryCache.misses fullCache.
Proof.
  apply (has_agrees_with_get_and_counts_nothing fullCache 5000 fingerprintA).
  repeat constructor; simpl; intuition discriminate.
Defined.

(** *** [cleanup] *)

Lemma mapGet_filter (f : CacheEntry -> bool) (k : jsstring) (m : EntryMap) :
  NoDup (keys m) ->
  mapGet k (filter (fun ke => f (snd ke)) m)
  = match mapGet k m with
    | Some e => if f e then Some e else None
    | None => None
    end.
Proof.
  induction m as [|[k0 e0] m IH]; simpl; intros Hd; [reflexivity|].
  inversion Hd as [|? ? Hn Hd']; subst.
  destruct (eqb k0 k) eqn:E.
  - apply eqb_eq in E. subst k0.
    destruct (f e0) eqn:Hf; simpl.
    + rewrite eqb_refl. reflexivity.
    + rewrite (IH Hd').
      assert (Hnone : mapGet k m = None) by (apply mapGet_None; exact Hn).
      rewrite Hnone. reflexivity.
  - destruct (f e0); simpl; [rewrite E|]; apply IH; exact Hd'.
Qed.

Lemma filter_idempotent (A : Type) (f : A -> bool) (l : list A) :
  filter f (filter f l) = filter f l.
Proof.
  induction l as [|a l IH]; simpl; [reflexivity|].
  destruct (f a) eqn:E; simpl; [rewrite E, IH|]; auto.
Qed.

Lemma filter_none (A : Type) (f : A -> bool) (l : list A) :
  filter (fun x => negb (f x)) (filter f l) = [].
Proof.
  induction l as [|a l IH]; simpl; [reflexivity|].
  destruct (f a) eqn:E; simpl; [rewrite E|]; auto.
Qed.

(** X5. [cleanup] removes exactly the entries expired at its clock reading
    and returns their number; the entries left keep their order and none
    of them is expired. A second [cleanup] at the same reading removes
    nothing, and a [get] at that reading returns the same with or without
    the [cleanup] before it. *)
Theorem cleanup_removes_exactly_the_expired (c : MemoryCache.t) (now : Z) :
  NoDup (keys (cache c)) ->
  cache (snd (cleanup now c))
  = filter (fun ke => negb (isExpired now (snd ke))) (cache c) /\
  fst (cleanup now c) = getSize c - getSize (snd (cleanup now c)) /\
  (forall k e, In (k, e) (cache (snd (cleanup now c))) -> isExpired now e = false) /\
  cleanup now (snd (cleanup now c)) = (0, snd (cleanup now c)) /\
  (forall k, fst (get now k (snd (cleanup now c))) = fst (get now k c)) /\
  cacheHits (snd (cleanup now c)) = cacheHits c /\
  MemoryCache.misses (snd (cleanup now c)) = MemoryCache.misses c.
Proof.
  intros Hd. unfold cleanup, getSize. simpl.
  destruct (cleanupLoop_spec now (cache c)) as [Hs Hn].
  rewrite Hs, Hn.
  split; [reflexivity|]. split.
  { unfold mapSize.
    pose proof (filter_split_length _ (fun ke => isExpired now (snd ke)) (cache c)).
    lia. }
  split.
  { intros k e Hin. apply filter_In in Hin. destruct Hin as [_ H].
    simpl in H. apply negb_true_iff in H. exact H. }
  split.
  { destruct (cleanupLoop_spec now
                (filter (fun ke => negb (isExpired now (snd ke))) (cache c)))
      as [Hs' Hn'].
    rewrite (surjective_pairing (cleanupLoop now _)). rewrite Hs', Hn'.
    rewrite filter_idempotent.
    replace (filter (fun ke => isExpired now (snd ke))
               (filter (fun ke => negb (isExpired now (snd ke))) (cache c)))
      with (@nil (jsstring * CacheEntry)).
    - reflexivity.
    - symmetry.
      rewrite <- (filter_none _ (fun ke => negb (isExpired now (snd ke))) (cache c)) at 1.
      apply filter_ext. intros a. rewrite negb_involutive. reflexivity. }
  split; [|split; reflexivity].
  intros k. unfold get. simpl.
  rewrite (mapGet_filter (fun e => negb (isExpired now e)) k (cache c) Hd).
  destruct (mapGet k (cache c)) as [e|]; [|reflexivity].
  destruct (isExpired now e) eqn:E; simpl; [reflexivity|].
  rewrite E. reflexivity.
Qed.

Lemma cleanup_removes_exactly_the_expired_witness :
  cache (snd (cleanup 5000 fullCache))
  = filter (fun ke => negb (isExpired 5000 (snd ke))) (cache fullCache) /\
  fst (cleanup 5000 fullCache) = getSize fullCache - getSize (snd (cleanup 5000 fullCache)) /\
  (forall k e, In (k, e) (cache (snd (cleanup 5000 fullCache))) -> isExpired 5000 e = false) /\
  cleanup 5000 (snd (cleanup 5000 fullCache)) = (0, snd (cleanup 5000 fullCache)) /\
  (forall k, fst (get 5000 k (snd (cleanup 5000 fullCache))) = fst (get 5000 k fullCache)) /\
  cacheHits (snd (cleanup 5000 fullCache)) = cacheHits fullCache /\
  MemoryCache.misses (snd (cleanup 5000 fullCache)) = MemoryCache.misses fullCache.
Proof.
  apply (cleanup_removes_exactly_the_expired fullCache 5000).
  repeat constructor; simpl; intuition discriminate.
Defined.

(** *** The size bound *)

Lemma mapSize_mapSet (k : jsstring) (e : CacheEntry) (m : EntryMap) :
  mapSize (mapSet k e m)
  = mapSize m + (match mapGet k m with Some _ => 0 | None => 1 end).
Proof.
  unfold mapSize. induction m as [|[k0 e0] m IH]; simpl mapSet; simpl mapGet.
  - reflexivity.
  - destruct (eqb k0 k); simpl length; [lia|].
    rewrite !Nat2Z.inj_succ, IH. lia.
Qed.

Lemma wellFormed_mapSet (k : jsstring) (e : CacheEntry) (m : EntryMap) :
  wellFormed m -> k <> [] -> wellFormed (mapSet k e m).
Proof.
  intros [Hd Hne] Hk. split; [apply NoDup_mapSet; exact Hd|].
  rewrite Forall_forall in *. intros x Hx.
  apply (keys_mapSet_incl k e m) in Hx. destruct Hx as [<- | Hx]; auto.
Qed.

Lemma wellFormed_filter (f : jsstring * CacheEntry -> bool) (m : EntryMap) :
  wellFormed m -> wellFormed (filter f m).
Proof.
  intros [Hd Hne]. unfold wellFormed, keys in *.
  induction m as [|[k0 e0] m IH]; simpl; [split; constructor|].
  inversion Hd as [|? ? Hn Hd']; subst. inversion Hne as [|? ? Hk Hne']; subst.
  destruct (IH Hd' Hne') as [IH1 IH2].
  destruct (f (k0, e0)); simpl; [|split; assumption].
  split; constructor; try assumption.
  intros Hin. apply Hn. apply in_map_iff in Hin. destruct Hin as [x [Hx Hin]].
  apply filter_In in Hin. apply in_map_iff. exists x. tauto.
Qed.

Lemma evict_size (now : Z) (m : EntryMap) :
  wellFormed m -> m <> [] ->
  wellFormed (evictLeastRecentlyUsed now m) /\
  mapSize (evictLeastRecentlyUsed now m) = mapSize m - 1.
Proof.
  intros Hwf Hne.
  destruct (evict_removes_lowest now m Hwf Hne) as (i & k & e & Hlow & Hev & Hrm).
  rewrite Hev. split; [apply wellFormed_mapDelete; exact Hwf|].
  rewrite Hrm. unfold mapSize.
  pose proof (length_remove_nth _ m i (k, e) (proj1 Hlow)). lia.
Qed.

Lemma set_keeps_bound (c : MemoryCache.t) (evictNow now : Z) (k : jsstring)
    (v : DetectionResult) (ttlArg : option Duration) :
  wellFormed (cache c) -> k <> [] ->
  mapSize (cache c) <= Z.max (maxEntries c) 1 ->
  wellFormed (cache (set evictNow now k v ttlArg c)) /\
  mapSize (cache (set evictNow now k v ttlArg c)) <= Z.max (maxEntries c) 1.
Proof.
  intros Hwf Hk Hsize. unfold set. simpl.
  destruct (maxEntries c <=? mapSize (cache c)) eqn:Hfull.
  - apply Z.leb_le in Hfull.
    destruct (cache c) as [|x m] eqn:Hc.
    + split; [apply wellFormed_mapSet; assumption|].
      unfold evictLeastRecentlyUsed. simpl. unfold mapSize. simpl. lia.
    + assert (Hne : x :: m <> []) by discriminate.
      destruct (evict_size evictNow (x :: m) Hwf Hne) as [Hwf' Hsz].
      split; [apply wellFormed_mapSet; assumption|].
      rewrite mapSize_mapSet, Hsz.
      destruct (mapGet k (evictLeastRecentlyUsed evictNow (x :: m))); lia.
  - apply Z.leb_gt in Hfull.
    split; [apply wellFormed_mapSet; assumption|].
    rewrite mapSize_mapSet. destruct (mapGet k (cache c)); lia.
Qed.

Lemma mapSize_mapDelete_le (k : jsstring) (m : EntryMap) :
  mapSize (mapDelete k m) <= mapSize m.
Proof. rewrite mapSize_mapDelete. destruct (mapGet k m); lia. Qed.

Lemma perform_keeps_bound (c : MemoryCache.t) (call : Call) (bound : Z) :
  wellFormed (cache c) -> storesFingerprint call ->
  bound = Z.max (maxEntries c) 1 ->
  mapSize (cache c) <= bound ->
  wellFormed (cache (perform c call)) /\
  mapSize (cache (perform c call)) <= bound /\
  maxEntries (perform c call) = maxEntries c /\
  defaultTtl (perform c call) = defaultTtl c.
Proof.
  intros Hwf Hk -> Hsize. destruct call as [now k|evictNow now k v ttlArg|now k|k| |now]; simpl.
  - unfold get. destruct (mapGet k (cache c)) as [e|] eqn:Hget.
    + destruct (isExpired now e); simpl.
      * split; [apply wellFormed_mapDelete; exact Hwf|].
        split; [|split; reflexivity].
        pose proof (mapSize_mapDelete_le k (cache c)). lia.
      * split.
        { destruct Hwf as [Hd Hne]. split; [apply NoDup_mapSet; exact Hd|].
          rewrite (keys_mapSet_present k e _ (cache c) Hget). exact Hne. }
        split; [|split; reflexivity].
        rewrite mapSize_mapSet, Hget. lia.
    + simpl. repeat split; try apply Hwf. exact Hsize.
  - destruct (set_keeps_bound c evictNow now k v ttlArg Hwf Hk Hsize) as [H1 H2].
    split; [exact H1|]. split; [exact H2|]. split; reflexivity.
  - unfold has. destruct (mapGet k (cache c)) as [e|].
    + destruct (isExpired now e); simpl.
      * split; [apply wellFormed_mapDelete; exact Hwf|].
        split; [|split; reflexivity].
        pose proof (mapSize_mapDelete_le k (cache c)). lia.
      * repeat split; try apply Hwf. exact Hsize.
    + simpl. repeat split; try apply Hwf. exact Hsize.
  - split; [apply wellFormed_mapDelete; exact Hwf|].
    split; [|split; reflexivity].
    pose proof (mapSize_mapDelete_le k (cache c)). lia.
  - split; [split; constructor|]. split; [|split; reflexivity].
    unfold mapSize. simpl. lia.
  - destruct (cleanupLoop_spec now (cache c)) as [Hs _]. rewrite Hs.
    split; [apply wellFormed_filter; exact Hwf|].
    split; [|split; reflexivity].
    unfold mapSize in *.
    pose proof (filter_length_le (fun ke => negb (isExpired now (snd ke))) (cache c)).
    lia.
Qed.

(** X6. Whatever sequence of [get], [set], [has], [delete], [clear] and
    [cleanup] calls is made, at whatever clock readings, the cache never
    holds more than [max(maxEntries, 1)] entries, provided it did not to
    begin with and no [set] stores under the empty string; its keys stay
    distinct, and the capacity and the default time-to-live never
    change. *)
Theorem size_never_exceeds_capacity (calls : list Call) (c : MemoryCache.t) :
  wellFormed (cache c) ->
  Forall storesFingerprint calls ->
  getSize c <= Z.max (maxEntries c) 1 ->
  wellFormed (cache (performAll calls c)) /\
  getSize (performAll calls c) <= Z.max (maxEntries c) 1 /\
  maxEntries (performAll calls c) = maxEntries c /\
  defaultTtl (performAll calls c) = defaultTtl c.
Proof.
  unfold getSize, performAll. revert c.
  induction calls as [|call calls IH]; intros c Hwf Hks Hsize; simpl.
  - repeat split; try apply Hwf. exact Hsize.
  - inversion Hks as [|? ? Hk Hks']; subst.
    destruct (perform_keeps_bound c call _ Hwf Hk eq_refl Hsize)
      as (Hwf' & Hsize' & Hmax & Httl).
    rewrite <- Hmax in Hsize'.
    destruct (IH (perform c call) Hwf' Hks' Hsize') as (H1 & H2 & H3 & H4).
    rewrite Hmax in H2.
    split; [exact H1|]. split; [exact H2|]. split; congruence.
Qed.

Lemma size_never_exceeds_capacity_witness :
  wellFormed (cache (performAll sampleCalls (create (Some 2) None))) /\
  getSize (performAll sampleCalls (create (Some 2) None))
  <= Z.max (maxEntries (create (Some 2) None)) 1 /\
  maxEntries (performAll sampleCalls (create (Some 2) None))
  = maxEntries (create (Some 2) None) /\
  defaultTtl (performAll sampleCalls (create (Some 2) None))
  = defaultTtl (create (Some 2) None).
Proof.
  apply (size_never_exceeds_capacity sampleCalls (create (Some 2) None)).
  - split; constructor.
  - repeat constructor; simpl; discriminate.
  - vm_compute. discriminate.
Defined.

(** *** The counters *)







(** *** Eviction *)

Lemma lowestFirst_unique (now : Z) (m : EntryMap) (i i' : nat) (k k' : jsstring)
    (e e' : CacheEntry) :
  lowestFirst now m i k e -> lowestFirst now m i' k' e' -> i = i'.
Proof.
  intros (Hn & Hall & Hbefore) (Hn' & Hall' & Hbefore').
  destruct (Nat.lt_trichotomy i i') as [Hlt | [Heq | Hgt]]; [|exact Heq|]; exfalso.
  - pose proof (Hbefore' i k e Hlt Hn) as H1. pose proof (Hall i' k' e' Hn') as H2.
    apply (Qlt_irrefl (score now e)). eapply Qle_lt_trans; eassumption.
  - pose proof (Hbefore i' k' e' Hgt Hn') as H1. pose proof (Hall' i k e Hn) as H2.
    apply (Qlt_irrefl (score now e')). eapply Qle_lt_trans; eassumption.
Qed.

Lemma score_denominator_positive (now : Z) (e : CacheEntry) :
  (0 < Qmax (fdiv (inject_Z (now - timestamp e)) (inject_Z (1000 * 60 * 60)))
            (fl (1 # 10)))%Q.
Proof.
  eapply Qlt_le_trans; [|apply Q.le_max_r]. vm_compute. reflexivity.
Qed.

Lemma score_unread (now : Z) (e : CacheEntry) : hits e = 0 -> (score now e == 0)%Q.
Proof.
  intros H. unfold score, fdiv. rewrite H.
  rewrite Rounding.fl_of_zero; [reflexivity|].
  unfold Qdiv. apply Qmult_0_l.
Qed.

Lemma score_nonneg (now : Z) (e : CacheEntry) : 0 <= hits e -> (0 <= score now e)%Q.
Proof.
  intros H. unfold score, fdiv. apply Rounding.fl_nonneg. apply Qle_shift_div_l.
  - apply score_denominator_positive.
  - rewrite Qmult_0_l. change 0%Q with (inject_Z 0). rewrite <- Zle_Qle. exact H.
Qed.

Lemma score_read (now : Z) (e : CacheEntry) : 0 < hits e -> (0 < score now e)%Q.
Proof.
  intros H. unfold score, fdiv. apply Rounding.fl_pos. apply Qlt_shift_div_l.
  - apply score_denominator_positive.
  - rewrite Qmult_0_l. change 0%Q with (inject_Z 0). rewrite <- Zlt_Qlt. exact H.
Qed.

(** X8. Eviction prefers entries that were never read, whatever their age:
    when hit counts are not negative (as they are for entries made by
    [set] and [get]), the entry evicted is the first one in insertion
    order whose hit count is 0, if there is one. *)
Theorem eviction_takes_the_first_unread_entry
    (now : Z) (m : EntryMap) (j : nat) (kj : jsstring) (ej : CacheEntry) :
  wellFormed m ->
  (forall k e, In (k, e) m -> 0 <= hits e) ->
  nth_error m j = Some (kj, ej) ->
  hits ej = 0 ->
  (forall i ki ei, (i < j)%nat -> nth_error m i = Some (ki, ei) -> 0 < hits ei) ->
  evictLeastRecentlyUsed now m = firstn j m ++ skipn (S j) m /\
  mapGet kj (evictLeastRecentlyUsed now m) = None.
Proof.
  intros Hwf Hpos Hj Hzero Hread.
  assert (Hne : m <> []) by (intros ->; destruct j; discriminate).
  assert (Hlow : lowestFirst now m j kj ej).
  { split; [exact Hj|]. split.
    - intros i ki ei Hi. rewrite (score_unread now ej Hzero).
      apply score_nonneg. apply (Hpos ki). eapply nth_error_In. exact Hi.
    - intros i ki ei Hlt Hi. rewrite (score_unread now ej Hzero).
      apply score_read. exact (Hread i ki ei Hlt Hi). }
  destruct (evict_removes_lowest now m Hwf Hne) as (i & k & e & Hlow' & Hev & Hrm).
  pose proof (lowestFirst_unique now m i j k kj e ej Hlow' Hlow) as ->.
  assert (Hk : k = kj).
  { destruct Hlow' as [Hn _]. rewrite Hj in Hn. congruence. }
  subst k. split; [congruence|].
  rewrite Hev. apply mapGet_mapDelete_same. apply Hwf.
Qed.

Lemma eviction_takes_the_first_unread_entry_witness :
  evictLeastRecentlyUsed 7200000 readThenStored
  = firstn 1 readThenStored ++ skipn 2 readThenStored /\
  mapGet fingerprintB (evictLeastRecentlyUsed 7200000 readThenStored) = None.
Proof.
  apply (eviction_takes_the_first_unread_entry 7200000 readThenStored 1 fingerprintB
           {| value := cleanVerdict; timestamp := 7199999; hits := 0; ttl := Some (Millis 3600000) |}).
  - split; repeat constructor; simpl; intuition discriminate.
  - intros k e [H | [H | [H | []]]]; inversion H; simpl; lia.
  - reflexivity.
  - reflexivity.
  - intros [|i] ki ei Hlt H; [inversion H; simpl; lia | lia].
Defined.

(** X9. [set] evicts whenever the cache is at capacity, also when the
    fingerprint it stores is already held: unless the evicted entry is
    that very fingerprint's, the cache then ends one entry smaller, and
    the evicted fingerprint is gone although no fingerprint was added.
    The evicted entry is the first of lowest score, the scores being the
    doubles computed at the clock reading of the eviction. *)
Theorem set_of_a_stored_fingerprint_at_capacity_still_evicts
    (c : MemoryCache.t) (evictNow now : Z) (k : jsstring) (v : DetectionResult)
    (ttlArg : option Duration) (old : CacheEntry) :
  wellFormed (cache c) ->
  maxEntries c <= mapSize (cache c) ->
  mapGet k (cache c) = Some old ->
  exists i kv ev,
    lowestFirst evictNow (cache c) i kv ev /\
    (kv <> k ->
     getSize (set evictNow now k v ttlArg c) = getSize c - 1 /\
     mapGet kv (cache (set evictNow now k v ttlArg c)) = None) /\
    (kv = k -> getSize (set evictNow now k v ttlArg c) = getSize c).
Proof.
  intros Hwf Hfull Hold.
  assert (Hne : cache c <> []) by (intros H; rewrite H in Hold; discriminate).
  destruct (evict_removes_lowest evictNow (cache c) Hwf Hne)
    as (i & kv & ev & Hlow & Hev & Hrm).
  exists i, kv, ev. split; [exact Hlow|].
  unfold set, getSize. simpl.
  apply Z.leb_le in Hfull. rewrite Hfull, Hev.
  assert (Hkv : exists x, mapGet kv (cache c) = Some x).
  { destruct (mapGet kv (cache c)) eqn:E; [eauto|].
    apply mapGet_None in E. exfalso. apply E.
    apply in_map_iff. exists (kv, ev). split; [reflexivity|].
    eapply nth_error_In. apply Hlow. }
  destruct Hkv as [x Hx].
  split.
  - intros Hdiff. rewrite mapSize_mapSet, mapSize_mapDelete, Hx.
    rewrite (mapGet_mapDelete_other kv k (cache c) Hdiff), Hold.
    split; [lia|].
    rewrite mapGet_mapSet_other by congruence.
    apply mapGet_mapDelete_same. apply Hwf.
  - intros ->. rewrite mapSize_mapSet, mapSize_mapDelete, Hx.
    rewrite (mapGet_mapDelete_same k (cache c) (proj1 Hwf)). lia.
Qed.

(** The instance on [nearTieCache], storing A again with the eviction
    read at 3300000 and the timestamp at 3300001. *)
Lemma set_of_a_stored_fingerprint_at_capacity_still_evicts_witness :
  let stored := set 3300000 3300001 fingerprintA cleanVerdict None nearTieCache in
  exists i kv ev,
    lowestFirst 3300000 (cache nearTieCache) i kv ev /\
    (kv <> fingerprintA ->
     getSize stored = getSize nearTieCache - 1 /\
     mapGet kv (cache stored) = None) /\
    (kv = fingerprintA -> getSize stored = getSize nearTieCache).
Proof.
  apply (set_of_a_stored_fingerprint_at_capacity_still_evicts nearTieCache 3300000 3300001
           fingerprintA cleanVerdict None
           {| value := cleanVerdict; timestamp := 0; hits := 3;
              ttl := Some (Millis 7200000) |}).
  - split; repeat constructor; simpl; intuition discriminate.
  - vm_compute. discriminate.
  - reflexivity.
Defined.

(** There the entry evicted is B, whose score 3.2727272727272725 is
    below A's 3.272727272727273 (as fractions both are 36/11), and the
    cache is left with the one entry of A. *)
Example set_of_a_stored_fingerprint_evicts_the_other :
  let stored := set 3300000 3300001 fingerprintA cleanVerdict None nearTieCache in
  (score 3300000 {| value := cleanVerdict; timestamp := 2200000; hits := 1;
                    ttl := Some (Millis 7200000) |}
   < score 3300000 {| value := cleanVerdict; timestamp := 0; hits := 3;
                      ttl := Some (Millis 7200000) |})%Q /\
  lowestFirst 3300000 (cache nearTieCache) 1 fingerprintB
    {| value := cleanVerdict; timestamp := 2200000; hits := 1;
       ttl := Some (Millis 7200000) |} /\
  cache stored
  = [(fingerprintA,
      {| value := cleanVerdict; timestamp := 3300001; hits := 0;
         ttl := Some (Millis 7200000) |})] /\
  getSize stored = 1.
Proof.
  cbv zeta. split; [vm_compute; reflexivity|]. split; [|split; reflexivity].
  split; [reflexivity|]. split.
  - intros [|[|j]] kj ej H; simpl in H; try (destruct j; discriminate H);
      injection H as <- <-; vm_compute; discriminate.
  - intros [|j] kj ej Hlt H; [|lia].
    simpl in H. injection H as <- <-. vm_compute. reflexivity.
Qed.

(** *** Expiry is counted from the time of storing *)

Lemma read_keeps_entry (c : MemoryCache.t) (call : Call) (k : jsstring) (e' : CacheEntry) :
  NoDup (keys (cache c)) -> isRead call = true ->
  mapGet k (cache (perform c call)) = Some e' ->
  exists e, mapGet k (cache c) = Some e /\
            timestamp e' = timestamp e /\ ttl e' = ttl e /\ value e' = value e.
Proof.
  intros Hd Hr. destruct call as [now k0|evictNow now k0 v ttlArg|now k0|k0| |now];
    try discriminate; simpl.
  - unfold get. destruct (mapGet k0 (cache c)) as [e0|] eqn:Hget.
    + destruct (isExpired now e0); simpl; intros H.
      * destruct (list_eq_dec Z.eq_dec k0 k) as [->|Hne].
        { rewrite (mapGet_mapDelete_same k (cache c) Hd) in H. discriminate. }
        rewrite (mapGet_mapDelete_other k0 k (cache c) Hne) in H. eauto.
      * destruct (list_eq_dec Z.eq_dec k0 k) as [->|Hne].
        { rewrite mapGet_mapSet_same in H. injection H as <-. exists e0. simpl. auto. }
        rewrite (mapGet_mapSet_other k0 k _ (cache c) Hne) in H. eauto.
    + simpl. eauto.
  - unfold has. destruct (mapGet k0 (cache c)) as [e0|] eqn:Hget.
    + destruct (isExpired now e0); simpl; intros H; [|eauto].
      destruct (list_eq_dec Z.eq_dec k0 k) as [->|Hne].
      { rewrite (mapGet_mapDelete_same k (cache c) Hd) in H. discriminate. }
      rewrite (mapGet_mapDelete_other k0 k (cache c) Hne) in H. eauto.
    + simpl. eauto.
Qed.

Lemma read_keeps_NoDup (c : MemoryCache.t) (call : Call) :
  NoDup (keys (cache c)) -> isRead call = true -> NoDup (keys (cache (perform c call))).
Proof.
  intros Hd Hr. destruct call as [now k0|evictNow now k0 v ttlArg|now k0|k0| |now];
    try discriminate; simpl.
  - unfold get. destruct (mapGet k0 (cache c)) as [e0|]; [destruct (isExpired now e0)|];
      simpl; [apply NoDup_mapDelete | apply NoDup_mapSet |]; exact Hd.
  - unfold has. destruct (mapGet k0 (cache c)) as [e0|]; [destruct (isExpired now e0)|];
      simpl; [apply NoDup_mapDelete | |]; exact Hd.
Qed.

Lemma reads_keep_entry (calls : list Call) (c : MemoryCache.t) (k : jsstring)
    (e' : CacheEntry) :
  NoDup (keys (cache c)) -> forallb isRead calls = true ->
  mapGet k (cache (performAll calls c)) = Some e' ->
  exists e, mapGet k (cache c) = Some e /\
            timestamp e' = timestamp e /\ ttl e' = ttl e /\ value e' = value e.
Proof.
  unfold performAll. revert c.
  induction calls as [|call calls IH]; intros c Hd Hr H; simpl in *.
  - eauto.
  - apply andb_true_iff in Hr. destruct Hr as [Hr Hrs].
    destruct (IH (perform c call) (read_keeps_NoDup c call Hd Hr) Hrs H)
      as (e1 & H1 & Ht & Hl & Hv).
    destruct (read_keeps_entry c call k e1 Hd Hr H1) as (e0 & H0 & Ht0 & Hl0 & Hv0).
    exists e0. repeat split; congruence.
Qed.

(** X10. Reading an entry does not prolong its life: an entry expires its
    time-to-live after it was stored, however many [get] and [has] calls
    were made on the cache in between. Once the clock is past
    [timestamp + ttl] of the stored entry, [get] returns null and [has]
    returns false. *)
Theorem reads_do_not_prolong_an_entry
    (calls : list Call) (c : MemoryCache.t) (k : jsstring) (e : CacheEntry) (now : Z) :
  NoDup (keys (cache c)) ->
  forallb isRead calls = true ->
  mapGet k (cache c) = Some e ->
  expiredAt now e ->
  fst (get now k (performAll calls c)) = None /\
  fst (has now k (performAll calls c)) = false.
Proof.
  intros Hd Hr Hget Hexp. unfold get, has.
  destruct (mapGet k (cache (performAll calls c))) as [e'|] eqn:H; [|split; reflexivity].
  destruct (reads_keep_entry calls c k e' Hd Hr H) as (e0 & H0 & Ht & Hl & _).
  assert (e0 = e) by congruence. subst e0.
  assert (Hx : isExpired now e' = true).
  { apply isExpired_iff in Hexp. unfold isExpired in *. rewrite Ht, Hl. exact Hexp. }
  rewrite Hx. split; reflexivity.
Qed.

Lemma reads_do_not_prolong_an_entry_witness :
  fst (get 7200001 fingerprintA
         (performAll [Get 7000000 fingerprintA; Has 7100000 fingerprintA;
                      Get 7200000 fingerprintA] fullCache)) = None /\
  fst (has 7200001 fingerprintA
         (performAll [Get 7000000 fingerprintA; Has 7100000 fingerprintA;
                      Get 7200000 fingerprintA] fullCache)) = false.
Proof.
  apply (reads_do_not_prolong_an_entry
           [Get 7000000 fingerprintA; Has 7100000 fingerprintA; Get 7200000 fingerprintA]
           fullCache fingerprintA
           {| value := cleanVerdict; timestamp := 0; hits := 4; ttl := Some (Millis 7200000) |}
           7200001).
  - repeat constructor; simpl; intuition discriminate.
  - reflexivity.
  - reflexivity.
  - exists 7200000. split; [reflexivity | split; [discriminate | reflexivity]].
Defined.

End CacheExtras.

(* ------------------------------------------------------------------ *)
(** ** The aggregation engine as a whole *)

Module EngineExtras.

Import SpamDetectionEngine Spec Samples EngineFacts EngineRules.
Local Open Scope Q_scope.

(** *** The ends of the score range *)

Lemma roundedSum_zero_from (terms : list Q) :
  Forall (fun x => x == 0) terms -> fold_left fadd terms 0 = 0.
Proof.
  induction 1 as [|x terms Hx _ IH]; simpl; [reflexivity|].
  unfold fadd at 2. rewrite Rounding.fl_of_zero; [exact IH | lra].
Qed.

Lemma roundedSum_comp (xs ys : list Q) (s t : Q) :
  Forall2 Qeq xs ys -> s == t -> fold_left fadd xs s == fold_left fadd ys t.
Proof.
  intros H. revert s t.
  induction H as [|x y xs ys Hxy _ IH]; intros s t Hst; simpl; [exact Hst|].
  apply IH. unfold fadd. apply Rounding.fl_comp. rewrite Hxy, Hst. reflexivity.
Qed.

(** X11. The two ends of the score range are exact. For a non-empty list
    of signals of the data model: when every confidence is 0 the reported
    score is 0 and the decision allow; when every confidence is 1 the
    reported score is 1 and the decision reject, whatever the weights and
    however many signals there are. (In between, rounding can carry the
    score of a lone signal past its confidence.) *)
Theorem overallScore_is_exact_at_the_ends
    (indicators : list SpamIndicator) (contentHash : jsstring) (processingTime : Q) :
  Forall validIndicator indicators ->
  indicators <> [] ->
  let r := calculateFinalDecision indicators contentHash processingTime in
  (Forall (fun i => confidence i == 0) indicators ->
   overallScore r == 0 /\ decision r = allow) /\
  (Forall (fun i => confidence i == 1) indicators ->
   overallScore r == 1 /\ decision r = reject).
Proof.
  intros Hv Hne r.
  pose proof (overallScore_rounded indicators contentHash processingTime Hv) as Hs.
  fold r in Hs.
  destruct (sums_bounds indicators Hv) as (S0 & SW & Wpos). specialize (Wpos Hne).
  assert (Hscore : overallScore r
                   = fdiv (roundedSum (weightedTerms indicators))
                       (roundedSum (weights indicators))).
  { rewrite Hs. destruct indicators; [congruence | reflexivity]. }
  destruct (getDecisionFromScore_thresholds (overallScore r)) as (Ha & _ & _ & Hr).
  destruct Rounding.literals_ordered as (L0 & L1 & L2 & L3 & L4).
  split.
  - intros Hz.
    assert (Hterms : Forall (fun x => x == 0) (weightedTerms indicators)).
    { unfold weightedTerms. apply Forall_map. revert Hz. apply Forall_impl.
      intros i Hi. unfold fmul.
      rewrite (Rounding.fl_of_zero (confidence i) Hi).
      rewrite Rounding.fl_of_zero; [reflexivity | ring]. }
    assert (E : overallScore r == 0).
    { rewrite Hscore. unfold roundedSum at 1. rewrite (roundedSum_zero_from _ Hterms).
      unfold fdiv. rewrite Rounding.fl_of_zero; [reflexivity|].
      unfold Qdiv. ring. }
    split; [exact E|]. apply Ha. lra.
  - intros Hone.
    assert (Hterms : Forall2 Qeq (weightedTerms indicators) (weights indicators)).
    { unfold weightedTerms, weights. clear - Hone.
      induction Hone as [|i l Hi _ IH]; simpl; constructor; [|exact IH].
      unfold fmul.
      apply Qeq_trans with (fl (fl (weight i))); [|apply Rounding.fl_idempotent].
      apply Rounding.fl_comp.
      rewrite (Rounding.fl_comp _ _ Hi), Rounding.fl_1. ring. }
    assert (Hsame : roundedSum (weightedTerms indicators)
                    == roundedSum (weights indicators))
      by (apply roundedSum_comp; [exact Hterms | reflexivity]).
    assert (E : overallScore r == 1).
    { rewrite Hscore. unfold fdiv.
      apply Qeq_trans with (fl 1); [|apply Rounding.fl_1].
      apply Rounding.fl_comp. rewrite Hsame. field. lra. }
    split; [exact E|]. apply Hr. lra.
Qed.

(** The instance on two signals of confidence 1, with weights 0.25 and
    0.15. *)
Lemma overallScore_is_exact_at_the_ends_witness :
  let certain := [signalOf 1 (25 # 100); signalOf 1 (15 # 100)] in
  let r := calculateFinalDecision certain fingerprintA (5 # 10) in
  (Forall (fun i => confidence i == 0) certain ->
   overallScore r == 0 /\ decision r = allow) /\
  (Forall (fun i => confidence i == 1) certain ->
   overallScore r == 1 /\ decision r = reject).
Proof.
  apply (overallScore_is_exact_at_the_ends
           [signalOf 1 (25 # 100); signalOf 1 (15 # 100)] fingerprintA (5 # 10)).
  - repeat constructor; simpl; lra.
  - discriminate.
Defined.

(** *** The confidence of a verdict *)

Lemma calculateConfidence_caps
    (indicators : list SpamIndicator) (contentHash : jsstring) (processingTime : Q) :
  Forall validIndicator indicators ->
  indicators <> [] ->
  let r := calculateFinalDecision indicators contentHash processingTime in
  0 <= resultConfidence r /\
  resultConfidence r <= 1 /\
  resultConfidence r <= inject_Z (Z.of_nat (length indicators)) / 3 /\
  (2 # 10 <= overallScore r -> overallScore r <= 8 # 10 -> resultConfidence r <= 7 # 10).
Proof.
  intros Hv Hne r.
  assert (Hr : resultConfidence r = roundedConfidence indicators (overallScore r))
    by (apply calculateConfidence_rounded).
  destruct (roundedConfidence_caps indicators (overallScore r) Hv Hne)
    as (H0 & H1 & H3 & H7).
  rewrite Hr. split; [exact H0|]. split; [exact H1|]. split; [exact H3|].
  intros Hlo Hhi.
  destruct Rounding.literals_rounded as (_ & _ & L7 & L8 & _).
  pose proof (overallScore_fixed indicators contentHash processingTime) as Hfix.
  fold r in Hfix.
  assert (Hlo' : fl (2 # 10) <= overallScore r).
  { rewrite <- Hfix. apply Rounding.fl_monotone. exact Hlo. }
  specialize (H7 Hlo' ltac:(lra)). lra.
Qed.

(** X12. The confidence of a verdict is capped by the number of signals
    behind it: with [n] signals of the data model it is at most [n/3] (one
    signal gives at most 1/3, two at most 2/3), and when the score is
    between 0.2 and 0.8 it is at most 0.7; it is never negative and never
    above 1. *)
Theorem resultConfidence_is_capped_by_the_signal_count
    (indicators : list SpamIndicator) (contentHash : jsstring) (processingTime : Q) :
  Forall validIndicator indicators ->
  indicators <> [] ->
  let r := calculateFinalDecision indicators contentHash processingTime in
  0 <= resultConfidence r /\
  resultConfidence r <= 1 /\
  resultConfidence r <= inject_Z (Z.of_nat (length indicators)) / 3 /\
  (2 # 10 <= overallScore r -> overallScore r <= 8 # 10 -> resultConfidence r <= 7 # 10).
Proof.
  intros Hv Hne.
  exact (calculateConfidence_caps indicators contentHash processingTime Hv Hne).
Qed.

Lemma resultConfidence_is_capped_by_the_signal_count_witness :
  let r := calculateFinalDecision twoSignals fingerprintA (5 # 10) in
  0 <= resultConfidence r /\
  resultConfidence r <= 1 /\
  resultConfidence r <= inject_Z (Z.of_nat (length twoSignals)) / 3 /\
  (2 # 10 <= overallScore r -> overallScore r <= 8 # 10 -> resultConfidence r <= 7 # 10).
Proof.
  apply (resultConfidence_is_capped_by_the_signal_count twoSignals fingerprintA (5 # 10)).
  - repeat constructor; simpl; lra.
  - discriminate.
Defined.

(** *** The decision follows the score *)

(** X13. A higher score never gives a milder decision: in the order
    allow, flag, under_review, reject the decision is monotone in the
    score. *)
Theorem getDecisionFromScore_is_monotone (score1 score2 : Q) :
  score1 <= score2 ->
  (decisionRank (getDecisionFromScore score1)
   <= decisionRank (getDecisionFromScore score2))%nat.
Proof.
  intros Hle.
  destruct Rounding.literals_ordered as (_ & L1 & L2 & _).
  destruct (getDecisionFromScore_thresholds score1) as (A1 & F1 & U1 & R1).
  destruct (getDecisionFromScore_thresholds score2) as (A2 & F2 & U2 & R2).
  destruct (Qlt_le_dec (fl (2 # 10)) score1) as [Ha|Ha];
    [|rewrite (A1 Ha); simpl; apply Nat.le_0_l].
  destruct (Qlt_le_dec (fl (5 # 10)) score1) as [Hf|Hf].
  - destruct (Qlt_le_dec (fl (7 # 10)) score1) as [Hu|Hu].
    + rewrite (R1 Hu), (R2 ltac:(lra)). apply Nat.le_refl.
    + rewrite (U1 Hf Hu).
      destruct (Qlt_le_dec (fl (7 # 10)) score2) as [Hu2|Hu2].
      * rewrite (R2 Hu2). simpl. apply Nat.le_succ_diag_r.
      * rewrite (U2 ltac:(lra) Hu2). apply Nat.le_refl.
  - rewrite (F1 Ha Hf).
    destruct (Qlt_le_dec (fl (5 # 10)) score2) as [Hf2|Hf2].
    + destruct (Qlt_le_dec (fl (7 # 10)) score2) as [Hu2|Hu2].
      * rewrite (R2 Hu2). simpl. repeat constructor.
      * rewrite (U2 Hf2 Hu2). simpl. repeat constructor.
    + rewrite (F2 ltac:(lra) Hf2). apply Nat.le_refl.
Qed.

Lemma getDecisionFromScore_is_monotone_witness :
  (decisionRank (getDecisionFromScore (45 # 100))
   <= decisionRank (getDecisionFromScore (71 # 100)))%nat.
Proof.
  apply (getDecisionFromScore_is_monotone (45 # 100) (71 # 100)).
  unfold Qle. simpl. lia.
Defined.

(** *** The verdict of the engine *)

Lemma emittedSignals_valid (rules : list DetectionRule) (content : jsstring) :
  (forall rule ind, In rule rules -> execute rule content = Returned (Some ind) ->
                    validIndicator ind) ->
  Forall validIndicator (emittedSignals rules content) /\
  (length (emittedSignals rules content) <= length (getEnabledRules rules))%nat.
Proof.
  induction rules as [|rule rest IH]; intros Hv; simpl.
  - split; constructor.
  - destruct (IH (fun r i Hr => Hv r i (or_intror Hr))) as [IH1 IH2].
    unfold getEnabledRules in *. simpl.
    destruct (enabled rule); [|split; assumption].
    destruct (execute rule content) as [[ind|]|e] eqn:E; simpl.
    + split; [constructor; [apply (Hv rule ind (or_introl eq_refl) E) | exact IH1]|].
      apply le_n_S. exact IH2.
    + split; [exact IH1 | apply Nat.le_le_succ_r; exact IH2].
    + split; [exact IH1 | apply Nat.le_le_succ_r; exact IH2].
Qed.

Lemma analyzeContent_well_formed
    (toLowerCase : jsstring -> jsstring) (rules : list DetectionRule)
    (content : jsstring) (elapsed : Q) :
  (forall rule ind, In rule rules -> execute rule content = Returned (Some ind) ->
                    validIndicator ind) ->
  let r := analyzeContent toLowerCase rules content elapsed in
  (0 <= overallScore r /\ overallScore r <= 1) /\
  (0 <= resultConfidence r /\ resultConfidence r <= 1) /\
  decision r = getDecisionFromScore (overallScore r) /\
  Forall validIndicator (indicators r) /\
  (length (indicators r) <= length (getEnabledRules rules))%nat /\
  processingTime r = elapsed /\
  contentHash r = createContentHash toLowerCase content /\
  (isBlank content = true -> indicators r = [] /\ decision r = allow).
Proof.
  intros Hv r. unfold r.
  destruct (isBlank content) eqn:Hb.
  - unfold analyzeContent. rewrite Hb. simpl.
    split; [split; lra|]. split; [split; lra|]. split; [reflexivity|].
    split; [constructor|]. split; [apply Nat.le_0_l|].
    split; [reflexivity|]. split; [reflexivity|]. intros _. split; reflexivity.
  - rewrite (analyzeContent_emitted toLowerCase rules content elapsed Hb).
    destruct (emittedSignals_valid rules content Hv) as [Hval Hlen].
    split; [apply overallScore_bounds; exact Hval|].
    split.
    { destruct (emittedSignals rules content) as [|i l] eqn:E.
      - simpl. split; lra.
      - assert (Hne : i :: l <> []) by discriminate.
        destruct (calculateConfidence_caps (i :: l)
                    (createContentHash toLowerCase content) elapsed Hval Hne)
          as (H0 & H1 & _).
        split; assumption. }
    split; [reflexivity|]. split; [exact Hval|]. split; [exact Hlen|].
    split; [reflexivity|]. split; [reflexivity|]. discriminate.
Qed.

(** X14. Whatever the rules do on a text (emit a signal of the data
    model, return null or throw), the engine's [analyzeContent] returns a
    verdict of the data model: score and confidence in [[0,1]], a decision
    that agrees with the thresholds on the reported score, at most one
    signal per enabled rule, the processing time the timer read and the
    fingerprint of the text. On a blank text no rule is consulted and the
    verdict is allow with no signals. *)
Theorem engine_verdict_is_well_formed
    (toLowerCase : jsstring -> jsstring) (rules : list DetectionRule)
    (content : jsstring) (elapsed : Q) :
  (forall rule ind, In rule rules -> execute rule content = Returned (Some ind) ->
                    validIndicator ind) ->
  let r := analyzeContent toLowerCase rules content elapsed in
  (0 <= overallScore r /\ overallScore r <= 1) /\
  (0 <= resultConfidence r /\ resultConfidence r <= 1) /\
  decision r = getDecisionFromScore (overallScore r) /\
  Forall validIndicator (indicators r) /\
  (length (indicators r) <= length (getEnabledRules rules))%nat /\
  processingTime r = elapsed /\
  contentHash r = createContentHash toLowerCase content /\
  (isBlank content = true -> indicators r = [] /\ decision r = allow).
Proof.
  intros Hv.
  exact (analyzeContent_well_formed toLowerCase rules content elapsed Hv).
Qed.

Lemma engine_verdict_is_well_formed_witness :
  let r := analyzeContent asciiLower [throwingRule; emittingRule]
             (js "Normal content here") (8 # 10) in
  (0 <= overallScore r /\ overallScore r <= 1) /\
  (0 <= resultConfidence r /\ resultConfidence r <= 1) /\
  decision r = getDecisionFromScore (overallScore r) /\
  Forall validIndicator (indicators r) /\
  (length (indicators r) <= length (getEnabledRules [throwingRule; emittingRule]))%nat /\
  processingTime r = 8 # 10 /\
  contentHash r = createContentHash asciiLower (js "Normal content here") /\
  (isBlank (js "Normal content here") = true -> indicators r = [] /\ decision r = allow).
Proof.
  apply (engine_verdict_is_well_formed asciiLower [throwingRule; emittingRule]
           (js "Normal content here") (8 # 10)).
  intros rule ind [<- | [<- | []]] H; simpl in H; [discriminate|].
  injection H as <-. unfold validIndicator. simpl. lra.
Defined.

(** *** The rule list *)

Lemma filter_length_lt_iff (A : Type) (f : A -> bool) (l : list A) :
  (length (filter f l) < length l)%nat <-> exists x, In x l /\ f x = false.
Proof.
  induction l as [|a l IH]; simpl.
  - split; [intros H; inversion H | intros (x & [] & _)].
  - pose proof (filter_length_le f l) as Hle.
    destruct (f a) eqn:E; simpl.
    + rewrite <- Nat.succ_lt_mono, IH. split.
      * intros (x & Hx & Hf). exists x. auto.
      * intros (x & [-> | Hx] & Hf); [congruence | exists x; auto].
    + split.
      * intros _. exists a. auto.
      * intros _. apply Nat.lt_succ_r. exact Hle.
Qed.

(** X15. [removeRule] returns true exactly when some rule bears the name,
    and removes every rule of that name while keeping all the others; a
    second [removeRule] of the name returns false and changes nothing; and
    removing a rule just added under a name no other rule bears gives the
    rule list back. *)
Theorem removeRule_removes_every_rule_of_that_name
    (ruleName : jsstring) (rules : list DetectionRule) :
  (fst (removeRule ruleName rules) = true <-> In ruleName (map name rules)) /\
  ~ In ruleName (map name (snd (removeRule ruleName rules))) /\
  (forall rule, In rule (snd (removeRule ruleName rules))
                <-> In rule rules /\ name rule <> ruleName) /\
  removeRule ruleName (snd (removeRule ruleName rules))
  = (false, snd (removeRule ruleName rules)) /\
  (forall rule, name rule = ruleName -> ~ In ruleName (map name rules) ->
                removeRule ruleName (addRule rule rules) = (true, rules)).
Proof.
  unfold removeRule, addRule. simpl.
  set (keep := fun rule : DetectionRule => negb (eqb (name rule) ruleName)).
  assert (Hkeep : forall rule, keep rule = true <-> name rule <> ruleName).
  { intros rule. unfold keep. rewrite negb_true_iff. apply CacheFacts.eqb_neq. }
  assert (Hdrop : forall rule, keep rule = false <-> name rule = ruleName).
  { intros rule. unfold keep. rewrite negb_false_iff. apply CacheFacts.eqb_eq. }
  assert (Hfresh : forall l, ~ In ruleName (map name l) -> filter keep l = l).
  { induction l as [|a l IH]; simpl; intros Hn; [reflexivity|].
    assert (Ha : keep a = true) by (apply Hkeep; intros H; apply Hn; left; exact H).
    rewrite Ha, IH; [reflexivity | tauto]. }
  assert (Hgone : ~ In ruleName (map name (filter keep rules))).
  { intros Hin. apply in_map_iff in Hin. destruct Hin as (rule & Hname & Hin).
    apply filter_In in Hin. destruct Hin as [_ Hk]. apply Hkeep in Hk. congruence. }
  split; [|split; [exact Hgone | split; [|split]]].
  - rewrite Nat.ltb_lt, filter_length_lt_iff. split.
    + intros (rule & Hin & Hf). apply Hdrop in Hf. rewrite <- Hf. apply in_map. exact Hin.
    + intros Hin. apply in_map_iff in Hin. destruct Hin as (rule & Hname & Hin).
      exists rule. split; [exact Hin | apply Hdrop; exact Hname].
  - intros rule. rewrite filter_In, Hkeep. reflexivity.
  - rewrite (Hfresh _ Hgone). rewrite Nat.ltb_irrefl. reflexivity.
  - intros rule Hname Hn. rewrite filter_app. simpl.
    assert (Hr : keep rule = false) by (apply Hdrop; exact Hname).
    rewrite Hr, app_nil_r, (Hfresh _ Hn), length_app. simpl.
    f_equal. apply Nat.ltb_lt. lia.
Qed.

End EngineExtras.

(* ------------------------------------------------------------------ *)
(** ** The fingerprint *)

Module HashExtras.

Import Sha256 Fingerprint ServiceFacts TextSamples.
Local Open Scope Z_scope.

Lemma round_length (st : list Z) (kw : Z * Z) :
  length st = 8%nat -> length (round st kw) = 8%nat.
Proof.
  intros H.
  destruct st as [|a [|b [|c [|d [|e [|f [|g [|h [|x st]]]]]]]]]; try discriminate.
  reflexivity.
Qed.

Lemma rounds_length (kws : list (Z * Z)) (st : list Z) :
  length st = 8%nat -> length (fold_left round kws st) = 8%nat.
Proof.
  revert st. induction kws as [|kw kws IH]; intros st H; simpl; [exact H|].
  apply IH. apply round_length. exact H.
Qed.

Lemma compress_length (h block : list Z) :
  length h = 8%nat -> length (compress h block) = 8%nat.
Proof.
  intros H. unfold compress.
  rewrite length_map, length_combine, (rounds_length _ h H), H. reflexivity.
Qed.

Lemma digest_length (msg : list Z) : length (digest msg) = 8%nat.
Proof.
  unfold digest.
  generalize (blocksOf (length (wordsOf (length (pad msg)) (pad msg)))
                (wordsOf (length (pad msg)) (pad msg))).
  assert (H : length H0 = 8%nat) by (vm_compute; reflexivity).
  revert H. generalize H0.
  intros h H blocks. revert h H.
  induction blocks as [|b blocks IH]; intros h H; simpl; [exact H|].
  apply IH. apply compress_length. exact H.
Qed.

Lemma hexOfWords_length (ws : list Z) :
  length (flat_map hexOfWord ws) = (8 * length ws)%nat.
Proof.
  induction ws as [|w ws IH]; [reflexivity|].
  change (flat_map hexOfWord (w :: ws)) with (hexOfWord w ++ flat_map hexOfWord ws).
  rewrite length_app, IH. simpl length. lia.
Qed.

Lemma hexDigit_is_hex (n : Z) : 0 <= n < 16 -> isHexDigit (hexDigit n) = true.
Proof.
  intros H. unfold hexDigit, isHexDigit, inRange.
  destruct (n <? 10) eqn:E; [apply Z.ltb_lt in E | apply Z.ltb_ge in E].
  - apply orb_true_iff. left. apply andb_true_iff. split; apply Z.leb_le; lia.
  - apply orb_true_iff. right. apply andb_true_iff. split; apply Z.leb_le; lia.
Qed.

Lemma byte_digits_are_hex (x : Z) :
  isHexDigit (hexDigit (Z.shiftr (Z.land x 255) 4)) = true /\
  isHexDigit (hexDigit (Z.land (Z.land x 255) 15)) = true.
Proof.
  assert (Hb : 0 <= Z.land x 255 < 256).
  { change 255 with (Z.ones 8). rewrite Z.land_ones by lia.
    apply Z.mod_pos_bound. reflexivity. }
  split; apply hexDigit_is_hex.
  - rewrite Z.shiftr_div_pow2 by lia. change (2 ^ 4) with 16.
    split; [apply Z.div_pos; lia | apply Z.div_lt_upper_bound; lia].
  - change 15 with (Z.ones 4). rewrite Z.land_ones by lia.
    apply Z.mod_pos_bound. reflexivity.
Qed.

Lemma hexOfWord_is_hex (w : Z) : forallb isHexDigit (hexOfWord w) = true.
Proof.
  unfold hexOfWord. generalize 4%nat. intros n.
  induction n as [|n IH]; [reflexivity|].
  change (bigEndian (S n) w)
    with (Z.land (Z.shiftr w (8 * Z.of_nat n)) 255 :: bigEndian n w).
  destruct (byte_digits_are_hex (Z.shiftr w (8 * Z.of_nat n))) as [H1 H2].
  cbn [flat_map app forallb]. change 0xF with 15.
  rewrite H1, H2, IH. reflexivity.
Qed.

Lemma sha256Hex_is_hex (s : jsstring) : forallb isHexDigit (sha256Hex s) = true.
Proof.
  unfold sha256Hex. induction (digest (utf8 s)) as [|w ws IH]; [reflexivity|].
  change (flat_map hexOfWord (w :: ws)) with (hexOfWord w ++ flat_map hexOfWord ws).
  rewrite forallb_app, hexOfWord_is_hex, IH. reflexivity.
Qed.

Lemma forallb_firstn (A : Type) (f : A -> bool) (n : nat) (l : list A) :
  forallb f l = true -> forallb f (firstn n l) = true.
Proof.
  revert l. induction n as [|n IH]; intros [|a l]; simpl; try reflexivity.
  intros H. apply andb_true_iff in H. destruct H as [Ha Hl].
  rewrite Ha, (IH l Hl). reflexivity.
Qed.

Lemma createContentHash_length (toLowerCase : jsstring -> jsstring) (content : jsstring) :
  length (createContentHash toLowerCase content) = 16%nat.
Proof.
  unfold createContentHash, sha256Hex.
  rewrite length_firstn, hexOfWords_length, digest_length. reflexivity.
Qed.

Lemma createContentHash_not_empty (toLowerCase : jsstring -> jsstring) (content : jsstring) :
  createContentHash toLowerCase content <> [].
Proof.
  intros H. pose proof (createContentHash_length toLowerCase content) as Hl.
  rewrite H in Hl. discriminate.
Qed.

(** X16. The fingerprint of any text, the empty one included, and
    whatever the case mapping does, is a string of exactly 16 lower-case
    hexadecimal digits; in particular it is never the empty string. *)
Theorem createContentHash_is_sixteen_hex_digits
    (toLowerCase : jsstring -> jsstring) (content : jsstring) :
  length (createContentHash toLowerCase content) = 16%nat /\
  forallb isHexDigit (createContentHash toLowerCase content) = true /\
  createContentHash toLowerCase content <> [].
Proof.
  split; [apply createContentHash_length|].
  split; [|apply createContentHash_not_empty].
  unfold createContentHash. apply forallb_firstn. apply sha256Hex_is_hex.
Qed.

(** *** Surrounding white space *)

Lemma trimStart_blank_prefix (pre s : jsstring) :
  forallb isWhiteSpace pre = true -> trimStart (pre ++ s) = trimStart s.
Proof.
  induction pre as [|c pre IH]; simpl; [reflexivity|].
  intros H. apply andb_true_iff in H. destruct H as [Hc Hp].
  rewrite Hc. exact (IH Hp).
Qed.

Lemma trimEnd_blank_suffix (s post : jsstring) :
  forallb isWhiteSpace post = true -> trimEnd (s ++ post) = trimEnd s.
Proof.
  intros H. unfold trimEnd. rewrite rev_app_distr.
  rewrite trimStart_blank_prefix; [reflexivity|].
  rewrite forallb_rev. exact H.
Qed.

Lemma trimStart_app (s post : jsstring) :
  trimStart (s ++ post)
  = if forallb isWhiteSpace s then trimStart post else trimStart s ++ post.
Proof.
  induction s as [|c s IH]; simpl; [reflexivity|].
  destruct (isWhiteSpace c); simpl; [exact IH | reflexivity].
Qed.

Lemma trim_blank_margins (pre s post : jsstring) :
  forallb isWhiteSpace pre = true -> forallb isWhiteSpace post = true ->
  trim (pre ++ s ++ post) = trim s.
Proof.
  intros Hpre Hpost. unfold trim.
  rewrite (trimStart_blank_prefix pre (s ++ post) Hpre), trimStart_app.
  destruct (forallb isWhiteSpace s) eqn:Hs.
  - apply trimStart_nil in Hs. apply trimStart_nil in Hpost.
    rewrite Hs, Hpost. reflexivity.
  - apply trimEnd_blank_suffix. exact Hpost.
Qed.

(** X17. White space around a text does not change its fingerprint:
    a text and the same text with any white space before and after it
    (spaces, tabs, line breaks, no-break spaces, ...) have the same
    fingerprint, and the one is blank exactly when the other is. *)
Theorem createContentHash_ignores_surrounding_white_space
    (toLowerCase : jsstring -> jsstring) (pre content post : jsstring) :
  forallb isWhiteSpace pre = true ->
  forallb isWhiteSpace post = true ->
  createContentHash toLowerCase (pre ++ content ++ post)
  = createContentHash toLowerCase content /\
  isBlank (pre ++ content ++ post) = isBlank content.
Proof.
  intros Hpre Hpost. split.
  - unfold createContentHash. rewrite (trim_blank_margins pre content post Hpre Hpost).
    reflexivity.
  - assert (H : forallb isWhiteSpace (pre ++ content ++ post)
                = forallb isWhiteSpace content).
    { rewrite !forallb_app, Hpre, Hpost, andb_true_r. reflexivity. }
    pose proof (isBlank_spec (pre ++ content ++ post)) as H1.
    pose proof (isBlank_spec content) as H2.
    rewrite H in H1.
    destruct (isBlank (pre ++ content ++ post)), (isBlank content); try reflexivity.
    + symmetry. apply H2. apply H1. reflexivity.
    + apply H1. apply H2. reflexivity.
Qed.

Lemma createContentHash_ignores_surrounding_white_space_witness :
  createContentHash asciiToLowerCase (js "  " ++ js "Buy now" ++ [9; 10; 160])
  = createContentHash asciiToLowerCase (js "Buy now") /\
  isBlank (js "  " ++ js "Buy now" ++ [9; 10; 160]) = isBlank (js "Buy now").
Proof.
  apply (createContentHash_ignores_surrounding_white_space asciiToLowerCase
           (js "  ") (js "Buy now") [9; 10; 160]); reflexivity.
Defined.

End HashExtras.

(* ------------------------------------------------------------------ *)
(** ** The services in use *)

Module ServiceExtras.

Import MemoryCache CacheSpec CacheFacts CacheStats Samples TextSamples ServiceFacts.
Import CacheExtras HashExtras ServiceOps EnhancedOps ServiceSamples.
Local Open Scope Z_scope.

(** *** A cached verdict is served by fingerprint *)





(** *** The cache of a service stays within its capacity *)

Lemma analyze_as_cache_calls (toLowerCase : jsstring -> jsstring)
    (svc : SpamDetectionService.t) (content : jsstring) (clk : SpamDetectionService.Clock) :
  exists calls,
    SpamDetectionService.cache
      (snd (SpamDetectionService.analyzeContent toLowerCase svc content clk))
    = performAll calls (SpamDetectionService.cache svc) /\
    Forall storesFingerprint calls /\
    SpamDetectionService.rules
      (snd (SpamDetectionService.analyzeContent toLowerCase svc content clk))
    = SpamDetectionService.rules svc.
Proof.
  unfold SpamDetectionService.analyzeContent.
  destruct (isBlank content).
  - exists []. split; [reflexivity|]. split; [constructor | reflexivity].
  - cbv zeta.
    destruct (fst (get (SpamDetectionService.atGet clk)
                     (createContentHash toLowerCase content)
                     (SpamDetectionService.cache svc))) as [v|].
    + exists [Get (SpamDetectionService.atGet clk) (createContentHash toLowerCase content)].
      split; [reflexivity|]. split; [repeat constructor | reflexivity].
    + exists [Get (SpamDetectionService.atGet clk) (createContentHash toLowerCase content);
              Set_ (SpamDetectionService.atEvict clk) (SpamDetectionService.atSet clk)
                (createContentHash toLowerCase content)
                (SpamDetectionEngine.analyzeContent toLowerCase
                   (SpamDetectionService.rules svc) content
                   (SpamDetectionService.engineElapsed clk))
                None].
      split; [reflexivity|]. split; [|reflexivity].
      constructor; [exact I|]. constructor; [|constructor].
      apply createContentHash_not_empty.
Qed.

Lemma performAll_keeps_bound (calls : list Call) (c : MemoryCache.t) :
  wellFormed (cache c) ->
  Forall storesFingerprint calls ->
  mapSize (cache c) <= Z.max (maxEntries c) 1 ->
  wellFormed (cache (performAll calls c)) /\
  mapSize (cache (performAll calls c)) <= Z.max (maxEntries c) 1 /\
  maxEntries (performAll calls c) = maxEntries c.
Proof.
  unfold performAll. revert c.
  induction calls as [|call calls IH]; intros c Hwf Hks Hsize; simpl.
  - split; [exact Hwf|]. split; [exact Hsize | reflexivity].
  - inversion Hks as [|? ? Hk Hks']; subst.
    destruct (perform_keeps_bound c call _ Hwf Hk eq_refl Hsize)
      as (Hwf' & Hsize' & Hmax & _).
    rewrite <- Hmax in Hsize'.
    destruct (IH (perform c call) Hwf' Hks' Hsize') as (H1 & H2 & H3).
    rewrite Hmax in H2.
    split; [exact H1|]. split; [exact H2 | congruence].
Qed.

Lemma serve_keeps_bound (toLowerCase : jsstring -> jsstring)
    (svc : SpamDetectionService.t) (request : Request) :
  wellFormed (cache (SpamDetectionService.cache svc)) ->
  getCacheSize svc <= Z.max (maxEntries (SpamDetectionService.cache svc)) 1 ->
  wellFormed (cache (SpamDetectionService.cache (serve toLowerCase svc request))) /\
  getCacheSize (serve toLowerCase svc request)
  <= Z.max (maxEntries (SpamDetectionService.cache svc)) 1 /\
  maxEntries (SpamDetectionService.cache (serve toLowerCase svc request))
  = maxEntries (SpamDetectionService.cache svc) /\
  SpamDetectionService.rules (serve toLowerCase svc request) = SpamDetectionService.rules svc.
Proof.
  intros Hwf Hsize. unfold getCacheSize, getSize in *.
  destruct request as [content clk| |now]; simpl.
  - destruct (analyze_as_cache_calls toLowerCase svc content clk) as (calls & Hc & Hks & Hr).
    rewrite Hc, Hr.
    destruct (performAll_keeps_bound calls _ Hwf Hks Hsize) as (H1 & H2 & H3).
    split; [exact H1|]. split; [exact H2|]. split; [exact H3 | reflexivity].
  - destruct (performAll_keeps_bound [Clear] _ Hwf ltac:(repeat constructor) Hsize)
      as (H1 & H2 & H3).
    split; [exact H1|]. split; [exact H2|]. split; [exact H3 | reflexivity].
  - destruct (performAll_keeps_bound [Cleanup now] _ Hwf ltac:(repeat constructor) Hsize)
      as (H1 & H2 & H3).
    split; [exact H1|]. split; [exact H2|]. split; [exact H3 | reflexivity].
Qed.

(** X19. Whatever texts a service is asked to analyse, at whatever
    times, and however [clearCache] and [cleanupCache] are called in
    between, its cache never holds more than [max(maxEntries, 1)]
    verdicts and never holds a fingerprint twice, and its rule list does
    not change. *)
Theorem service_cache_stays_within_capacity
    (toLowerCase : jsstring -> jsstring) (requests : list Request)
    (svc : SpamDetectionService.t) :
  wellFormed (cache (SpamDetectionService.cache svc)) ->
  getCacheSize svc <= Z.max (maxEntries (SpamDetectionService.cache svc)) 1 ->
  wellFormed (cache (SpamDetectionService.cache (serveAll toLowerCase requests svc))) /\
  getCacheSize (serveAll toLowerCase requests svc)
  <= Z.max (maxEntries (SpamDetectionService.cache svc)) 1 /\
  SpamDetectionService.rules (serveAll toLowerCase requests svc)
  = SpamDetectionService.rules svc.
Proof.
  unfold serveAll. revert svc.
  induction requests as [|request requests IH]; intros svc Hwf Hsize; simpl.
  - split; [exact Hwf|]. split; [exact Hsize | reflexivity].
  - destruct (serve_keeps_bound toLowerCase svc request Hwf Hsize)
      as (Hwf' & Hsize' & Hmax & Hrules).
    rewrite <- Hmax in Hsize'.
    destruct (IH (serve toLowerCase svc request) Hwf' Hsize') as (H1 & H2 & H3).
    rewrite Hmax in H2.
    split; [exact H1|]. split; [exact H2 | congruence].
Qed.

Lemma service_cache_stays_within_capacity_witness :
  wellFormed (cache (SpamDetectionService.cache
                       (serveAll asciiToLowerCase sampleRequests plainService))) /\
  getCacheSize (serveAll asciiToLowerCase sampleRequests plainService)
  <= Z.max (maxEntries (SpamDetectionService.cache plainService)) 1 /\
  SpamDetectionService.rules (serveAll asciiToLowerCase sampleRequests plainService)
  = SpamDetectionService.rules plainService.
Proof.
  apply (service_cache_stays_within_capacity asciiToLowerCase sampleRequests plainService).
  - split; constructor.
  - vm_compute. discriminate.
Defined.

(** *** The enhanced service and the plain one *)



(** *** What the monitor of the enhanced service counts *)

Lemma recordProcessingTime_window (timeMs : Q) (m : PerformanceMonitor.t) :
  (length (PerformanceMonitor.processingTimes m) <= PerformanceMonitor.MAX_PROCESSING_TIMES)%nat ->
  (length (PerformanceMonitor.processingTimes
             (PerformanceMonitor.recordProcessingTime timeMs m))
   <= PerformanceMonitor.MAX_PROCESSING_TIMES)%nat.
Proof.
  intros H. unfold PerformanceMonitor.recordProcessingTime. simpl.
  destruct (Nat.ltb_spec PerformanceMonitor.MAX_PROCESSING_TIMES
              (length (PerformanceMonitor.processingTimes m ++ [timeMs]))) as [Hlt|Hge].
  - rewrite length_skipn. lia.
  - exact Hge.
Qed.

Lemma enhanced_step_accounting (toLowerCase normalizeNFC : jsstring -> jsstring)
    (svc : EnhancedSpamDetectionService.t) (content : jsstring)
    (clk : EnhancedSpamDetectionService.Clock) :
  let svc' :=
    snd (EnhancedSpamDetectionService.analyzeContent toLowerCase normalizeNFC svc content clk) in
  let m := EnhancedSpamDetectionService.performanceMonitor svc in
  let m' := EnhancedSpamDetectionService.performanceMonitor svc' in
  let c := EnhancedSpamDetectionService.cache svc in
  let c' := EnhancedSpamDetectionService.cache svc' in
  PerformanceMonitor.requestCount m' + PerformanceMonitor.cacheHits m'
  + PerformanceMonitor.errorCount m'
  = PerformanceMonitor.requestCount m + PerformanceMonitor.cacheHits m
    + PerformanceMonitor.errorCount m + 1 /\
  PerformanceMonitor.errorCount m'
  = PerformanceMonitor.errorCount m + (if isBlank content then 1 else 0) /\
  PerformanceMonitor.cacheHits m' + PerformanceMonitor.cacheMisses m'
  = PerformanceMonitor.cacheHits m + PerformanceMonitor.cacheMisses m
    + (if reachesCache normalizeNFC (content, clk) then 1 else 0) /\
  PerformanceMonitor.cacheHits m' - PerformanceMonitor.cacheHits m
  = MemoryCache.cacheHits c' - MemoryCache.cacheHits c /\
  PerformanceMonitor.cacheMisses m' - PerformanceMonitor.cacheMisses m
  = MemoryCache.misses c' - MemoryCache.misses c.
Proof.
  unfold EnhancedSpamDetectionService.analyzeContent,
    EnhancedSpamDetectionService.analyzeContentBody, reachesCache, shortCircuited.
  simpl fst. simpl snd.
  destruct (isBlank content); [simpl; lia|].
  cbv zeta.
  destruct (EdgeCaseHandler.handled
              (EdgeCaseHandler.handleEdgeCase (EnhancedSpamDetectionService.atEdge clk)
                 normalizeNFC content));
    [destruct (EdgeCaseHandler.result
                 (EdgeCaseHandler.handleEdgeCase (EnhancedSpamDetectionService.atEdge clk)
                    normalizeNFC content)); [simpl; lia|]|].
  - unfold get.
    destruct (mapGet (createContentHash toLowerCase content)
                (cache (EnhancedSpamDetectionService.cache svc))) as [e|];
      [destruct (isExpired (EnhancedSpamDetectionService.atGet clk) e)|]; simpl; lia.
  - unfold get.
    destruct (mapGet (createContentHash toLowerCase content)
                (cache (EnhancedSpamDetectionService.cache svc))) as [e|];
      [destruct (isExpired (EnhancedSpamDetectionService.atGet clk) e)|]; simpl; lia.
Qed.

(** X21. The monitor of the enhanced service files every request
    under exactly one heading: [requestCount] (a processing time was
    recorded: engine runs and edge-case answers), [cacheHits], or
    [errorCount] (blank texts). So cache hits are not part of
    [requestCount]. Its hit and miss counters move in step with the
    counters of the cache itself, and count exactly the requests that are
    neither blank nor answered by the edge-case handler. *)
Theorem enhanced_monitor_files_every_request_once
    (toLowerCase normalizeNFC : jsstring -> jsstring)
    (requests : list (jsstring * EnhancedSpamDetectionService.Clock))
    (svc : EnhancedSpamDetectionService.t) :
  let svc' := analyzeAll toLowerCase normalizeNFC requests svc in
  let m := EnhancedSpamDetectionService.performanceMonitor svc in
  let m' := EnhancedSpamDetectionService.performanceMonitor svc' in
  let c := EnhancedSpamDetectionService.cache svc in
  let c' := EnhancedSpamDetectionService.cache svc' in
  PerformanceMonitor.requestCount m' + PerformanceMonitor.cacheHits m'
  + PerformanceMonitor.errorCount m'
  = PerformanceMonitor.requestCount m + PerformanceMonitor.cacheHits m
    + PerformanceMonitor.errorCount m + Z.of_nat (length requests) /\
  PerformanceMonitor.errorCount m'
  = PerformanceMonitor.errorCount m
    + Z.of_nat (length (filter (fun request => isBlank (fst request)) requests)) /\
  PerformanceMonitor.cacheHits m' + PerformanceMonitor.cacheMisses m'
  = PerformanceMonitor.cacheHits m + PerformanceMonitor.cacheMisses m
    + Z.of_nat (length (filter (reachesCache normalizeNFC) requests)) /\
  PerformanceMonitor.cacheHits m' - PerformanceMonitor.cacheHits m
  = MemoryCache.cacheHits c' - MemoryCache.cacheHits c /\
  PerformanceMonitor.cacheMisses m' - PerformanceMonitor.cacheMisses m
  = MemoryCache.misses c' - MemoryCache.misses c.
Proof.
  unfold analyzeAll. revert svc.
  induction requests as [|[content clk] requests IH]; intros svc.
  - simpl. lia.
  - pose proof (enhanced_step_accounting toLowerCase normalizeNFC svc content clk) as Hstep.
    cbv zeta in Hstep. destruct Hstep as (S1 & S2 & S3 & S4 & S5).
    specialize (IH (snd (EnhancedSpamDetectionService.analyzeContent toLowerCase
                           normalizeNFC svc content clk))).
    cbv zeta in IH. destruct IH as (I1 & I2 & I3 & I4 & I5).
    cbv zeta. simpl fold_left. simpl fst in *. simpl snd in *.
    simpl filter. simpl fst.
    destruct (isBlank content); destruct (reachesCache normalizeNFC (content, clk));
      simpl length; rewrite ?Nat2Z.inj_succ; lia.
Qed.

End ServiceExtras.

(* ------------------------------------------------------------------ *)
(** ** The performance monitor *)

Module MonitorExtras.

Import EnhancedOps ServiceSamples TextSamples PerformanceMonitor MonitorOps.
Local Open Scope Q_scope.

(** *** The window of processing times *)

Lemma recordProcessingTime_times (timeMs : Q) (m : PerformanceMonitor.t) :
  processingTimes (recordProcessingTime timeMs m)
  = skipn (length (processingTimes m ++ [timeMs]) - MAX_PROCESSING_TIMES)
      (processingTimes m ++ [timeMs]).
Proof.
  unfold recordProcessingTime. simpl.
  destruct (Nat.ltb_spec MAX_PROCESSING_TIMES (length (processingTimes m ++ [timeMs])))
    as [Hlt|Hge]; [reflexivity|].
  replace (length (processingTimes m ++ [timeMs]) - MAX_PROCESSING_TIMES)%nat with 0%nat
    by lia.
  reflexivity.
Qed.

Lemma skipn_skipn_app (A : Type) (k : nat) (l ts : list A) :
  (k <= length l)%nat ->
  skipn (length (skipn k l ++ ts) - MAX_PROCESSING_TIMES) (skipn k l ++ ts)
  = skipn (k + (length (skipn k l ++ ts) - MAX_PROCESSING_TIMES)) (l ++ ts).
Proof.
  intros Hk.
  rewrite Nat.add_comm, <- skipn_skipn.
  rewrite (skipn_app k l ts).
  replace (k - length l)%nat with 0%nat by lia. reflexivity.
Qed.

Lemma recordAll_spec (times : list Q) (m : PerformanceMonitor.t) :
  (length (processingTimes m) <= MAX_PROCESSING_TIMES)%nat ->
  processingTimes (recordAll times m)
  = skipn (length (processingTimes m ++ times) - MAX_PROCESSING_TIMES)
      (processingTimes m ++ times) /\
  requestCount (recordAll times m) = (requestCount m + Z.of_nat (length times))%Z /\
  errorCount (recordAll times m) = errorCount m /\
  cacheHits (recordAll times m) = cacheHits m /\
  cacheMisses (recordAll times m) = cacheMisses m.
Proof.
  unfold recordAll. revert m.
  induction times as [|t times IH]; intros m Hlen.
  - simpl fold_left. rewrite app_nil_r.
    replace (length (processingTimes m) - MAX_PROCESSING_TIMES)%nat with 0%nat by lia.
    simpl. repeat split; lia.
  - simpl fold_left.
    assert (Hlen' : (length (processingTimes (recordProcessingTime t m))
                     <= MAX_PROCESSING_TIMES)%nat).
    { rewrite recordProcessingTime_times, length_skipn. lia. }
    destruct (IH (recordProcessingTime t m) Hlen') as (H1 & H2 & H3 & H4 & H5).
    split; [|simpl in *; repeat split; try assumption; simpl length; lia].
    rewrite H1, recordProcessingTime_times.
    set (k := (length (processingTimes m ++ [t]) - MAX_PROCESSING_TIMES)%nat).
    assert (Hk : (k <= length (processingTimes m ++ [t]))%nat) by (unfold k; lia).
    rewrite (skipn_skipn_app _ k (processingTimes m ++ [t]) times Hk).
    rewrite <- app_assoc. simpl app.
    f_equal. rewrite !length_app, length_skipn, !length_app in *. simpl length in *.
    unfold k. rewrite length_app. simpl length. lia.
Qed.

(** X22. The monitor keeps the most recent 1000 processing times and
    counts all of them: after recording any list of times on a new
    monitor, [processingTimes] is the last 1000 of them in order (all of
    them when there are no more than 1000) and [requestCount] is their
    number; the other counters stay 0. *)
Theorem monitor_keeps_the_last_thousand_times (times : list Q) :
  processingTimes (recordAll times create)
  = skipn (length times - MAX_PROCESSING_TIMES) times /\
  (length (processingTimes (recordAll times create)) <= MAX_PROCESSING_TIMES)%nat /\
  requestCount (recordAll times create) = Z.of_nat (length times) /\
  errorCount (recordAll times create) = 0%Z /\
  cacheHits (recordAll times create) = 0%Z /\
  cacheMisses (recordAll times create) = 0%Z.
Proof.
  assert (H0 : (length (processingTimes create) <= MAX_PROCESSING_TIMES)%nat)
    by (simpl; apply Nat.le_0_l).
  destruct (recordAll_spec times create H0) as (H1 & H2 & H3 & H4 & H5).
  simpl in H1, H2, H3, H4, H5.
  split; [exact H1|]. split; [rewrite H1, length_skipn; lia|].
  repeat split; assumption.
Qed.

(** *** The percentiles *)











(** *** The health status *)

Lemma getHealthStatus_cases (toFixed : Q -> nat -> jsstring) (heapUsed : Z)
    (m : PerformanceMonitor.t) :
  getHealthStatus toFixed heapUsed m
  = if (MAX_MEMORY_USAGE <? heapUsed)%Z
       || Qltb (1 # 100) (errorRate (getMetrics heapUsed m))
    then unhealthy
    else if Qltb (cacheHitRate (getMetrics heapUsed m)) TARGET_CACHE_HIT_RATE
            && (50 <? requestCount m)%Z
            && Qltb (SLOW_REQUEST_THRESHOLD * (5 # 10))
                 (averageProcessingTime (getMetrics heapUsed m))
            && Qltb (inject_Z (requestCount m) * (1 # 10))
                 (inject_Z (slowRequestCount (getMetrics heapUsed m)))
    then degraded
    else healthy.
Proof.
  unfold getHealthStatus, getOptimizationRecommendations.
  change (metricsRequestCount (getMetrics heapUsed m)) with (requestCount m).
  change (memoryUsage (getMetrics heapUsed m)) with heapUsed.
  destruct (Qltb (cacheHitRate (getMetrics heapUsed m)) TARGET_CACHE_HIT_RATE
            && (50 <? requestCount m)%Z);
    destruct (MAX_MEMORY_USAGE <? heapUsed)%Z;
    destruct (Qltb (SLOW_REQUEST_THRESHOLD * (5 # 10))
                (averageProcessingTime (getMetrics heapUsed m)));
    destruct (Qltb (inject_Z (requestCount m) * (1 # 10))
                (inject_Z (slowRequestCount (getMetrics heapUsed m))));
    destruct (Qltb (1 # 100) (errorRate (getMetrics heapUsed m)));
    reflexivity.
Qed.

(** X24. The health status is [unhealthy] exactly when the heap is above
    100 MB or the error rate above 1%. Otherwise it is [degraded] exactly
    when all three medium findings hold at once (hit rate below 60% with
    more than 50 requests, average time above 50 ms, and more than a tenth
    of the requests slower than 100 ms), and [healthy] in every other
    case: one or two medium findings leave it healthy. *)
Theorem getHealthStatus_is_decided_by_five_findings
    (toFixed : Q -> nat -> jsstring) (heapUsed : Z) (m : PerformanceMonitor.t) :
  let metrics := getMetrics heapUsed m in
  let severe := (MAX_MEMORY_USAGE < heapUsed)%Z \/ 1 # 100 < errorRate metrics in
  let allMedium :=
    (cacheHitRate metrics < 6 # 10 /\ (50 < requestCount m)%Z) /\
    50 < averageProcessingTime metrics /\
    inject_Z (requestCount m) * (1 # 10) < inject_Z (slowRequestCount metrics) in
  (getHealthStatus toFixed heapUsed m = unhealthy <-> severe) /\
  (getHealthStatus toFixed heapUsed m = degraded <-> ~ severe /\ allMedium) /\
  (getHealthStatus toFixed heapUsed m = healthy <-> ~ severe /\ ~ allMedium).
Proof.
  intros metrics severe allMedium.
  rewrite (getHealthStatus_cases toFixed heapUsed m). fold metrics.
  assert (Hs : (MAX_MEMORY_USAGE <? heapUsed)%Z || Qltb (1 # 100) (errorRate metrics) = true
               <-> severe).
  { unfold severe. rewrite orb_true_iff, Z.ltb_lt, Qltb_true. reflexivity. }
  assert (Hm : Qltb (cacheHitRate metrics) TARGET_CACHE_HIT_RATE
               && (50 <? requestCount m)%Z
               && Qltb (SLOW_REQUEST_THRESHOLD * (5 # 10)) (averageProcessingTime metrics)
               && Qltb (inject_Z (requestCount m) * (1 # 10))
                    (inject_Z (slowRequestCount metrics)) = true
               <-> allMedium).
  { unfold allMedium. rewrite !andb_true_iff, !Qltb_true, Z.ltb_lt.
    unfold TARGET_CACHE_HIT_RATE, SLOW_REQUEST_THRESHOLD.
    assert (E : 100 * (5 # 10) == 50) by reflexivity.
    rewrite E. tauto. }
  destruct ((MAX_MEMORY_USAGE <? heapUsed)%Z || Qltb (1 # 100) (errorRate metrics)).
  - assert (severe) by (apply Hs; reflexivity).
    split; [tauto|]. split; split; try discriminate; tauto.
  - assert (~ severe) by (intros X; apply Hs in X; discriminate).
    destruct (Qltb (cacheHitRate metrics) TARGET_CACHE_HIT_RATE
              && (50 <? requestCount m)%Z
              && Qltb (SLOW_REQUEST_THRESHOLD * (5 # 10)) (averageProcessingTime metrics)
              && Qltb (inject_Z (requestCount m) * (1 # 10))
                   (inject_Z (slowRequestCount metrics))).
    + assert (allMedium) by (apply Hm; reflexivity).
      split; [split; [discriminate | tauto]|].
      split; split; try discriminate; try tauto.
    + assert (~ allMedium) by (intros X; apply Hm in X; discriminate).
      split; [split; [discriminate | tauto]|].
      split; split; try discriminate; try tauto.
Qed.

(** *** Errors and the error rate *)

Lemma analyzeAll_blank (toLowerCase normalizeNFC : jsstring -> jsstring)
    (requests : list (jsstring * EnhancedSpamDetectionService.Clock))
    (svc : EnhancedSpamDetectionService.t) :
  forallb (fun request => isBlank (fst request)) requests = true ->
  requestCount (EnhancedSpamDetectionService.performanceMonitor
                  (analyzeAll toLowerCase normalizeNFC requests svc))
  = requestCount (EnhancedSpamDetectionService.performanceMonitor svc) /\
  errorCount (EnhancedSpamDetectionService.performanceMonitor
                (analyzeAll toLowerCase normalizeNFC requests svc))
  = (errorCount (EnhancedSpamDetectionService.performanceMonitor svc)
     + Z.of_nat (length requests))%Z /\
  EnhancedSpamDetectionService.cache (analyzeAll toLowerCase normalizeNFC requests svc)
  = EnhancedSpamDetectionService.cache svc.
Proof.
  unfold analyzeAll. revert svc.
  induction requests as [|[content clk] requests IH]; intros svc Hb.
  - simpl. repeat split; lia.
  - simpl in Hb. apply andb_true_iff in Hb. destruct Hb as [Hc Hb].
    cbn [fold_left fst snd].
    rewrite (ServiceFacts.enhanced_blank toLowerCase normalizeNFC svc content clk Hc).
    cbn [snd].
    destruct (IH {| EnhancedSpamDetectionService.rules :=
                      EnhancedSpamDetectionService.rules svc;
                    EnhancedSpamDetectionService.cache :=
                      EnhancedSpamDetectionService.cache svc;
                    EnhancedSpamDetectionService.performanceMonitor :=
                      recordError (EnhancedSpamDetectionService.performanceMonitor svc) |}
                Hb) as (H1 & H2 & H3).
    rewrite H1, H2, H3. cbn [EnhancedSpamDetectionService.performanceMonitor
                              EnhancedSpamDetectionService.cache recordError
                              requestCount errorCount length].
    rewrite Nat2Z.inj_succ. repeat split; lia.
Qed.

(** X25. The error rate is measured against the requests whose
    processing time was recorded, and a blank text records none. So on a
    new enhanced service that has been sent blank texts only, every one of
    them counted as an error, the error rate is 0 and the health status is
    [unhealthy] only if the heap is above 100 MB; and the cache is never
    touched. *)
Theorem blank_requests_leave_the_error_rate_at_zero
    (toLowerCase normalizeNFC : jsstring -> jsstring) (toFixed : Q -> nat -> jsstring)
    (heapUsed : Z) (rules : list DetectionRule) (cache : MemoryCache.t)
    (requests : list (jsstring * EnhancedSpamDetectionService.Clock)) :
  forallb (fun request => isBlank (fst request)) requests = true ->
  let svc := analyzeAll toLowerCase normalizeNFC requests (EnhancedOps.create rules cache) in
  let m := EnhancedSpamDetectionService.performanceMonitor svc in
  errorCount m = Z.of_nat (length requests) /\
  requestCount m = 0%Z /\
  errorRate (getMetrics heapUsed m) = 0 /\
  (getHealthStatus toFixed heapUsed m = unhealthy <-> (MAX_MEMORY_USAGE < heapUsed)%Z) /\
  EnhancedSpamDetectionService.cache svc = cache.
Proof.
  intros Hb svc m.
  destruct (analyzeAll_blank toLowerCase normalizeNFC requests
              (EnhancedOps.create rules cache) Hb) as (H1 & H2 & H3).
  fold svc in H1, H2, H3. fold m in H1, H2. simpl in H1, H2, H3.
  assert (Hrate : errorRate (getMetrics heapUsed m) = 0).
  { unfold getMetrics. simpl. rewrite H1. reflexivity. }
  split; [exact H2|]. split; [exact H1|]. split; [exact Hrate|]. split; [|exact H3].
  rewrite (getHealthStatus_cases toFixed heapUsed m), Hrate, H1.
  change (Qltb (1 # 100) 0) with false. rewrite orb_false_r.
  change (50 <? 0)%Z with false. rewrite andb_false_r. simpl.
  destruct (MAX_MEMORY_USAGE <? heapUsed)%Z eqn:E.
  - apply Z.ltb_lt in E. tauto.
  - apply Z.ltb_ge in E. split; [discriminate | lia].
Qed.

Lemma blank_requests_leave_the_error_rate_at_zero_witness :
  let svc := analyzeAll asciiToLowerCase asciiNormalizeNFC blankRequests
               (EnhancedOps.create [] (MemoryCache.create None None)) in
  let m := EnhancedSpamDetectionService.performanceMonitor svc in
  errorCount m = Z.of_nat (length blankRequests) /\
  requestCount m = 0%Z /\
  errorRate (getMetrics 5000 m) = 0 /\
  (getHealthStatus (fun _ _ => []) 5000 m = unhealthy <-> (MAX_MEMORY_USAGE < 5000)%Z) /\
  EnhancedSpamDetectionService.cache svc = MemoryCache.create None None.
Proof.
  apply (blank_requests_leave_the_error_rate_at_zero asciiToLowerCase asciiNormalizeNFC
           (fun _ _ => []) 5000 [] (MemoryCache.create None None) blankRequests).
  reflexivity.
Defined.

End MonitorExtras.

(* ------------------------------------------------------------------ *)
(** ** The edge-case handler *)

Module EdgeExtras.

Import RegExp ContentPreprocessor EdgeCaseHandler EdgeSpec EdgeFacts EdgePolicy.
Import ServiceFacts HashExtras.

(** *** Recommended action and decision *)

Ltac policy_of_handler :=
  intros; unfold actionMatchesVerdict, obfuscationSignal;
  split_conditions; simpl;
  first
    [ split; reflexivity
    | split; [reflexivity|]; split;
      [ first [ reflexivity
              | split; reflexivity
              | left; split; reflexivity
              | right; split; [reflexivity|]; first [left; reflexivity | right; reflexivity] ]
      | first [ left; reflexivity | right; eexists; reflexivity ] ] ].

Lemma handleEmptyContent_policy (now : Z) (p : PreprocessedContent) :
  actionMatchesVerdict (handleEmptyContent now p).
Proof. unfold handleEmptyContent, createEmptyContentResult, notHandled. policy_of_handler. Qed.

Lemma handleExtremeLength_policy (now : Z) (p : PreprocessedContent) :
  actionMatchesVerdict (handleExtremeLength now p).
Proof.
  unfold handleExtremeLength, createShortContentResult, createLongContentResult, notHandled.
  policy_of_handler.
Qed.

Lemma handleEncodingIssues_policy (now : Z) (p : PreprocessedContent) :
  actionMatchesVerdict (handleEncodingIssues now p).
Proof.
  unfold handleEncodingIssues, createEncodingResult, notHandled. policy_of_handler.
Qed.

Lemma handleObfuscation_policy (now : Z) (p : PreprocessedContent) :
  actionMatchesVerdict (EdgeCaseHandler.handleObfuscation now p).
Proof.
  unfold EdgeCaseHandler.handleObfuscation, createObfuscationResult, notHandled.
  policy_of_handler.
Qed.

Lemma handleNonEnglishContent_policy (now : Z) (p : PreprocessedContent) :
  actionMatchesVerdict (handleNonEnglishContent now p).
Proof.
  unfold handleNonEnglishContent, createLanguageResult, notHandled. policy_of_handler.
Qed.

Lemma handleSpecialCharacters_policy (now : Z) (p : PreprocessedContent) :
  actionMatchesVerdict (handleSpecialCharacters now p).
Proof.
  unfold handleSpecialCharacters, createSpecialCharResult, notHandled. policy_of_handler.
Qed.

Lemma handleContextualEdgeCases_policy (now : Z) (p : PreprocessedContent) :
  actionMatchesVerdict (handleContextualEdgeCases now p).
Proof.
  unfold handleContextualEdgeCases, createContextualResult, notHandled. policy_of_handler.
Qed.

Lemma classify_policy (now : Z) (p : PreprocessedContent) :
  actionMatchesVerdict (classify now p).
Proof.
  unfold classify.
  destruct (handled (handleEmptyContent now p));
    [apply handleEmptyContent_policy|].
  destruct (handled (handleExtremeLength now p));
    [apply handleExtremeLength_policy|].
  destruct (handled (handleEncodingIssues now p));
    [apply handleEncodingIssues_policy|].
  destruct (handled (EdgeCaseHandler.handleObfuscation now p));
    [apply handleObfuscation_policy|].
  destruct (handled (handleNonEnglishContent now p));
    [apply handleNonEnglishContent_policy|].
  destruct (handled (handleSpecialCharacters now p));
    [apply handleSpecialCharacters_policy|].
  destruct (handled (handleContextualEdgeCases now p));
    [apply handleContextualEdgeCases_policy|].
  split; reflexivity.
Qed.

(** X26. The edge-case handler attaches a verdict exactly when it
    reports the text handled, and never recommends allow for a handled
    text. The recommended action and the decision of the verdict agree
    (reject with reject, flag with flag, manual_review with under_review)
    with one exception: for a suspected homograph attack or symbol
    substitution the handler recommends flag while the verdict says
    reject. Only the obfuscation verdicts carry a signal, a single
    character_patterns signal of confidence 0.9 and weight 0.8. *)
Theorem recommended_action_and_decision_agree_but_for_obfuscation
    (now : Z) (normalizeNFC : jsstring -> jsstring) (content : jsstring) :
  actionMatchesVerdict (handleEdgeCase now normalizeNFC content).
Proof.
  unfold handleEdgeCase.
  destruct (preprocess normalizeNFC content) as [p|message]; simpl.
  - apply classify_policy.
  - unfold actionMatchesVerdict. simpl.
    split; [reflexivity|]. split; [split; reflexivity | left; reflexivity].
Qed.

(** *** Words of a text that is not blank *)

Lemma trim_head (s : jsstring) :
  trim s <> [] -> exists c r, trim s = c :: r /\ isWhiteSpace c = false.
Proof.
  unfold trim, trimEnd. intros Hne.
  destruct (trimStart_head s) as [E | (c & r & E & Hc)].
  - rewrite E in Hne. simpl in Hne. congruence.
  - rewrite E. simpl rev. rewrite trimStart_app.
    destruct (forallb isWhiteSpace (rev r)).
    + simpl. rewrite Hc. simpl. exists c, []. split; [reflexivity | exact Hc].
    + rewrite rev_app_distr. simpl. exists c, (rev (trimStart (rev r))).
      split; [reflexivity | exact Hc].
Qed.

Lemma splitFrom_first_piece (r : regex) (s : jsstring) :
  forall skip prev cur,
    cur <> [] ->
    exists w rest, splitFrom r skip prev cur s = w :: rest /\ w <> [].
Proof.
  induction s as [|c s IH]; intros skip prev cur Hcur; simpl.
  - exists (rev cur), []. split; [reflexivity|].
    intros H. apply (f_equal (@rev Z)) in H. rewrite rev_involutive in H. simpl in H.
    congruence.
  - assert (Hrev : rev cur <> []).
    { intros H. apply (f_equal (@rev Z)) in H. rewrite rev_involutive in H. simpl in H.
      congruence. }
    destruct skip as [|n]; [|apply IH; exact Hcur].
    destruct (matchAt r prev (c :: s)) as [rest|].
    + destruct (matched (c :: s) rest) as [|m0 m]; destruct cur as [|c0 cur];
        try congruence; eexists; eexists; split; try reflexivity; exact Hrev.
    + apply IH. discriminate.
Qed.

Lemma split_words_first (c : Z) (s : jsstring) :
  isWhiteSpace c = false ->
  exists w rest, split (Plus space) (c :: s) = w :: rest /\ w <> [].
Proof.
  intros Hc. unfold split.
  change (splitFrom (Plus space) 0 None [] (c :: s))
    with (match matchAt (Plus space) None (c :: s) with
          | Some rest =>
              match matched (c :: s) rest, @nil Z with
              | [], [] => splitFrom (Plus space) 0 (Some c) [c] s
              | [], _ => rev [] :: splitFrom (Plus space) 0 (Some c) [c] s
              | m, _ => rev [] :: splitFrom (Plus space) (length m - 1) (Some c) [] s
              end
          | None => splitFrom (Plus space) 0 (Some c) [c] s
          end).
  assert (Hm : matchAt (Plus space) None (c :: s) = None).
  { unfold matchAt, Plus, space. simpl. rewrite Hc. reflexivity. }
  rewrite Hm. apply splitFrom_first_piece. discriminate.
Qed.

Lemma wordCount_positive (original normalized : jsstring) :
  trim normalized <> [] -> (1 <= wordCount (generateMetadata original normalized))%Z.
Proof.
  intros Hne. unfold generateMetadata. simpl.
  destruct (trim_head normalized Hne) as (c & r & E & Hc). rewrite E.
  destruct (split_words_first c r Hc) as (w & rest & Es & Hw). rewrite Es.
  simpl. destruct w as [|w0 w]; [congruence|]. simpl. lia.
Qed.

Ltac other_reason := intros; split_conditions; simpl; discriminate.

Lemma classify_reason (now : Z) (original normalized : jsstring) :
  reason (classify now {| ContentPreprocessor.original := original;
                          ContentPreprocessor.normalized := normalized;
                          metadata := generateMetadata original normalized |})
  <> js "No meaningful words found".
Proof.
  set (p := {| ContentPreprocessor.original := original;
               ContentPreprocessor.normalized := normalized;
               metadata := generateMetadata original normalized |}).
  unfold classify.
  destruct (handled (handleEmptyContent now p)) eqn:H1.
  { unfold handleEmptyContent in *. simpl ContentPreprocessor.normalized in *.
    simpl metadata in *.
    destruct (Z.of_nat (length (trim normalized)) =? 0)%Z eqn:E; [simpl; discriminate|].
    assert (Hne : trim normalized <> []).
    { intros X. rewrite X in E. discriminate. }
    pose proof (wordCount_positive original normalized Hne) as Hw.
    destruct (wordCount (generateMetadata original normalized) =? 0)%Z eqn:E2;
      [apply Z.eqb_eq in E2; lia | discriminate]. }
  destruct (handled (handleExtremeLength now p));
    [unfold handleExtremeLength, notHandled; other_reason|].
  destruct (handled (handleEncodingIssues now p));
    [unfold handleEncodingIssues, notHandled; other_reason|].
  destruct (handled (EdgeCaseHandler.handleObfuscation now p));
    [unfold EdgeCaseHandler.handleObfuscation, notHandled; other_reason|].
  destruct (handled (handleNonEnglishContent now p));
    [unfold handleNonEnglishContent, notHandled; other_reason|].
  destruct (handled (handleSpecialCharacters now p));
    [unfold handleSpecialCharacters, notHandled; other_reason|].
  destruct (handled (handleContextualEdgeCases now p));
    [unfold handleContextualEdgeCases, notHandled; other_reason|].
  simpl. discriminate.
Qed.

(** X27. The word count of a preprocessed text whose normalised form
    is not blank is at least 1, so the handler's answer "No meaningful
    words found" is never given: whatever the text, when the normalised
    form is blank the reason is "Empty content after preprocessing", and
    otherwise the empty-content check lets the text pass. *)
Theorem no_meaningful_words_found_is_never_the_reason
    (now : Z) (normalizeNFC : jsstring -> jsstring) (content : jsstring) :
  reason (handleEdgeCase now normalizeNFC content) <> js "No meaningful words found" /\
  (forall original normalized,
      trim normalized <> [] ->
      (1 <= wordCount (generateMetadata original normalized))%Z /\
      handled (handleEmptyContent now
                 {| ContentPreprocessor.original := original;
                    ContentPreprocessor.normalized := normalized;
                    metadata := generateMetadata original normalized |}) = false).
Proof.
  split.
  - unfold handleEdgeCase, preprocess.
    destruct content as [|c content]; [simpl; discriminate|].
    cbv zeta. simpl bindOutcome. simpl tryCatch. apply classify_reason.
  - intros original normalized Hne.
    pose proof (wordCount_positive original normalized Hne) as Hw.
    split; [exact Hw|].
    unfold handleEmptyContent. simpl ContentPreprocessor.normalized. simpl metadata.
    destruct (Z.of_nat (length (trim normalized)) =? 0)%Z eqn:E.
    + apply Z.eqb_eq in E. destruct (trim normalized); [congruence | simpl in E; lia].
    + destruct (wordCount (generateMetadata original normalized) =? 0)%Z eqn:E2;
        [apply Z.eqb_eq in E2; lia | reflexivity].
Qed.

End EdgeExtras.

(* ------------------------------------------------------------------ *)
(** ** The rules *)

Module RuleExtras.

Import RegExp AnalysisConfig Spec SpamDetectionEngine EngineFacts EngineExtras.
Import ServiceFacts HashExtras TextSamples RuleSamples RuleSpec.
Local Open Scope Q_scope.

(** *** The caps-abuse rule *)

Lemma capsAbuse_cases (toFixed : Q -> nat -> jsstring) (content : jsstring)
    (ind : SpamIndicator) :
  CapsAbuseRule.execute toFixed content = Returned (Some ind) ->
  (3 <= length (trim content))%nat /\
  (0 < countMatches (Chr isLetter) (trim content))%Z /\
  7 # 10 < inject_Z (countMatches CapsAbuseRule.upper (trim content))
           / inject_Z (countMatches (Chr isLetter) (trim content)) /\
  indicatorType ind = caps_abuse /\
  weight ind = 15 # 100 /\
  (if test CapsAbuseRule.hashtagPattern (trim content)
      || test CapsAbuseRule.acronymPattern (trim content)
   then (severity ind = medium /\ confidence ind = (9 # 10) * (7 # 10) /\
         9 # 10 < inject_Z (countMatches CapsAbuseRule.upper (trim content))
                  / inject_Z (countMatches (Chr isLetter) (trim content))) \/
        (severity ind = medium /\ confidence ind = (75 # 100) * (7 # 10)) \/
        (severity ind = low /\ confidence ind = (6 # 10) * (7 # 10))
   else (severity ind = high /\ confidence ind = 9 # 10 /\
         9 # 10 < inject_Z (countMatches CapsAbuseRule.upper (trim content))
                  / inject_Z (countMatches (Chr isLetter) (trim content))) \/
        (severity ind = medium /\ confidence ind = 75 # 100) \/
        (severity ind = low /\ confidence ind = 6 # 10)).
Proof.
  unfold CapsAbuseRule.execute. cbv zeta.
  destruct (Nat.ltb_spec (length (trim content)) 3) as [Hshort|Hlong]; [discriminate|].
  destruct (Z.eqb_spec (countMatches (Chr isLetter) (trim content)) 0) as [Hz|Hnz];
    [discriminate|].
  set (ratio := inject_Z (countMatches CapsAbuseRule.upper (trim content))
                / inject_Z (countMatches (Chr isLetter) (trim content))).
  destruct (Qle_bool ratio maxCapsRatio) eqn:Hr; [discriminate|].
  apply Qle_bool_false in Hr.
  intros H. injection H as <-. simpl.
  split; [exact Hlong|].
  split; [unfold countMatches in *; lia|].
  split; [exact Hr|]. split; [reflexivity|]. split; [reflexivity|].
  destruct (Qltb (9 # 10) ratio) eqn:H9; [apply Qltb_true in H9|];
    [|destruct (Qltb (8 # 10) ratio) eqn:H8];
    destruct (test CapsAbuseRule.hashtagPattern (trim content)
              || test CapsAbuseRule.acronymPattern (trim content)); simpl; auto.
Qed.

(** X28. The caps-abuse rule emits a signal only for a text of at least
    3 characters (white space around it aside) more than 70% of whose
    letters are capitals. Severity [high] is given only with confidence
    0.9, to texts above 90% without a hashtag in capitals and without a
    word of 2 to 5 capitals; with such a hashtag or word the confidence
    is at most 0.63 and the severity at most [medium]. White space around
    the text changes nothing. *)
Theorem capsAbuse_flags_only_texts_mostly_in_capitals
    (toFixed : Q -> nat -> jsstring) (content : jsstring) (ind : SpamIndicator) :
  CapsAbuseRule.execute toFixed content = Returned (Some ind) ->
  ((3 <= length (trim content))%nat /\
   7 # 10 < inject_Z (countMatches CapsAbuseRule.upper (trim content))
            / inject_Z (countMatches (Chr isLetter) (trim content))) /\
  (severity ind = high ->
   confidence ind = 9 # 10 /\
   9 # 10 < inject_Z (countMatches CapsAbuseRule.upper (trim content))
            / inject_Z (countMatches (Chr isLetter) (trim content)) /\
   test CapsAbuseRule.hashtagPattern (trim content) = false /\
   test CapsAbuseRule.acronymPattern (trim content) = false) /\
  (test CapsAbuseRule.hashtagPattern (trim content) = true \/
   test CapsAbuseRule.acronymPattern (trim content) = true ->
   confidence ind <= 63 # 100 /\ severity ind <> high) /\
  (forall pre post,
      forallb isWhiteSpace pre = true -> forallb isWhiteSpace post = true ->
      CapsAbuseRule.execute toFixed (pre ++ content ++ post)
      = CapsAbuseRule.execute toFixed content).
Proof.
  intros H.
  destruct (capsAbuse_cases toFixed content ind H) as (Hlen & _ & Hratio & _ & _ & Hcases).
  split; [split; assumption|].
  destruct (test CapsAbuseRule.hashtagPattern (trim content)) eqn:Hh;
    destruct (test CapsAbuseRule.acronymPattern (trim content)) eqn:Ha;
    simpl in Hcases.
  - split; [|split].
    + intros Hs. destruct Hcases as [[E _]|[[E _]|[E _]]]; rewrite E in Hs; discriminate.
    + intros _. destruct Hcases as [[E [C _]]|[[E C]|[E C]]]; rewrite E, C;
        split; try discriminate; unfold Qle; simpl; lia.
    + intros pre post Hpre Hpost. unfold CapsAbuseRule.execute.
      rewrite (trim_blank_margins pre content post Hpre Hpost). reflexivity.
  - split; [|split].
    + intros Hs. destruct Hcases as [[E _]|[[E _]|[E _]]]; rewrite E in Hs; discriminate.
    + intros _. destruct Hcases as [[E [C _]]|[[E C]|[E C]]]; rewrite E, C;
        split; try discriminate; unfold Qle; simpl; lia.
    + intros pre post Hpre Hpost. unfold CapsAbuseRule.execute.
      rewrite (trim_blank_margins pre content post Hpre Hpost). reflexivity.
  - split; [|split].
    + intros Hs. destruct Hcases as [[E _]|[[E _]|[E _]]]; rewrite E in Hs; discriminate.
    + intros _. destruct Hcases as [[E [C _]]|[[E C]|[E C]]]; rewrite E, C;
        split; try discriminate; unfold Qle; simpl; lia.
    + intros pre post Hpre Hpost. unfold CapsAbuseRule.execute.
      rewrite (trim_blank_margins pre content post Hpre Hpost). reflexivity.
  - split; [|split].
    + intros Hs. destruct Hcases as [[E [C R]]|[[E _]|[E _]]];
        [|rewrite E in Hs; discriminate | rewrite E in Hs; discriminate].
      repeat split; assumption.
    + intros [X|X]; discriminate.
    + intros pre post Hpre Hpost. unfold CapsAbuseRule.execute.
      rewrite (trim_blank_margins pre content post Hpre Hpost). reflexivity.
Qed.

Lemma capsAbuse_flags_only_texts_mostly_in_capitals_witness :
  ((3 <= length (trim shoutedText))%nat /\
   7 # 10 < inject_Z (countMatches CapsAbuseRule.upper (trim shoutedText))
            / inject_Z (countMatches (Chr isLetter) (trim shoutedText))) /\
  (severity shoutedSignal = high ->
   confidence shoutedSignal = 9 # 10 /\
   9 # 10 < inject_Z (countMatches CapsAbuseRule.upper (trim shoutedText))
            / inject_Z (countMatches (Chr isLetter) (trim shoutedText)) /\
   test CapsAbuseRule.hashtagPattern (trim shoutedText) = false /\
   test CapsAbuseRule.acronymPattern (trim shoutedText) = false) /\
  (test CapsAbuseRule.hashtagPattern (trim shoutedText) = true \/
   test CapsAbuseRule.acronymPattern (trim shoutedText) = true ->
   confidence shoutedSignal <= 63 # 100 /\ severity shoutedSignal <> high) /\
  (forall pre post,
      forallb isWhiteSpace pre = true -> forallb isWhiteSpace post = true ->
      CapsAbuseRule.execute (fun _ _ => []) (pre ++ shoutedText ++ post)
      = CapsAbuseRule.execute (fun _ _ => []) shoutedText).
Proof.
  apply (capsAbuse_flags_only_texts_mostly_in_capitals (fun _ _ => []) shoutedText
           shoutedSignal).
  vm_compute. reflexivity.
Defined.

(** *** The repetitive-content rule *)

Lemma repeatedChars_lengths (s : jsstring) :
  forall skip, Forall (fun m => (4 <= length m)%nat) (RepetitiveContentRule.repeatedChars skip s).
Proof.
  induction s as [|c s IH]; intros skip; cbn [RepetitiveContentRule.repeatedChars];
    [constructor|].
  destruct skip as [|n]; [|apply IH].
  destruct (negb (isLineTerminator c)
            && (3 <=? RepetitiveContentRule.runLength c s)%nat) eqn:E; [|apply IH].
  apply andb_true_iff in E. destruct E as [_ E]. apply Nat.leb_le in E.
  constructor; [|apply IH].
  simpl length. rewrite length_firstn.
  assert (Hle : (RepetitiveContentRule.runLength c s <= length s)%nat).
  { clear. induction s as [|d s IH]; simpl; [lia|].
    destruct (d =? c)%Z; simpl; lia. }
  lia.
Qed.

Lemma repeatedChars_finds_a_run (c : Z) (pre post : jsstring) :
  isLineTerminator c = false ->
  RepetitiveContentRule.repeatedChars 0 (pre ++ [c; c; c; c] ++ post) <> [].
Proof.
  intros Hc. induction pre as [|d pre IH].
  - cbn [app RepetitiveContentRule.repeatedChars RepetitiveContentRule.runLength].
    rewrite !Z.eqb_refl, Hc. simpl. discriminate.
  - cbn [app RepetitiveContentRule.repeatedChars].
    match goal with
    | |- context [if ?b then _ else _] => destruct b; [discriminate | exact IH]
    end.
Qed.

(** The loop of [checkRepetitiveCharacters] over matches of at least four
    code units. *)
Lemma characters_loop (matches : list jsstring) (acc : Q * list jsstring) :
  Forall (fun m => (4 <= length m)%nat) matches ->
  0 <= fst acc ->
  let step (acc : Q * list jsstring) (m : jsstring) :=
    let char := firstn 1 m in
    let count := Z.of_nat (length m) in
    if (maxRepetitiveChars <? count)%Z
    then (fst acc + Qmin (inject_Z (count - maxRepetitiveChars) * (2 # 10)) 1,
          snd acc
          ++ [js "Repeated character " ++ RepetitiveContentRule.quote ++ char
              ++ RepetitiveContentRule.quote ++ js " "
              ++ decimal count ++ js " times in a row"])
    else acc in
  0 <= fst (fold_left step matches acc) /\
  (matches <> [] ->
   0 < fst (fold_left step matches acc) /\ snd (fold_left step matches acc) <> []).
Proof.
  intros Hm. revert acc. induction Hm as [|m matches Hlen _ IH]; intros acc Hacc step.
  - simpl. split; [exact Hacc | intros X; exfalso; apply X; reflexivity].
  - simpl fold_left.
    assert (Hstep : 0 < fst (step acc m) /\ snd (step acc m) <> []).
    { unfold step. unfold maxRepetitiveChars.
      destruct (Z.ltb_spec 3 (Z.of_nat (length m))) as [Hgt|Hle]; [|lia].
      simpl fst. simpl snd. split.
      - assert (0 < Qmin (inject_Z (Z.of_nat (length m) - 3) * (2 # 10)) 1).
        { apply Q.min_glb_lt; [|reflexivity].
          apply Qmult_lt_0_compat; [|reflexivity].
          change 0 with (inject_Z 0). rewrite <- Zlt_Qlt. lia. }
        lra.
      - intros X. apply app_eq_nil in X. destruct X as [_ X]. discriminate. }
    destruct Hstep as [Hpos Hev].
    destruct (IH (step acc m) (Qlt_le_weak _ _ Hpos)) as [I1 I2]. fold step in I1, I2.
    split; [exact I1|]. intros _.
    destruct matches as [|m' matches'].
    + simpl. split; assumption.
    + apply I2. discriminate.
Qed.

Lemma checkRepetitiveCharacters_range (content : jsstring) :
  0 <= RepetitiveContentRule.score (RepetitiveContentRule.checkRepetitiveCharacters content)
  /\ RepetitiveContentRule.score (RepetitiveContentRule.checkRepetitiveCharacters content) <= 1.
Proof.
  unfold RepetitiveContentRule.checkRepetitiveCharacters. simpl.
  destruct (characters_loop (RepetitiveContentRule.repeatedChars 0 content) (0, [])
              (repeatedChars_lengths content 0) (Qle_refl 0)) as [H _].
  split; [apply Q.min_glb; [exact H | discriminate] | apply Q.le_min_r].
Qed.

Lemma checkRepetitiveCharacters_run (c : Z) (pre post : jsstring) :
  isLineTerminator c = false ->
  0 < RepetitiveContentRule.score
        (RepetitiveContentRule.checkRepetitiveCharacters (pre ++ [c; c; c; c] ++ post)) /\
  RepetitiveContentRule.checkEvidence
    (RepetitiveContentRule.checkRepetitiveCharacters (pre ++ [c; c; c; c] ++ post)) <> [].
Proof.
  intros Hc. unfold RepetitiveContentRule.checkRepetitiveCharacters. simpl.
  destruct (characters_loop
              (RepetitiveContentRule.repeatedChars 0 (pre ++ [c; c; c; c] ++ post)) (0, [])
              (repeatedChars_lengths _ 0) (Qle_refl 0)) as [_ H].
  destruct (H (repeatedChars_finds_a_run c pre post Hc)) as [H1 H2].
  split; [apply Q.min_glb_lt; [exact H1 | reflexivity] | exact H2].
Qed.

Lemma addCheck_invariant (check : RepetitiveContentRule.Check) (share : Q)
    (acc : list jsstring * Q * Q) :
  RepetitiveContentRule.score check <= 1 -> 0 < share ->
  blocksInvariant acc -> blocksInvariant (RepetitiveContentRule.addCheck check share acc).
Proof.
  intros Hs Hshare. destruct acc as [[indicators totalScore] maxScore].
  unfold blocksInvariant, RepetitiveContentRule.addCheck.
  intros (H0 & H1 & H2).
  destruct (Qltb 0 (RepetitiveContentRule.score check)) eqn:E; [|auto].
  apply Qltb_true in E.
  assert (0 < RepetitiveContentRule.score check * share)
    by (apply Qmult_lt_0_compat; assumption).
  assert (RepetitiveContentRule.score check * share <= share) by nra.
  split; [lra|]. split; [lra|]. intros _. lra.
Qed.

Lemma addCheck_keeps_evidence (check : RepetitiveContentRule.Check) (share : Q)
    (acc : list jsstring * Q * Q) :
  fst (fst acc) <> [] ->
  fst (fst (RepetitiveContentRule.addCheck check share acc)) <> [].
Proof.
  destruct acc as [[indicators totalScore] maxScore]. simpl.
  unfold RepetitiveContentRule.addCheck.
  destruct (Qltb 0 (RepetitiveContentRule.score check)); simpl; [|auto].
  intros H X. apply app_eq_nil in X. tauto.
Qed.

Lemma repetitive_signal (toLowerCase : jsstring -> jsstring) (content : jsstring)
    (ind : SpamIndicator) :
  RepetitiveContentRule.score (RepetitiveContentRule.checkRepetitiveWords toLowerCase content)
  <= 1 ->
  RepetitiveContentRule.score (RepetitiveContentRule.checkRepetitivePhrases toLowerCase content)
  <= 1 ->
  RepetitiveContentRule.execute toLowerCase content = Returned (Some ind) ->
  0 < confidence ind /\ confidence ind <= 1 /\
  weight ind = 2 # 10 /\ indicatorType ind = repetitive_content /\ evidence ind <> [] /\
  (severity ind = high <-> 7 # 10 < confidence ind) /\
  (severity ind = low <-> confidence ind <= 4 # 10).
Proof.
  intros Hw Hp. unfold RepetitiveContentRule.execute.
  pose proof (checkRepetitiveCharacters_range content) as [_ Hc].
  assert (Hinv : blocksInvariant
                   (RepetitiveContentRule.addCheck
                      (RepetitiveContentRule.checkRepetitivePhrases toLowerCase content)
                      (3 # 10)
                      (RepetitiveContentRule.addCheck
                         (RepetitiveContentRule.checkRepetitiveWords toLowerCase content)
                         (4 # 10)
                         (RepetitiveContentRule.addCheck
                            (RepetitiveContentRule.checkRepetitiveCharacters content)
                            (3 # 10) ([], 0, 0))))).
  { repeat (apply addCheck_invariant; [assumption | reflexivity |]).
    unfold blocksInvariant. split; [apply Qle_refl|]. split; [apply Qle_refl | congruence]. }
  cbv zeta.
  destruct (RepetitiveContentRule.addCheck _ _ _) as [[indicators totalScore] maxScore].
  unfold blocksInvariant in Hinv. destruct Hinv as (H0 & H1 & H2).
  destruct indicators as [|e indicators]; [discriminate|].
  specialize (H2 ltac:(discriminate)).
  assert (Hmax : 0 < maxScore) by lra.
  assert (Hlt : Qltb 0 maxScore = true) by (apply Qltb_true; exact Hmax).
  rewrite Hlt. intros H. injection H as <-. simpl.
  assert (Hconf : 0 < totalScore / maxScore /\ totalScore / maxScore <= 1).
  { split; [apply Qlt_shift_div_l; lra | apply Qle_shift_div_r; lra]. }
  destruct Hconf as [C0 C1].
  split; [exact C0|]. split; [exact C1|]. split; [reflexivity|]. split; [reflexivity|].
  split; [discriminate|].
  destruct (Qltb (7 # 10) (totalScore / maxScore)) eqn:E7;
    [apply Qltb_true in E7 | apply Qltb_false in E7];
    [|destruct (Qltb (4 # 10) (totalScore / maxScore)) eqn:E4;
      [apply Qltb_true in E4 | apply Qltb_false in E4]].
  - split; split; intros X; try reflexivity; try assumption; try discriminate. lra.
  - split; split; intros X; try discriminate; lra.
  - split; split; intros X; try reflexivity; try assumption; try discriminate. lra.
Qed.

Lemma checkRepetitiveWords_le_1 (toLowerCase : jsstring -> jsstring) (content : jsstring) :
  RepetitiveContentRule.score (RepetitiveContentRule.checkRepetitiveWords toLowerCase content)
  <= 1.
Proof. unfold RepetitiveContentRule.checkRepetitiveWords. simpl. apply Q.le_min_r. Qed.

Lemma checkRepetitivePhrases_le_1 (toLowerCase : jsstring -> jsstring) (content : jsstring) :
  RepetitiveContentRule.score (RepetitiveContentRule.checkRepetitivePhrases toLowerCase content)
  <= 1.
Proof.
  unfold RepetitiveContentRule.checkRepetitivePhrases.
  match goal with
  | |- context [if ?b then _ else _] => destruct b
  end; simpl; [discriminate | apply Q.le_min_r].
Qed.

Lemma capsAbuse_valid (toFixed : Q -> nat -> jsstring) (content : jsstring)
    (ind : SpamIndicator) :
  CapsAbuseRule.execute toFixed content = Returned (Some ind) -> validIndicator ind.
Proof.
  intros H.
  destruct (capsAbuse_cases toFixed content ind H) as (_ & _ & _ & _ & Hw & Hcases).
  unfold validIndicator. rewrite Hw.
  destruct (test CapsAbuseRule.hashtagPattern (trim content)
            || test CapsAbuseRule.acronymPattern (trim content));
    destruct Hcases as [[_ [C _]]|[[_ C]|[_ C]]]; rewrite C;
    repeat split; try discriminate; reflexivity.
Qed.

Lemma repetitive_valid (toLowerCase : jsstring -> jsstring) (content : jsstring)
    (ind : SpamIndicator) :
  RepetitiveContentRule.execute toLowerCase content = Returned (Some ind) ->
  validIndicator ind.
Proof.
  intros H.
  destruct (repetitive_signal toLowerCase content ind
              (checkRepetitiveWords_le_1 toLowerCase content)
              (checkRepetitivePhrases_le_1 toLowerCase content) H)
    as (C0 & C1 & Hw & _).
  unfold validIndicator. rewrite Hw.
  split; [apply Qlt_le_weak; exact C0|]. split; [exact C1 | reflexivity].
Qed.

(** X29. The signals of the caps-abuse rule and of the
    repetitive-content rule satisfy the data model on every text:
    confidence in [[0,1]] and a positive weight; the repetitive-content
    rule's confidence is positive, its evidence is not empty, and its
    severity is high above 0.7 and low up to 0.4. So an engine that runs
    these two rules returns, on every text, a verdict with score and
    confidence in [[0,1]], a decision that follows the thresholds, and at
    most two signals. *)
Theorem modelled_rules_emit_signals_of_the_data_model
    (toFixed : Q -> nat -> jsstring) (toLowerCase : jsstring -> jsstring)
    (content : jsstring) (elapsed : Q) :
  (forall ind, CapsAbuseRule.execute toFixed content = Returned (Some ind) ->
               validIndicator ind) /\
  (forall ind, RepetitiveContentRule.execute toLowerCase content = Returned (Some ind) ->
               validIndicator ind /\ 0 < confidence ind /\ evidence ind <> [] /\
               (severity ind = high <-> 7 # 10 < confidence ind) /\
               (severity ind = low <-> confidence ind <= 4 # 10)) /\
  (0 <= overallScore
          (analyzeContent toLowerCase
             [CapsAbuseRule.rule toFixed; RepetitiveContentRule.rule toLowerCase]
             content elapsed) /\
   overallScore
     (analyzeContent toLowerCase
        [CapsAbuseRule.rule toFixed; RepetitiveContentRule.rule toLowerCase]
        content elapsed) <= 1) /\
  (0 <= resultConfidence
          (analyzeContent toLowerCase
             [CapsAbuseRule.rule toFixed; RepetitiveContentRule.rule toLowerCase]
             content elapsed) /\
   resultConfidence
     (analyzeContent toLowerCase
        [CapsAbuseRule.rule toFixed; RepetitiveContentRule.rule toLowerCase]
        content elapsed) <= 1) /\
  decision
    (analyzeContent toLowerCase
       [CapsAbuseRule.rule toFixed; RepetitiveContentRule.rule toLowerCase]
       content elapsed)
  = getDecisionFromScore
      (overallScore
         (analyzeContent toLowerCase
            [CapsAbuseRule.rule toFixed; RepetitiveContentRule.rule toLowerCase]
            content elapsed)) /\
  (length (indicators
             (analyzeContent toLowerCase
                [CapsAbuseRule.rule toFixed; RepetitiveContentRule.rule toLowerCase]
                content elapsed)) <= 2)%nat.
Proof.
  split; [intros ind; apply capsAbuse_valid|].
  split.
  { intros ind H. split; [apply (repetitive_valid toLowerCase content ind H)|].
    destruct (repetitive_signal toLowerCase content ind
                (checkRepetitiveWords_le_1 toLowerCase content)
                (checkRepetitivePhrases_le_1 toLowerCase content) H)
      as (C0 & _ & _ & _ & Hev & Hhigh & Hlow).
    repeat split; try assumption; try apply Hhigh; try apply Hlow. }
  assert (Hv : forall rule ind,
             In rule [CapsAbuseRule.rule toFixed; RepetitiveContentRule.rule toLowerCase] ->
             execute rule content = Returned (Some ind) -> validIndicator ind).
  { intros rule ind [<- | [<- | []]] H.
    - apply (capsAbuse_valid toFixed content ind H).
    - apply (repetitive_valid toLowerCase content ind H). }
  destruct (analyzeContent_well_formed toLowerCase _ content elapsed Hv)
    as (H1 & H2 & H3 & _ & H5 & _).
  split; [exact H1|]. split; [exact H2|]. split; [exact H3 | exact H5].
Qed.

(** X30. A text in which some character other than a line break occurs
    four times in a row is always flagged by the repetitive-content rule,
    whatever else the text holds and whatever the case mapping does: the
    rule returns a [repetitive_content] signal with positive confidence
    and with evidence. *)
Theorem repeated_character_is_always_flagged
    (toLowerCase : jsstring -> jsstring) (c : Z) (pre post : jsstring) :
  isLineTerminator c = false ->
  exists ind,
    RepetitiveContentRule.execute toLowerCase (pre ++ [c; c; c; c] ++ post)
    = Returned (Some ind) /\
    indicatorType ind = repetitive_content /\
    0 < confidence ind /\ confidence ind <= 1 /\
    evidence ind <> [].
Proof.
  intros Hc.
  destruct (checkRepetitiveCharacters_run c pre post Hc) as [Hs He].
  assert (Hex : exists ind,
             RepetitiveContentRule.execute toLowerCase (pre ++ [c; c; c; c] ++ post)
             = Returned (Some ind)).
  { unfold RepetitiveContentRule.execute.
    assert (H1 : fst (fst (RepetitiveContentRule.addCheck
                             (RepetitiveContentRule.checkRepetitiveCharacters
                                (pre ++ [c; c; c; c] ++ post))
                             (3 # 10) ([], 0, 0))) <> []).
    { unfold RepetitiveContentRule.addCheck.
      apply Qltb_true in Hs. rewrite Hs. simpl. exact He. }
    pose proof (addCheck_keeps_evidence
                  (RepetitiveContentRule.checkRepetitiveWords toLowerCase
                     (pre ++ [c; c; c; c] ++ post)) (4 # 10) _ H1) as H2.
    pose proof (addCheck_keeps_evidence
                  (RepetitiveContentRule.checkRepetitivePhrases toLowerCase
                     (pre ++ [c; c; c; c] ++ post)) (3 # 10) _ H2) as H3.
    cbv zeta.
    set (acc := RepetitiveContentRule.addCheck
                  (RepetitiveContentRule.checkRepetitivePhrases toLowerCase
                     (pre ++ [c; c; c; c] ++ post)) (3 # 10)
                  (RepetitiveContentRule.addCheck
                     (RepetitiveContentRule.checkRepetitiveWords toLowerCase
                        (pre ++ [c; c; c; c] ++ post)) (4 # 10)
                     (RepetitiveContentRule.addCheck
                        (RepetitiveContentRule.checkRepetitiveCharacters
                           (pre ++ [c; c; c; c] ++ post)) (3 # 10) ([], 0, 0)))) in *.
    destruct acc as [[indicators totalScore] maxScore].
    simpl in H3. destruct indicators as [|e indicators]; [congruence|].
    eexists. reflexivity. }
  destruct Hex as [ind Hind]. exists ind. split; [exact Hind|].
  destruct (repetitive_signal toLowerCase _ ind
              (checkRepetitiveWords_le_1 toLowerCase _)
              (checkRepetitivePhrases_le_1 toLowerCase _) Hind)
    as (C0 & C1 & _ & Ht & Hev & _).
  repeat split; assumption.
Qed.

Lemma repeated_character_is_always_flagged_witness :
  exists ind,
    RepetitiveContentRule.execute asciiToLowerCase
      (js "s" ++ [111; 111; 111; 111]%Z ++ js "oo good")
    = Returned (Some ind) /\
    indicatorType ind = repetitive_content /\
    0 < confidence ind /\ confidence ind <= 1 /\
    evidence ind <> [].
Proof.
  apply (repeated_character_is_always_flagged asciiToLowerCase 111 (js "s") (js "oo good")).
  reflexivity.
Defined.

(** On "soooo good" the rule finds the run of four and emits confidence
    0.2 with weight 0.2; the engine, given this one rule, reports the
    score 0.20000000000000004 and decides flag. *)
Example one_run_of_four_is_flagged :
  let v := SpamDetectionEngine.analyzeContent asciiToLowerCase
             [RepetitiveContentRule.rule asciiToLowerCase] (js "soooo good") (5 # 10) in
  map (fun i => (Qred (confidence i), Qred (weight i))) (indicators v)
  = [(Qred (2 # 10), Qred (2 # 10))] /\
  overallScore v = fl (20000000000000004 # 100000000000000000) /\
  fl (2 # 10) < overallScore v /\
  decision v = flag.
Proof. cbv zeta. repeat split; vm_compute; reflexivity. Qed.

End RuleExtras.
